(** * Property-notice pipeline: a shallow embedding of the backend services

    The backend is JavaScript.  Strings are sequences of UTF-16 code units,
    numbers are IEEE-754 doubles, objects are finite maps from property names
    to values.  The development follows the source files:

    - [services/geminiService.js]   extraction parsing, village-name
      post-processing, refinement merge, coordinate reconciliation;
    - [services/geocodingService.js] the geocoding text cleaner;
    - [services/firebaseService.js]  the persistence adapter;
    - [server.js]                    the save-notice and delete handlers,
      the text-processing route and the route over the geocoding queue;
    - [services/geocodingService.js] the geocoder, its address parser and
      the batch geocoder;
    - [middleware/errorHandler.js]   the error class and the handler;
    - [scripts/fix-village-names.js] the cleaner of stored names. *)

From Stdlib Require Import ZArith NArith List String Ascii Bool Lia Floats.
From stdpp Require Import base option list gmap.
Import ListNotations.

Local Open Scope N_scope.
Set Default Proof Using "Type".
#[local] Set Warnings "-inexact-float,-register-all".

(* ===================================================================== *)
(** * JavaScript strings                                                  *)
(* ===================================================================== *)

Module JsString.

(** A JavaScript string is a finite sequence of 16-bit code units;
    [length], [includes], regular expressions and [trim] all work on code
    units.  Every Gujarati letter lies in the Basic Multilingual Plane and
    is a single code unit. *)
Abbreviation jstr := (list N).

Definition bytes_of (s : string) : list N :=
  map (fun a => N_of_ascii a) (list_ascii_of_string s).

(** UTF-8 decoding of a source literal into code points. *)
Fixpoint utf8_decode (bs : list N) : list N :=
  match bs with
  | [] => []
  | b0 :: r0 =>
    if b0 <? 128 then b0 :: utf8_decode r0
    else if b0 <? 224 then
      match r0 with
      | b1 :: r1 => ((b0 - 192) * 64 + (b1 - 128)) :: utf8_decode r1
      | [] => []
      end
    else if b0 <? 240 then
      match r0 with
      | b1 :: b2 :: r2 =>
        ((b0 - 224) * 4096 + (b1 - 128) * 64 + (b2 - 128)) :: utf8_decode r2
      | _ => []
      end
    else
      match r0 with
      | b1 :: b2 :: b3 :: r3 =>
        ((b0 - 240) * 262144 + (b1 - 128) * 4096 + (b2 - 128) * 64 + (b3 - 128))
          :: utf8_decode r3
      | _ => []
      end
  end.

(** Code points above U+FFFF become a surrogate pair. *)
Definition utf16_encode (cp : N) : list N :=
  if cp <? 65536 then [cp]
  else [55296 + (cp - 65536) / 1024; 56320 + (cp - 65536) mod 1024].

(** The JavaScript string denoted by a (UTF-8) source literal. *)
Definition js (s : string) : jstr :=
  flat_map utf16_encode (utf8_decode (bytes_of s)).

(** The same, for a literal in which an apostrophe stands for a double
    quote (JSON text). *)
Definition jq (s : string) : jstr :=
  map (fun c => if c =? 39 then 34 else c) (js s).

(** [WhiteSpace] and [LineTerminator] code units: the class [\s] of
    regular expressions and the characters removed by [trim]. *)
Definition is_space (c : N) : bool :=
  (c =? 9) || (c =? 10) || (c =? 11) || (c =? 12) || (c =? 13) || (c =? 32)
  || (c =? 160) || (c =? 5760) || ((8192 <=? c) && (c <=? 8202))
  || (c =? 8232) || (c =? 8233) || (c =? 8239) || (c =? 8287)
  || (c =? 12288) || (c =? 65279).

(** Line terminators: what the regular-expression dot does not match. *)
Definition is_line_terminator (c : N) : bool :=
  (c =? 10) || (c =? 13) || (c =? 8232) || (c =? 8233).

Fixpoint trim_start (s : jstr) : jstr :=
  match s with
  | c :: s' => if is_space c then trim_start s' else s
  | [] => []
  end.

Definition trim_end (s : jstr) : jstr := rev (trim_start (rev s)).

(** [String.prototype.trim]. *)
Definition trim (s : jstr) : jstr := trim_end (trim_start s).

Fixpoint starts_with (p s : jstr) : bool :=
  match p, s with
  | [], _ => true
  | a :: p', b :: s' => (a =? b) && starts_with p' s'
  | _ :: _, [] => false
  end.

(** [String.prototype.includes]. *)
Fixpoint includes (s p : jstr) : bool :=
  starts_with p s ||
  match s with
  | [] => false
  | _ :: s' => includes s' p
  end.

(** [String.prototype.split] with a one-unit separator. *)
Fixpoint split_on (sep : N) (s : jstr) : list jstr :=
  match s with
  | [] => [[]]
  | c :: s' =>
    if c =? sep then [] :: split_on sep s'
    else match split_on sep s' with
         | w :: ws => (c :: w) :: ws
         | [] => [[c]]
         end
  end.

End JsString.
Import JsString.

(* ===================================================================== *)
(** * Regular expressions                                                 *)
(* ===================================================================== *)

Module Regex.

(** The patterns of the services are sequences of literals, character
    classes with a greedy quantifier and the anchors [^] and [$].  A capture
    group around a quantified class changes what is reported, never what is
    matched; every pattern that has one is used through
    [String.prototype.match] with the [g] flag, which reports whole matches
    only.  The [i] flag is immaterial where the literals are Gujarati
    letters, back-ticks and braces, which have no case variants; the
    literals of the save route are another matter, see [Server]. *)
Inductive atom :=
| Lit (c : N)             (* this code unit *)
| One (cls : N -> bool)   (* one unit of the class *)
| Star (cls : N -> bool)  (* [cls*], greedy *)
| Bol                     (* [^] *)
| Eol.                    (* [$] *)

Abbreviation regex := (list atom).

Definition lit (s : jstr) : regex := map Lit s.
Definition plus (cls : N -> bool) : regex := [One cls; Star cls].
Definition at_least (n : nat) (cls : N -> bool) : regex :=
  repeat (One cls) n ++ [Star cls].

(** Character classes of the source patterns. *)
Definition cls_space : N -> bool := is_space.                       (* \s *)
Definition cls_dot (c : N) : bool := negb (is_line_terminator c).   (* .  *)
Definition cls_any (c : N) : bool := true.                          (* [\s\S] *)
(** [[0-9\.\-\/]] *)
Definition cls_num_punct (c : N) : bool :=
  ((48 <=? c) && (c <=? 57)) || (c =? 46) || (c =? 45) || (c =? 47).
(** [[^\s,\.]] *)
Definition cls_word (c : N) : bool :=
  negb (is_space c || (c =? 44) || (c =? 46)).

(** Backtracking match of [re] at the head of [s]; [bol] tells whether the
    head of [s] is the start of the input.  The result is the number of
    code units consumed by the first match in priority order. *)
Fixpoint match_here (re : regex) : bool -> jstr -> option nat :=
  match re with
  | [] => fun _ _ => Some 0%nat
  | a :: re' =>
    match a with
    | Lit c => fun _ s =>
        match s with
        | x :: s' => if x =? c then S <$> match_here re' false s' else None
        | [] => None
        end
    | One cls => fun _ s =>
        match s with
        | x :: s' => if cls x then S <$> match_here re' false s' else None
        | [] => None
        end
    | Star cls =>
        fix star (bol : bool) (s : jstr) {struct s} : option nat :=
          match s with
          | x :: s' =>
            if cls x then
              match star false s' with
              | Some n => Some (S n)
              | None => match_here re' bol s
              end
            else match_here re' bol s
          | [] => match_here re' bol []
          end
    | Bol => fun bol s => if bol then match_here re' bol s else None
    | Eol => fun bol s =>
        match s with
        | [] => match_here re' bol []
        | _ :: _ => None
        end
    end
  end.

(** Leftmost match: its start offset and its length. *)
Fixpoint search_from (re : regex) (bol : bool) (s : jstr) : option (nat * nat) :=
  match match_here re bol s with
  | Some n => Some (0%nat, n)
  | None =>
    match s with
    | [] => None
    | _ :: s' =>
      match search_from re false s' with
      | Some (i, n) => Some (S i, n)
      | None => None
      end
    end
  end.

Definition search (re : regex) (s : jstr) : option (nat * nat) :=
  search_from re true s.

(** [s.replace(re, rep)] without the [g] flag: the first match only. *)
Definition replace (re : regex) (rep : jstr) (s : jstr) : jstr :=
  match search re s with
  | Some (i, n) => take i s ++ rep ++ drop (i + n) s
  | None => s
  end.

(** [s.replace(re, rep)] with the [g] flag: every match, left to right;
    after an empty match the scan moves one unit on.  [skip] counts the
    units of the current match that are still to be dropped. *)
Fixpoint replace_all_from (re : regex) (rep : jstr) (bol : bool) (skip : nat)
    (s : jstr) : jstr :=
  match skip with
  | S k =>
    match s with
    | [] => []
    | _ :: s' => replace_all_from re rep false k s'
    end
  | O =>
    match match_here re bol s with
    | Some O =>
      rep ++ match s with
             | [] => []
             | x :: s' => x :: replace_all_from re rep false 0 s'
             end
    | Some (S k) =>
      rep ++ match s with
             | [] => []
             | _ :: s' => replace_all_from re rep false k s'
             end
    | None =>
      match s with
      | [] => []
      | x :: s' => x :: replace_all_from re rep false 0 s'
      end
    end
  end.

Definition replace_all (re : regex) (rep : jstr) (s : jstr) : jstr :=
  replace_all_from re rep true 0 s.

(** [s.match(re)] without the [g] flag: the text of the first match. *)
Definition match_first (re : regex) (s : jstr) : option jstr :=
  match search re s with
  | Some (i, n) => Some (take n (drop i s))
  | None => None
  end.

(** [s.match(re)] with the [g] flag: the texts of all matches, in order
    ([null], here [None], when there is none).  Capture groups are not
    reported. *)
Fixpoint match_all_from (re : regex) (bol : bool) (skip : nat) (s : jstr)
    : list jstr :=
  match skip with
  | S k =>
    match s with
    | [] => []
    | _ :: s' => match_all_from re false k s'
    end
  | O =>
    match match_here re bol s with
    | Some n =>
      take n s ::
        match s with
        | [] => []
        | _ :: s' => match_all_from re false (pred n) s'
        end
    | None =>
      match s with
      | [] => []
      | _ :: s' => match_all_from re false 0 s'
      end
    end
  end.

Definition match_all (re : regex) (s : jstr) : option (list jstr) :=
  match match_all_from re true 0 s with
  | [] => None
  | ms => Some ms
  end.

End Regex.
Import Regex.

(* ===================================================================== *)
(** * JavaScript values                                                   *)
(* ===================================================================== *)

Module Js.

Inductive value :=
| VUndefined
| VNull
| VBool (b : bool)
| VNum (f : float)
| VStr (s : jstr)
| VArr (l : list value)
| VObj (o : gmap jstr value).

Abbreviation obj := (gmap jstr value).

(** Errors carry their [message]. *)
Inductive outcome (A : Type) :=
| Ok (a : A)
| Throw (message : string).
Arguments Ok {A} a.
Arguments Throw {A} message.

Definition bind {A B} (m : outcome A) (k : A -> outcome B) : outcome B :=
  match m with
  | Ok a => k a
  | Throw e => Throw e
  end.

(** The value of a computation that did not throw. *)
Definition from_ok {A} (m : outcome A) : option A :=
  match m with
  | Ok a => Some a
  | Throw _ => None
  end.

(** [try { body } catch (error) { handler(error.message) }] *)
Definition try_catch {A} (body : outcome A) (handler : string -> outcome A)
    : outcome A :=
  match body with
  | Ok a => Ok a
  | Throw e => handler e
  end.

Definition is_nan (f : float) : bool := negb (PrimFloat.eqb f f).

(** [ToBoolean]. *)
Definition truthy (v : value) : bool :=
  match v with
  | VUndefined | VNull => false
  | VBool b => b
  | VNum f => negb (PrimFloat.eqb f 0 || is_nan f)
  | VStr s => match s with [] => false | _ => true end
  | VArr _ | VObj _ => true
  end.

(** [null] or [undefined]. *)
Definition nullish (v : value) : bool :=
  match v with
  | VUndefined | VNull => true
  | _ => false
  end.

(** [a || b] *)
Definition or_else (a b : value) : value := if truthy a then a else b.

(** [o.k] on an object: a missing property reads as [undefined]. *)
Definition get (o : obj) (k : jstr) : value := default VUndefined (o !! k).

(** [v.k] on any value, for the property names the services read
    ([data], [confidence], [village_name], ...): none of them is a
    built-in property of a string, number, boolean or array, so they read
    as [undefined] there; reading a property of [null] or [undefined] is a
    [TypeError] (a short form stands for the engine's message). *)
Definition prop (v : value) (k : jstr) : outcome value :=
  match v with
  | VUndefined => Throw "Cannot read properties of undefined"
  | VNull => Throw "Cannot read properties of null"
  | VObj o => Ok (get o k)
  | _ => Ok VUndefined
  end.

(** [typeof v === 'object'] *)
Definition typeof_object (v : value) : bool :=
  match v with
  | VNull | VArr _ | VObj _ => true
  | _ => false
  end.

(** The property name of index [n]: its decimal digits. *)
Fixpoint nat_digits_aux (fuel n : nat) (acc : jstr) : jstr :=
  match fuel with
  | O => acc
  | S fuel' =>
    let acc' := (48 + N.of_nat (n mod 10))%N :: acc in
    if (n / 10 =? 0)%nat then acc' else nat_digits_aux fuel' (n / 10)%nat acc'
  end.

Definition index_key (n : nat) : jstr := nat_digits_aux (S n) n [].

Definition indexed {A} (f : A -> value) (l : list A) : obj :=
  list_to_map (imap (fun i x => (index_key i, f x)) l).

(** Own enumerable properties copied by an object spread [{...v}]:
    those of an object; index properties of an array or a string; none
    for the other values. *)
Definition spread (v : value) : obj :=
  match v with
  | VObj o => o
  | VArr l => indexed (fun x => x) l
  | VStr s => indexed (fun c => VStr [c]) s
  | _ => ∅
  end.

(** [{...a, ...b}]: the properties of [b] win. *)
Definition merge (a b : obj) : obj := b ∪ a.

(** [Math.max(a, b)] and [Math.min(a, b)] on numbers. *)
Definition Math_max (a b : float) : float :=
  if is_nan a || is_nan b then nan
  else if PrimFloat.ltb a b then b
  else if PrimFloat.ltb b a then a
  else if PrimFloat.ltb (1 / a) (1 / b) then b else a.   (* max(-0, +0) = +0 *)

Definition Math_min (a b : float) : float :=
  if is_nan a || is_nan b then nan
  else if PrimFloat.ltb a b then a
  else if PrimFloat.ltb b a then b
  else if PrimFloat.ltb (1 / a) (1 / b) then a else b.   (* min(-0, +0) = -0 *)

End Js.
Import Js.

(* ===================================================================== *)
(** * Numbers from text, and [JSON.parse]                                 *)
(* ===================================================================== *)

Module Json.

Local Open Scope Z_scope.

(** The double nearest to [m * 10^e] (ties to even), for [0 <= m].  A
    negative exponent is handled by a quotient with 64 guard bits and a
    sticky bit, which [binary_normalize] rounds once. *)
Definition float_of_decimal (neg : bool) (m e : Z) : float :=
  let mag :=
    if m =? 0 then 0%float
    else if 400 <? e then infinity
    else if e + Z.log2 m / 3 + 1 <? -400 then 0%float
    else if 0 <=? e then
      SF2Prim (binary_normalize prec emax (m * 10 ^ e) 0 false)
    else
      let k := - e in
      let n := 64 + 4 * k in
      let num := m * 2 ^ n in
      let den := 10 ^ k in
      let sticky := if num mod den =? 0 then 0 else 1 in
      SF2Prim (binary_normalize prec emax (2 * (num / den) + sticky) (- (n + 1)) false)
  in if neg then (- mag)%float else mag.

Definition is_digit (c : N) : bool := ((48 <=? c) && (c <=? 57))%N.

(** Leading decimal digits: their value, their number, and the rest. *)
Fixpoint take_digits (s : jstr) (acc : Z) (n : Z) : Z * Z * jstr :=
  match s with
  | c :: s' =>
    if is_digit c then take_digits s' (10 * acc + (Z.of_N c - 48)) (n + 1)
    else (acc, n, s)
  | [] => (acc, n, [])
  end.

(** [[eE][+-]?[0-9]+], when present. *)
Definition take_exponent (s : jstr) : option (Z * jstr) :=
  match s with
  | c :: s1 =>
    if ((c =? 101) || (c =? 69))%N then
      let '(neg, s2) :=
        match s1 with
        | d :: s2 => if (d =? 45)%N then (true, s2)
                     else if (d =? 43)%N then (false, s2) else (false, s1)
        | [] => (false, s1)
        end in
      let '(v, n, s3) := take_digits s2 0 0 in
      if n =? 0 then None else Some (if neg then - v else v, s3)
    else Some (0, s)
  | [] => Some (0, [])
  end.

(** The integer part of a JSON number is [0] or has no leading zero. *)
Definition int_part_ok (s0 : jstr) (ni : Z) : bool :=
  negb (ni =? 0) &&
  match s0 with
  | c :: _ => negb ((c =? 48)%N && (1 <? ni))
  | [] => false
  end.

(** A JSON number: an optional minus sign, an integer part, an optional
    fraction (a dot and at least one digit), an optional exponent. *)
Definition parse_number (s : jstr) : option (float * jstr) :=
  let '(neg, s0) :=
    match s with
    | c :: s' => if (c =? 45)%N then (true, s') else (false, s)
    | [] => (false, s)
    end in
  let '(ip, ni, s1) := take_digits s0 0 0 in
  if int_part_ok s0 ni then
    let '(m, nf, s2, ok) :=
      match s1 with
      | c :: s1' =>
        if (c =? 46)%N then
          let '(m, nf, s2) := take_digits s1' ip 0 in (m, nf, s2, negb (nf =? 0))
        else (ip, 0, s1, true)
      | [] => (ip, 0, s1, true)
      end in
    if ok then
      match take_exponent s2 with
      | Some (ex, s3) => Some (float_of_decimal neg m (ex - nf), s3)
      | None => None
      end
    else None
  else None.

Definition json_ws (c : N) : bool :=
  ((c =? 32) || (c =? 9) || (c =? 10) || (c =? 13))%N.

Fixpoint skip_ws (s : jstr) : jstr :=
  match s with
  | c :: s' => if json_ws c then skip_ws s' else s
  | [] => []
  end.

Definition hex_val (c : N) : option N :=
  (if (48 <=? c) && (c <=? 57) then Some (c - 48)
   else if (97 <=? c) && (c <=? 102) then Some (c - 87)
   else if (65 <=? c) && (c <=? 70) then Some (c - 55)
   else None)%N.

(** The characters of a JSON string after its opening quote, up to the
    closing one; [acc] holds the decoded units in reverse. *)
Fixpoint parse_string_body (s : jstr) (acc : jstr) : option (jstr * jstr) :=
  match s with
  | [] => None
  | c :: r =>
    if (c =? 34)%N then Some (rev acc, r)
    else if (c =? 92)%N then
      match r with
      | [] => None
      | e :: r1 =>
        if ((e =? 34) || (e =? 92) || (e =? 47))%N then parse_string_body r1 (e :: acc)
        else if (e =? 98)%N then parse_string_body r1 (8%N :: acc)
        else if (e =? 102)%N then parse_string_body r1 (12%N :: acc)
        else if (e =? 110)%N then parse_string_body r1 (10%N :: acc)
        else if (e =? 114)%N then parse_string_body r1 (13%N :: acc)
        else if (e =? 116)%N then parse_string_body r1 (9%N :: acc)
        else if (e =? 117)%N then
          match r1 with
          | h1 :: h2 :: h3 :: h4 :: r2 =>
            match hex_val h1, hex_val h2, hex_val h3, hex_val h4 with
            | Some a, Some b, Some c', Some d =>
              parse_string_body r2 ((a * 4096 + b * 256 + c' * 16 + d)%N :: acc)
            | _, _, _, _ => None
            end
          | _ => None
          end
        else None
      end
    else if (c <? 32)%N then None
    else parse_string_body r (c :: acc)
  end.

Definition lit_true : jstr := Eval vm_compute in js "true".
Definition lit_false : jstr := Eval vm_compute in js "false".
Definition lit_null : jstr := Eval vm_compute in js "null".

(** One JSON value at the head of [s] (after white space), and the rest of
    the text.  [fuel] bounds the nesting depth and the number of members;
    the length of the text is always enough. *)
Fixpoint parse_value (fuel : nat) (s : jstr) {struct fuel} : option (value * jstr) :=
  match fuel with
  | O => None
  | S fuel' =>
    match skip_ws s with
    | [] => None
    | c :: r =>
      if (c =? 123)%N then      (* an object *)
        match skip_ws r with
        | [] => None
        | c1 :: r1 =>
          if (c1 =? 125)%N then Some (VObj ∅, r1)
          else
            (fix members (n : nat) (t : jstr) (acc : obj) {struct n}
               : option (value * jstr) :=
               match n with
               | O => None
               | S n' =>
                 match skip_ws t with
                 | q :: t1 =>
                   if (q =? 34)%N then
                     match parse_string_body t1 [] with
                     | Some (k, t2) =>
                       match skip_ws t2 with
                       | col :: t3 =>
                         if (col =? 58)%N then
                           match parse_value fuel' t3 with
                           | Some (v, t4) =>
                             match skip_ws t4 with
                             | d :: t5 =>
                               if (d =? 44)%N then members n' t5 (<[k := v]> acc)
                               else if (d =? 125)%N then Some (VObj (<[k := v]> acc), t5)
                               else None
                             | [] => None
                             end
                           | None => None
                           end
                         else None
                       | [] => None
                       end
                     | None => None
                     end
                   else None
                 | [] => None
                 end
               end) fuel' (c1 :: r1) ∅
        end
      else if (c =? 91)%N then  (* an array *)
        match skip_ws r with
        | [] => None
        | c1 :: r1 =>
          if (c1 =? 93)%N then Some (VArr [], r1)
          else
            (fix elements (n : nat) (t : jstr) (acc : list value) {struct n}
               : option (value * jstr) :=
               match n with
               | O => None
               | S n' =>
                 match parse_value fuel' t with
                 | Some (v, t1) =>
                   match skip_ws t1 with
                   | d :: t2 =>
                     if (d =? 44)%N then elements n' t2 (v :: acc)
                     else if (d =? 93)%N then Some (VArr (rev (v :: acc)), t2)
                     else None
                   | [] => None
                   end
                 | None => None
                 end
               end) fuel' (c1 :: r1) []
        end
      else if (c =? 34)%N then
        match parse_string_body r [] with
        | Some (str, r1) => Some (VStr str, r1)
        | None => None
        end
      else if starts_with lit_true (c :: r) then Some (VBool true, drop 4 (c :: r))
      else if starts_with lit_false (c :: r) then Some (VBool false, drop 5 (c :: r))
      else if starts_with lit_null (c :: r) then Some (VNull, drop 4 (c :: r))
      else
        match parse_number (c :: r) with
        | Some (f, r1) => Some (VNum f, r1)
        | None => None
        end
    end
  end.

(** [JSON.parse]: one value, then only white space.  The wording of a
    [SyntaxError] message is left to the engine; a short form stands for
    it here. *)
Definition JSON_parse (s : jstr) : outcome value :=
  match parse_value (S (length s)) s with
  | Some (v, r) =>
    match skip_ws r with
    | [] => Ok v
    | _ :: _ => Throw "Unexpected non-whitespace character after JSON"
    end
  | None => Throw "Unexpected token in JSON"
  end.

(** [StringToNumber]: white space is trimmed; the empty string is [0];
    then a signed decimal literal, [Infinity], or an unsigned hexadecimal,
    octal or binary integer literal; anything else is [NaN]. *)
Fixpoint take_radix (radix : Z) (s : jstr) (acc : Z) (n : Z) : Z * Z * jstr :=
  match s with
  | c :: s' =>
    match hex_val c with
    | Some d => if Z.of_N d <? radix then take_radix radix s' (radix * acc + Z.of_N d) (n + 1)
                else (acc, n, s)
    | None => (acc, n, s)
    end
  | [] => (acc, n, [])
  end.

Definition radix_literal (radix : Z) (s : jstr) : float :=
  match take_radix radix s 0 0 with
  | (v, n, []) => if n =? 0 then nan
                  else SF2Prim (binary_normalize prec emax v 0 false)
  | _ => nan
  end.

Definition lit_Infinity : jstr := Eval vm_compute in js "Infinity".

Definition decimal_literal (s : jstr) : float :=
  let '(neg, s0) :=
    match s with
    | c :: s' => if (c =? 45)%N then (true, s')
                 else if (c =? 43)%N then (false, s') else (false, s)
    | [] => (false, s)
    end in
  if starts_with lit_Infinity s0 && (length s0 =? 8)%nat then
    (if neg then neg_infinity else infinity)
  else
    let '(ip, ni, s1) := take_digits s0 0 0 in
    let '(m, nf, s2) :=
      match s1 with
      | c :: s1' => if (c =? 46)%N then take_digits s1' ip 0 else (ip, 0, s1)
      | [] => (ip, 0, s1)
      end in
    if ni + nf =? 0 then nan
    else
      match take_exponent s2 with
      | Some (ex, []) => float_of_decimal neg m (ex - nf)
      | _ => nan
      end.

Definition string_to_number (s : jstr) : float :=
  match trim s with
  | [] => 0%float
  | c :: d :: r =>
    if (c =? 48)%N && ((d =? 120) || (d =? 88))%N then radix_literal 16 r
    else if (c =? 48)%N && ((d =? 111) || (d =? 79))%N then radix_literal 8 r
    else if (c =? 48)%N && ((d =? 98) || (d =? 66))%N then radix_literal 2 r
    else decimal_literal (c :: d :: r)
  | t => decimal_literal t
  end.

(** [ToNumber].  An object is [NaN]; an array goes through its string
    form: empty is [0], a single element counts as its own string form,
    two or more elements contain a comma and are [NaN]. *)
Fixpoint to_number (v : value) : float :=
  match v with
  | VUndefined => nan
  | VNull => 0%float
  | VBool b => if b then 1%float else 0%float
  | VNum f => f
  | VStr s => string_to_number s
  | VObj _ => nan
  | VArr [] => 0%float
  | VArr [x] =>
    match x with
    | VUndefined | VNull => 0%float
    | VNum f => (f + 0)%float
    | VStr s => string_to_number s
    | VBool _ | VObj _ => nan
    | VArr _ => to_number x
    end
  | VArr (_ :: _ :: _) => nan
  end.

(** Code-unit order of strings. *)
Fixpoint str_lt (a b : jstr) : bool :=
  match a, b with
  | _, [] => false
  | [], _ :: _ => true
  | x :: a', y :: b' => (x <? y)%N || ((x =? y)%N && str_lt a' b')
  end.

(** [ToPrimitive] with hint number: an array or an object has no numeric
    [valueOf], so it becomes its string form, [to_str v]. *)
Definition to_primitive (to_str : value -> jstr) (v : value) : value :=
  match v with
  | VArr _ | VObj _ => VStr (to_str v)
  | _ => v
  end.

(** [a > b]: both operands are made primitive; two strings compare by
    code units, anything else numerically (a comparison with [NaN] is
    false). *)
Definition js_gt (to_str : value -> jstr) (a b : value) : bool :=
  match to_primitive to_str a, to_primitive to_str b with
  | VStr x, VStr y => str_lt y x
  | pa, pb => PrimFloat.ltb (to_number pb) (to_number pa)
  end.

End Json.
Import Json.

(* ===================================================================== *)
(** * Boilerplate words of a notice                                       *)
(* ===================================================================== *)

Module Words.

Definition REVENUE : jstr := Eval vm_compute in js "રેવન્યુ".   (* revenue *)
Definition SARVE : jstr := Eval vm_compute in js "સર્વે".       (* survey *)
Definition NAM : jstr := Eval vm_compute in js "નં".           (* number *)
Definition NA : jstr := Eval vm_compute in js "ના".
Definition NI : jstr := Eval vm_compute in js "ની".
Definition NUM : jstr := Eval vm_compute in js "નું".
Definition MOJE : jstr := Eval vm_compute in js "મોજે".
Definition GAM : jstr := Eval vm_compute in js "ગામ".          (* village *)
Definition SPACE : jstr := [32].

End Words.
Import Words.

(* ===================================================================== *)
(** * geocodingService.js: the geocoding text cleaner                     *)
(* ===================================================================== *)

Module Geocoding.

(** [/રેવન્યુ\s*સર્વે\s*નં.*$/gi] *)
Definition re_revenue_survey : regex :=
  lit REVENUE ++ [Star cls_space] ++ lit SARVE ++ [Star cls_space]
    ++ lit NAM ++ [Star cls_dot; Eol].
(** [/સર્વે\s*નં.*$/gi] *)
Definition re_survey : regex :=
  lit SARVE ++ [Star cls_space] ++ lit NAM ++ [Star cls_dot; Eol].
(** [/^ગામ\s*/gi] *)
Definition re_gam_prefix : regex := [Bol] ++ lit GAM ++ [Star cls_space].
(** [/[0-9\.\-\/]+/g] *)
Definition re_num_punct : regex := plus cls_num_punct.
(** [/\s+/g] *)
Definition re_spaces : regex := plus cls_space.

(** The chain of replacements and the final [trim]. *)
Definition strip_boilerplate (villageName : jstr) : jstr :=
  trim
    (replace_all re_spaces SPACE
      (replace_all re_num_punct []
        (replace_all re_gam_prefix []
          (replace_all re_survey []
            (replace_all re_revenue_survey [] villageName))))).

(** [cleanVillageNameForGeocoding] on a string. *)
Definition clean_string (villageName : jstr) : jstr :=
  let cleaned := strip_boilerplate villageName in
  if (length cleaned <? 3)%nat then villageName else cleaned.

(** [cleanVillageNameForGeocoding(villageName)] on any value: a falsy
    argument gives the empty string; a truthy value that is not a string
    has no [replace] method. *)
Definition cleanVillageNameForGeocoding (villageName : value) : outcome value :=
  if negb (truthy villageName) then Ok (VStr [])
  else
    match villageName with
    | VStr s => Ok (VStr (clean_string s))
    | _ => Throw "villageName.replace is not a function"
    end.

End Geocoding.

(* ===================================================================== *)
(** * geminiService.js: extraction parsing and village-name clean-up       *)
(* ===================================================================== *)

Module Gemini.

(** Property names. *)
Definition k_village_name : jstr := Eval vm_compute in js "village_name".
Definition k_village_name_cleaned : jstr := Eval vm_compute in js "village_name_cleaned".
Definition k_survey_number : jstr := Eval vm_compute in js "survey_number".
Definition k_buyer_name : jstr := Eval vm_compute in js "buyer_name".
Definition k_seller_name : jstr := Eval vm_compute in js "seller_name".
Definition k_notice_date : jstr := Eval vm_compute in js "notice_date".
Definition k_advocate_name : jstr := Eval vm_compute in js "advocate_name".
Definition k_advocate_address : jstr := Eval vm_compute in js "advocate_address".
Definition k_advocate_mobile : jstr := Eval vm_compute in js "advocate_mobile".
Definition k_district : jstr := Eval vm_compute in js "district".
Definition k_taluka : jstr := Eval vm_compute in js "taluka".
Definition k_data : jstr := Eval vm_compute in js "data".
Definition k_confidence : jstr := Eval vm_compute in js "confidence".
Definition k_notes : jstr := Eval vm_compute in js "notes".

(** The eleven fields of an extraction. *)
Definition extraction_fields : list jstr :=
  [k_village_name; k_village_name_cleaned; k_survey_number; k_buyer_name;
   k_seller_name; k_notice_date; k_advocate_name; k_advocate_address;
   k_advocate_mobile; k_district; k_taluka].

(** ** [postProcessVillageNames] *)

(** Step 1 patterns, in the order of the chain. *)
(** [/\s*રેવન્યુ\s*સર્વે\s*નં.*$/gi] *)
Definition re_revenue_survey : regex :=
  [Star cls_space] ++ lit REVENUE ++ [Star cls_space] ++ lit SARVE
    ++ [Star cls_space] ++ lit NAM ++ [Star cls_dot; Eol].
(** [/\s*સર્વે\s*નં.*$/gi] *)
Definition re_survey : regex :=
  [Star cls_space] ++ lit SARVE ++ [Star cls_space] ++ lit NAM
    ++ [Star cls_dot; Eol].
(** [/ના\s*$/], [/ની\s*$/], [/નું\s*$/] *)
Definition re_suffix (w : jstr) : regex := lit w ++ [Star cls_space; Eol].
(** [/^મોજે\s+ગામ\s+/] *)
Definition re_moje_gam_prefix : regex :=
  [Bol] ++ lit MOJE ++ plus cls_space ++ lit GAM ++ plus cls_space.
(** [/^ગામ\s+/] *)
Definition re_gam_prefix : regex := [Bol] ++ lit GAM ++ plus cls_space.
(** [/[0-9\.\-\/]+/g] *)
Definition re_num_punct : regex := plus cls_num_punct.
(** [/\s+/g] *)
Definition re_spaces : regex := plus cls_space.

(** Step 1: the chain of replacements and the final [trim]. *)
Definition step1 (originalName : jstr) : jstr :=
  trim
    (replace_all re_spaces SPACE
      (replace_all re_num_punct []
        (replace re_gam_prefix []
          (replace re_moje_gam_prefix []
            (replace (re_suffix NUM) []
              (replace (re_suffix NI) []
                (replace (re_suffix NA) []
                  (replace_all re_survey []
                    (replace_all re_revenue_survey [] originalName))))))))).

(** Step 2 patterns, in priority order; all carry the [g] flag. *)
Definition patterns : list regex :=
  [ (* /મોજે\s+ગામ\s+([^\s,\.]+)ના/g *)
    lit MOJE ++ plus cls_space ++ lit GAM ++ plus cls_space ++ plus cls_word ++ lit NA;
    (* /ગામ\s+([^\s,\.]+)ના/g *)
    lit GAM ++ plus cls_space ++ plus cls_word ++ lit NA;
    (* /([^\s,\.]+)ના\s+રેવન્યુ/g *)
    plus cls_word ++ lit NA ++ plus cls_space ++ lit REVENUE;
    (* /([^\s,\.]+)ના\s+સર્વે/g *)
    plus cls_word ++ lit NA ++ plus cls_space ++ lit SARVE;
    (* /([^\s,\.]+)ના$/g *)
    plus cls_word ++ lit NA ++ [Eol];
    (* /([^\s,\.]{2,})/g *)
    at_least 2 cls_word ].

(** The acceptance test of a candidate. *)
Definition valid_candidate (candidate : jstr) : bool :=
  (2 <=? length candidate)%nat && (length candidate <=? 10)%nat
  && negb (includes candidate SARVE)
  && negb (includes candidate REVENUE)
  && negb (includes candidate NAM).

(** [match[1]] of [originalName.match(pattern)]: with the [g] flag the
    array holds the whole matches, so index 1 is the second match. *)
Definition match_index_1 (pattern : regex) (originalName : jstr) : option jstr :=
  match match_all pattern originalName with
  | Some (_ :: m1 :: _) => Some m1
  | _ => None
  end.

(** The [for ... of patterns] loop with its [break]. *)
Fixpoint try_patterns (ps : list regex) (originalName cleanedVillageName : jstr)
    : jstr :=
  match ps with
  | [] => cleanedVillageName
  | pattern :: ps' =>
    match match_index_1 pattern originalName with
    | Some m1 =>
      let candidate := trim m1 in
      if (match m1 with [] => false | _ => true end) && valid_candidate candidate
      then candidate
      else try_patterns ps' originalName cleanedVillageName
    | None => try_patterns ps' originalName cleanedVillageName
    end
  end.

(** The guard of step 2. *)
Definition needs_extraction (cleanedVillageName : jstr) : bool :=
  (10 <? length cleanedVillageName)%nat
  || includes cleanedVillageName SARVE
  || includes cleanedVillageName REVENUE.

Definition step2 (originalName cleanedVillageName : jstr) : jstr :=
  if needs_extraction cleanedVillageName
  then try_patterns patterns originalName cleanedVillageName
  else cleanedVillageName.

Definition step3 (originalName cleanedVillageName : jstr) : jstr :=
  if (length cleanedVillageName <? 2)%nat then originalName else cleanedVillageName.

(** [cleanedVillageName || originalName] *)
Definition step4 (originalName cleanedVillageName : jstr) : jstr :=
  match cleanedVillageName with
  | [] => originalName
  | _ => cleanedVillageName
  end.

(** The final village name computed from a non-empty original name. *)
Definition finalVillageName (originalName : jstr) : jstr :=
  step4 originalName
    (step3 originalName (step2 originalName (step1 originalName))).

(** [postProcessVillageNames(extractedData)].  The argument is
    [parsed.data], which the caller has checked to be truthy and of type
    object (an object or an array). *)
Definition postProcessVillageNames (extractedData : value) : outcome value :=
  bind (prop extractedData k_village_name) (fun village_name =>
    if negb (truthy village_name) then Ok extractedData
    else
      match village_name with
      | VStr originalName =>
        let final := finalVillageName originalName in
        Ok (VObj (<[k_village_name_cleaned := VStr final]>
                 (<[k_village_name := VStr final]> (spread extractedData))))
      | _ => Throw "originalName.replace is not a function"
      end).

(** ** [parseGeminiResponse] *)

Definition FENCE : jstr := Eval vm_compute in js "```".
Definition FENCE_JSON : jstr := Eval vm_compute in js "```json".
(** [/```json\s*/] *)
Definition re_fence_json : regex := lit FENCE_JSON ++ [Star cls_space].
(** [/```\s*$/] *)
Definition re_fence_end : regex := lit FENCE ++ [Star cls_space; Eol].
(** [/```\s*/] *)
Definition re_fence : regex := lit FENCE ++ [Star cls_space].
(** [/\{[\s\S]*\}/] *)
Definition re_braces : regex := [Lit 123; Star cls_any; Lit 125].

(** The response without its markdown code fence. *)
Definition strip_fences (response : jstr) : jstr :=
  let cleanResponse := trim response in
  let cleanResponse := replace re_fence_end [] (replace re_fence_json [] cleanResponse) in
  replace re_fence_end [] (replace re_fence [] cleanResponse).

(** The object [{ data, confidence, notes }] returned by the parser. *)
Record parsed_response := {
  data : value;
  confidence : value;
  notes : value
}.

Definition default_notes : jstr := Eval vm_compute in js "Processed with Gemini AI".
Definition fallback_notes : jstr := Eval vm_compute in js "Parsed with fallback method".
Definition failure_notes : jstr :=
  Eval vm_compute in js "Failed to parse Gemini response, returned empty structure".

(** The body of the [try] block. *)
Definition parse_main (geminiResponse : jstr) : outcome parsed_response :=
  bind (JSON_parse (strip_fences geminiResponse)) (fun parsed =>
  bind (prop parsed k_data) (fun parsed_data =>
  if negb (truthy parsed_data) || negb (typeof_object parsed_data)
  then Throw "Invalid response structure: missing data object"
  else
    bind (postProcessVillageNames parsed_data) (fun cleanedData =>
    bind (prop parsed k_confidence) (fun parsed_confidence =>
    bind (prop parsed k_notes) (fun parsed_notes =>
      let confidence := or_else parsed_confidence (VNum 0.5) in
      let validConfidence := Math_min (Math_max (to_number confidence) 0) 1 in
      Ok {| data := cleanedData;
            confidence := VNum validConfidence;
            notes := or_else parsed_notes (VStr default_notes) |}))))).

(** The fallback on the first brace-delimited block of the raw response;
    [None] when it falls through to the final [return]. *)
Definition parse_fallback (geminiResponse : jstr) : option parsed_response :=
  match match_first re_braces geminiResponse with
  | Some jsonMatch0 =>
    match
      try_catch
        (bind (JSON_parse jsonMatch0) (fun fallbackParsed =>
         bind (prop fallbackParsed k_data) (fun fallback_data =>
         if truthy fallback_data then
           bind (prop fallbackParsed k_confidence) (fun fallback_confidence =>
           Ok (Some {| data := fallback_data;
                       confidence := or_else fallback_confidence (VNum 0.3);
                       notes := VStr fallback_notes |}))
         else Ok None)))
        (fun fallbackError => Ok None)
    with
    | Ok r => r
    | Throw _ => None
    end
  | None => None
  end.

(** The empty structure of the last resort. *)
Definition empty_structure : parsed_response :=
  {| data := VObj (list_to_map (map (fun k => (k, VNull)) extraction_fields));
     confidence := VNum 0.1;
     notes := VStr failure_notes |}.

(** [parseGeminiResponse(geminiResponse)] for a string argument. *)
Definition parseGeminiResponse (geminiResponse : jstr) : outcome parsed_response :=
  try_catch (parse_main geminiResponse) (fun error =>
    match parse_fallback geminiResponse with
    | Some r => Ok r
    | None => Ok empty_structure
    end).

(** ** [refineExtractedDataWithGemini] *)

Definition k_latitude : jstr := Eval vm_compute in js "latitude".
Definition k_longitude : jstr := Eval vm_compute in js "longitude".
Definition k_confidence_score : jstr := Eval vm_compute in js "confidence_score".
Definition k_original_village_name : jstr := Eval vm_compute in js "original_village_name".
Definition k_original_survey_number : jstr := Eval vm_compute in js "original_survey_number".
Definition k_original_notice_date : jstr := Eval vm_compute in js "original_notice_date".
Definition k_original_latitude : jstr := Eval vm_compute in js "original_latitude".
Definition k_original_longitude : jstr := Eval vm_compute in js "original_longitude".
Definition k_refinement_applied : jstr := Eval vm_compute in js "refinement_applied".
Definition k_refinement_confidence : jstr := Eval vm_compute in js "refinement_confidence".
Definition k_refinement_notes : jstr := Eval vm_compute in js "refinement_notes".
Definition k_refinement_time_ms : jstr := Eval vm_compute in js "refinement_time_ms".
Definition k_refinement_error : jstr := Eval vm_compute in js "refinement_error".

(** An object literal [{ ...base, k1: v1, ..., kn: vn }]. *)
Definition with_props (base : obj) (kvs : list (jstr * value)) : obj :=
  foldl (fun o kv => <[kv.1 := kv.2]> o) base kvs.

(** The inner [try]: fence-stripping and [JSON.parse]; a failure is
    re-thrown with the refinement prefix. *)
Definition parse_refinement (text : jstr) : outcome value :=
  try_catch (JSON_parse (strip_fences text)) (fun parseError =>
    Throw ("Refinement response parsing failed: " ++ parseError)).

(** The merge of the refined fields over the original ones. *)
Definition merge_refined (extractedData refinedData : value) (processingTime : float)
    : outcome value :=
  bind (prop extractedData k_village_name) (fun o_village_name =>
  bind (prop extractedData k_survey_number) (fun o_survey_number =>
  bind (prop extractedData k_notice_date) (fun o_notice_date =>
  bind (prop extractedData k_latitude) (fun o_latitude =>
  bind (prop extractedData k_longitude) (fun o_longitude =>
  bind (prop refinedData k_confidence_score) (fun r_confidence_score =>
  bind (prop refinedData k_refinement_notes) (fun r_refinement_notes =>
    Ok (VObj (with_props (merge (spread extractedData) (spread refinedData))
      [ (k_original_village_name, o_village_name);
        (k_original_survey_number, o_survey_number);
        (k_original_notice_date, o_notice_date);
        (k_original_latitude, o_latitude);
        (k_original_longitude, o_longitude);
        (k_refinement_applied, VBool true);
        (k_refinement_confidence, r_confidence_score);
        (k_refinement_notes, r_refinement_notes);
        (k_refinement_time_ms, VNum processingTime) ]))))))))).

(** The [catch] of the whole function: the original data with the error. *)
Definition refinement_failed (extractedData : value) (message : string)
    (elapsed : float) : value :=
  VObj (with_props (spread extractedData)
    [ (k_refinement_applied, VBool false);
      (k_refinement_error, VStr (js message));
      (k_refinement_time_ms, VNum elapsed) ]).

(** [refineExtractedDataWithGemini(extractedData, rawText)].  [api_key]
    tells whether the credential is configured, [generate] is the outcome
    of the call to the AI service (the response text, or the error it
    raised), [elapsed] the measured time.  The prompt reads four fields of
    [extractedData] before the call. *)
Definition refineExtractedDataWithGemini (api_key : bool)
    (generate : outcome jstr) (elapsed : float) (extractedData : value) : value :=
  if negb api_key then extractedData
  else
    match
      bind (prop extractedData k_village_name) (fun _ =>
      bind generate (fun text =>
      bind (parse_refinement text) (fun refinedData =>
      merge_refined extractedData refinedData elapsed)))
    with
    | Ok mergedData => mergedData
    | Throw message => refinement_failed extractedData message elapsed
    end.

(** ** [calculateDistance] and [getPerfectCoordinatesWithGemini] *)

Definition k_success : jstr := Eval vm_compute in js "success".
Definition k_error : jstr := Eval vm_compute in js "error".
Definition k_formatted_address : jstr := Eval vm_compute in js "formatted_address".
Definition k_coordinate_source : jstr := Eval vm_compute in js "coordinate_source".
Definition k_gemini_coordinates : jstr := Eval vm_compute in js "gemini_coordinates".
Definition k_alternative_coordinates : jstr := Eval vm_compute in js "alternative_coordinates".
Definition k_coordinate_distance_km : jstr := Eval vm_compute in js "coordinate_distance_km".
Definition k_processing_time_ms : jstr := Eval vm_compute in js "processing_time_ms".

Section Reconciliation.

(** The runtime's [Math.sin], [Math.cos] and [Math.atan2] (the language
    leaves their results implementation-approximated) and its conversion
    of a value to a string inside a template literal. *)
Variable Math_sin : float -> float.
Variable Math_cos : float -> float.
Variable Math_atan2 : float -> float -> float.
Variable ToString : value -> jstr.

Definition Math_PI : float := 0x1.921fb54442d18p+1%float.

(** Haversine distance in kilometres. *)
Definition calculateDistance (lat1 lon1 lat2 lon2 : float) : float :=
  let R := 6371%float in
  let dLat := ((lat2 - lat1) * Math_PI / 180)%float in
  let dLon := ((lon2 - lon1) * Math_PI / 180)%float in
  let a := (Math_sin (dLat / 2) * Math_sin (dLat / 2) +
            Math_cos (lat1 * Math_PI / 180) * Math_cos (lat2 * Math_PI / 180) *
            Math_sin (dLon / 2) * Math_sin (dLon / 2))%float in
  let c := (2 * Math_atan2 (PrimFloat.sqrt a) (PrimFloat.sqrt (1 - a)))%float in
  (R * c)%float.

Definition str (s : string) : value := VStr (js s).

(** The comparison of the two coordinate sets, once both are there. *)
Definition compare_sources (geminiCoords googleCoords : obj)
    (villageName : jstr) (district : value) (processingTime : float) : value :=
  let distance :=
    calculateDistance
      (to_number (get geminiCoords k_latitude)) (to_number (get geminiCoords k_longitude))
      (to_number (get googleCoords k_latitude)) (to_number (get googleCoords k_longitude)) in
  if PrimFloat.leb distance 10 then
    VObj (with_props ∅
      [ (k_success, VBool true);
        (k_latitude, get googleCoords k_latitude);
        (k_longitude, get googleCoords k_longitude);
        (k_district, or_else (get googleCoords k_district) district);
        (k_taluka, get googleCoords k_taluka);
        (k_formatted_address, get googleCoords k_formatted_address);
        (k_coordinate_source, str "google_maps_verified");
        (k_gemini_coordinates, VObj geminiCoords);
        (k_coordinate_distance_km, VNum distance);
        (k_confidence_score,
         VNum (Math_max
                 (to_number (or_else (get googleCoords k_confidence_score) (VNum 0.8)))
                 (to_number (or_else (get geminiCoords k_confidence_score) (VNum 0.7)))));
        (k_processing_time_ms, VNum processingTime) ])
  else
    let useGoogleMaps :=
      js_gt ToString
            (or_else (get googleCoords k_confidence_score) (VNum 0.8))
            (or_else (get geminiCoords k_confidence_score) (VNum 0.7)) in
    let chosenSource := if useGoogleMaps then googleCoords else geminiCoords in
    VObj (with_props ∅
      [ (k_success, VBool true);
        (k_latitude, get chosenSource k_latitude);
        (k_longitude, get chosenSource k_longitude);
        (k_district, or_else (get chosenSource k_district) district);
        (k_taluka, get chosenSource k_taluka);
        (k_formatted_address,
         or_else (get chosenSource k_formatted_address)
                 (VStr (villageName ++ js ", " ++ ToString district ++ js ", Gujarat")));
        (k_coordinate_source,
         if useGoogleMaps then str "google_maps_high_confidence"
         else str "gemini_high_confidence");
        (k_alternative_coordinates,
         if useGoogleMaps then VObj geminiCoords else VObj googleCoords);
        (k_coordinate_distance_km, VNum distance);
        (k_confidence_score, or_else (get chosenSource k_confidence_score) (VNum 0.7));
        (k_processing_time_ms, VNum processingTime) ]).

(** The result when only the AI estimate is there. *)
Definition gemini_only (coordinateData : obj) (district : value)
    (processingTime : float) : value :=
  VObj (with_props ∅
    [ (k_success, VBool true);
      (k_latitude, get coordinateData k_latitude);
      (k_longitude, get coordinateData k_longitude);
      (k_district, or_else (get coordinateData k_district) district);
      (k_taluka, get coordinateData k_taluka);
      (k_formatted_address,
       VStr (ToString (get coordinateData k_village_name) ++ js ", "
             ++ ToString (get coordinateData k_district) ++ js ", Gujarat"));
      (k_coordinate_source, str "gemini_only");
      (k_confidence_score, or_else (get coordinateData k_confidence_score) (VNum 0.6));
      (k_processing_time_ms, VNum processingTime) ]).

Definition no_coordinates (message : string) (processingTime : float) : value :=
  VObj (with_props ∅
    [ (k_success, VBool false);
      (k_error, str message);
      (k_processing_time_ms, VNum processingTime) ]).

(** [getPerfectCoordinatesWithGemini(villageName, district, rawText)].
    [generate] is the outcome of the AI call, [geocode] the outcome of
    [geocodeVillage(villageName, district)]: the object it returns, or
    the error it throws. *)
Definition getPerfectCoordinatesWithGemini (api_key : bool)
    (generate : outcome jstr) (geocode : outcome value)
    (processingTime : float) (villageName : jstr) (district : value) : value :=
  if negb api_key then
    VObj (with_props ∅
      [ (k_success, VBool false); (k_error, str "Gemini API not available") ])
  else
    match generate with
    | Throw message => no_coordinates message processingTime
    | Ok text =>
      match JSON_parse (strip_fences text) with
      | Throw message =>
        no_coordinates ("Coordinate response parsing failed: " ++ message) processingTime
      | Ok coordinateData =>
        match coordinateData with
        | VObj geminiCoords =>
          if truthy (get geminiCoords k_latitude) && truthy (get geminiCoords k_longitude)
          then
            match geocode with
            | Ok (VObj googleMapsResult) =>
              if truthy (get googleMapsResult k_success)
              then compare_sources geminiCoords googleMapsResult villageName district
                     processingTime
              else gemini_only geminiCoords district processingTime
            | _ => gemini_only geminiCoords district processingTime
            end
          else no_coordinates "Gemini could not provide reliable coordinates" processingTime
        | _ => no_coordinates "Gemini could not provide reliable coordinates" processingTime
        end
      end
    end.

End Reconciliation.

End Gemini.

(* ===================================================================== *)
(** * Dates                                                               *)
(* ===================================================================== *)

Module JsDate.

Local Open Scope Z_scope.

(** A [Date] is its time value, milliseconds since the epoch in UTC;
    [None] is the invalid date.  [tz] is the offset of the process's time
    zone east of UTC, in minutes, taken as constant (India: 330). *)

Definition msPerDay : Z := 86400000.

Definition DayFromYear (y : Z) : Z :=
  365 * (y - 1970) + (y - 1969) / 4 - (y - 1901) / 100 + (y - 1601) / 400.

Definition InLeapYear (y : Z) : bool :=
  if negb (y mod 4 =? 0) then false
  else if negb (y mod 100 =? 0) then true
  else (y mod 400 =? 0).

(** Days before the start of month [m] (0-based) within the year. *)
Definition days_before_month (m : Z) (leap : bool) : Z :=
  let l := if leap then 1 else 0 in
  if m =? 0 then 0 else if m =? 1 then 31 else if m =? 2 then 59 + l
  else if m =? 3 then 90 + l else if m =? 4 then 120 + l
  else if m =? 5 then 151 + l else if m =? 6 then 181 + l
  else if m =? 7 then 212 + l else if m =? 8 then 243 + l
  else if m =? 9 then 273 + l else if m =? 10 then 304 + l
  else 334 + l.

(** The year whose first day is the latest one not after day [d]. *)
Fixpoint year_search (fuel : nat) (d y : Z) : Z :=
  match fuel with
  | O => y
  | S fuel' =>
    if d <? DayFromYear y then year_search fuel' d (y - 1)
    else if DayFromYear (y + 1) <=? d then year_search fuel' d (y + 1)
    else y
  end.

Definition YearFromDay (d : Z) : Z := year_search 1000 d (1970 + d / 365).

Definition MonthFromDay (d : Z) : Z :=
  let y := YearFromDay d in
  let w := d - DayFromYear y in
  let leap := InLeapYear y in
  (fix find (n : nat) (m : Z) : Z :=
     match n with
     | O => m
     | S n' => if days_before_month (m + 1) leap <=? w then find n' (m + 1) else m
     end) 11%nat 0.

Definition DateFromDay (d : Z) : Z :=
  let y := YearFromDay d in
  d - DayFromYear y - days_before_month (MonthFromDay d) (InLeapYear y) + 1.

Definition MakeDay (year month date : Z) : Z :=
  let ym := year + month / 12 in
  let mn := month mod 12 in
  DayFromYear ym + days_before_month mn (InLeapYear ym) + date - 1.

Definition TimeClip (t : Z) : option Z :=
  if 8640000000000000 <? Z.abs t then None else Some t.

(** [new Date(year, month, day)]: local midnight of that civil day.  An
    argument that is [NaN] gives the invalid date; a year from 0 to 99
    counts from 1900. *)
Definition new_Date (tz : Z) (year month day : option Z) : option Z :=
  match year, month, day with
  | Some y, Some m, Some d =>
    let yr := if (0 <=? y) && (y <=? 99) then 1900 + y else y in
    TimeClip (MakeDay yr m d * msPerDay - tz * 60000)
  | _, _, _ => None
  end.

(** Decimal digits of [n], left-padded with zeros to [width]. *)
Fixpoint pad_digits (width : nat) (n : Z) (acc : jstr) : jstr :=
  match width with
  | O => acc
  | S w => pad_digits w (n / 10) (Z.to_N (48 + n mod 10) :: acc)
  end.

(** [toISOString] of a valid date, in UTC. *)
Definition toISOString (t : Z) : jstr :=
  let d := t / msPerDay in
  let ms := t mod msPerDay in
  let y := YearFromDay d in
  let year :=
    if (0 <=? y) && (y <=? 9999) then pad_digits 4 y []
    else (if y <? 0 then 45%N else 43%N) :: pad_digits 6 (Z.abs y) [] in
  year ++ [45%N] ++ pad_digits 2 (MonthFromDay d + 1) [] ++ [45%N]
    ++ pad_digits 2 (DateFromDay d) [] ++ [84%N]
    ++ pad_digits 2 (ms / 3600000) [] ++ [58%N]
    ++ pad_digits 2 (ms / 60000 mod 60) [] ++ [58%N]
    ++ pad_digits 2 (ms / 1000 mod 60) [] ++ [46%N]
    ++ pad_digits 3 (ms mod 1000) [] ++ [90%N].

(** [parseInt(s)]: leading white space, an optional sign, an optional
    [0x] prefix, then the longest run of digits; [None] is [NaN]. *)
Definition parseInt (s : jstr) : option Z :=
  let s0 := trim_start s in
  let '(neg, s1) :=
    match s0 with
    | c :: r => if (c =? 45)%N then (true, r)
                else if (c =? 43)%N then (false, r) else (false, s0)
    | [] => (false, s0)
    end in
  let '(v, n, _) :=
    match s1 with
    | c :: d :: r =>
      if (c =? 48)%N && ((d =? 120) || (d =? 88))%N then take_radix 16 r 0 0
      else take_radix 10 s1 0 0
    | _ => take_radix 10 s1 0 0
    end in
  if n =? 0 then None else Some (if neg then - v else v).

(** [iso.split('T')[0]] *)
Definition before_T (iso : jstr) : jstr :=
  match split_on 84 iso with
  | p :: _ => p
  | [] => []
  end.

End JsDate.
Import JsDate.

(* ===================================================================== *)
(** * firebaseService.js: the persistence adapter                         *)
(* ===================================================================== *)

Module Firebase.

Import Gemini.

(** A document of the [property_notices] collection.  [notice_date] is a
    stored timestamp (its time value) or [null]. *)
Record notice := {
  id : jstr;
  village_name : value;
  survey_number : value;
  buyer_name : value;
  seller_name : value;
  notice_date : option Z;
  advocate_name : value;
  advocate_address : value;
  advocate_mobile : value;
  raw_text : value;
  extracted_data : value;
  confidence_score : value;
  processing_status : value;
  ai_service : value;
  filename : value;
  latitude : value;
  longitude : value;
  district : value;
  taluka : value;
  full_address : value;
  geocoding_status : value;
  uploaded_at : Z;
  updated_at : Z;
  processing_time_ms : value
}.

(** A document of the [processing_logs] collection. *)
Record log_entry := {
  log_id : jstr;
  property_notice_id : jstr;
  processing_step : jstr;
  status : jstr;
  error_message : value;
  log_processing_time_ms : value;
  created_at : Z
}.

(** The two collections.  Notices are keyed by their [id]; log entries by
    the reference the store assigns on [add]. *)
Record db := {
  property_notices : gmap jstr notice;
  processing_logs : gmap N log_entry
}.

Definition empty_db : db := {| property_notices := ∅; processing_logs := ∅ |}.

(** The argument of [savePropertyNotice]. *)
Record save_request := {
  rq_raw_text : value;
  rq_extracted_data : value;
  rq_confidence_score : value;
  rq_processing_time_ms : value;
  rq_processing_status : value;
  rq_ai_service : value;
  rq_filename : value
}.

(** What the read and write operations return: the document, with the
    timestamps rendered as text and the notice date as its ISO day. *)
Record notice_view := {
  doc : notice;
  uploaded_at_iso : jstr;
  updated_at_iso : jstr;
  notice_date_iso : value
}.

(** [x === undefined ? dflt : x], the default of a destructured field. *)
Definition or_default (x : value) (dflt : value) : value :=
  match x with
  | VUndefined => dflt
  | _ => x
  end.

Definition null_if_falsy (x : value) : value := or_else x VNull.

(** A [Date] becomes a stored timestamp; the store refuses an invalid
    date and one outside the years 1 to 9999. *)
Definition storable (t : Z) : bool :=
  ((-62135596800 <=? t / 1000) && (t / 1000 <=? 253402300799))%Z.

(** The conversion of [extracted_data.notice_date] by [split('/')] and
    [parseInt]; [Ok None] is [null]. *)
Definition convert_notice_date (tz : Z) (notice_date : value) : outcome (option Z) :=
  if negb (truthy notice_date) then Ok None
  else
    match notice_date with
    | VStr str =>
      match split_on 47 str with
      | [p0; p1; p2] =>
        let day := parseInt p0 in
        let month := (fun m => m - 1)%Z <$> parseInt p1 in
        let year := parseInt p2 in
        match new_Date tz year month day with
        | Some t =>
          if storable t then Ok (Some t)
          else Throw "Value for argument seconds is out of range"
        | None => Throw "Value for argument seconds is not a valid integer"
        end
      | _ => Ok None
      end
    | _ => Throw "extracted_data.notice_date.split is not a function"
    end.

Definition view (n : notice) : notice_view :=
  {| doc := n;
     uploaded_at_iso := toISOString (uploaded_at n);
     updated_at_iso := toISOString (updated_at n);
     notice_date_iso :=
       match notice_date n with
       | Some t => VStr (before_T (toISOString t))
       | None => VNull
       end |}.

(** The store refuses a document with an [undefined] field; in [docData]
    only [raw_text] can be one, every other field has a default. *)
Definition undefined_field (n : notice) : bool :=
  match raw_text n with
  | VUndefined => true
  | _ => false
  end.

(** [logProcessingStep]: one more entry under a fresh reference.  The two
    optional parameters default to [null]. *)
Definition logProcessingStep (new_log_id : jstr) (now : Z)
    (propertyNoticeId step st : jstr) (errorMessage processingTimeMs : value)
    (d : db) : db :=
  {| property_notices := property_notices d;
     processing_logs :=
       <[fresh (dom (processing_logs d)) :=
           {| log_id := new_log_id;
              property_notice_id := propertyNoticeId;
              processing_step := step;
              status := st;
              error_message := or_default errorMessage VNull;
              log_processing_time_ms := or_default processingTimeMs VNull;
              created_at := now |}]> (processing_logs d) |}.

(** [savePropertyNotice(extractedData)].  [new_id] and [new_log_id] are
    the identifiers drawn by [uuidv4()], [now] the server time. *)
Definition savePropertyNotice (tz : Z) (new_id new_log_id : jstr) (now : Z)
    (rq : save_request) (d : db) : outcome (db * notice_view) :=
  try_catch
    (let extracted := rq_extracted_data rq in
     let field k := bind (prop extracted k) (fun v => Ok (null_if_falsy v)) in
     bind (prop extracted k_notice_date) (fun nd =>
     bind (convert_notice_date tz nd) (fun noticeDate =>
     bind (field k_village_name) (fun f_village_name =>
     bind (field k_survey_number) (fun f_survey_number =>
     bind (field k_buyer_name) (fun f_buyer_name =>
     bind (field k_seller_name) (fun f_seller_name =>
     bind (field k_advocate_name) (fun f_advocate_name =>
     bind (field k_advocate_address) (fun f_advocate_address =>
     bind (field k_advocate_mobile) (fun f_advocate_mobile =>
     bind (field k_latitude) (fun f_latitude =>
     bind (field k_longitude) (fun f_longitude =>
     bind (field k_district) (fun f_district =>
     bind (field k_taluka) (fun f_taluka =>
     bind (field (js "full_address")) (fun f_full_address =>
     bind (prop extracted (js "geocoding_status")) (fun f_geocoding_status =>
       let docData :=
         {| id := new_id;
            village_name := f_village_name;
            survey_number := f_survey_number;
            buyer_name := f_buyer_name;
            seller_name := f_seller_name;
            notice_date := noticeDate;
            advocate_name := f_advocate_name;
            advocate_address := f_advocate_address;
            advocate_mobile := f_advocate_mobile;
            raw_text := rq_raw_text rq;
            extracted_data := extracted;
            confidence_score := null_if_falsy (rq_confidence_score rq);
            processing_status := or_default (rq_processing_status rq) (str "completed");
            ai_service := or_default (rq_ai_service rq) (str "firebase_integration");
            filename := null_if_falsy (rq_filename rq);
            latitude := f_latitude;
            longitude := f_longitude;
            district := f_district;
            taluka := f_taluka;
            full_address := f_full_address;
            geocoding_status := or_else f_geocoding_status (str "pending");
            uploaded_at := now;
            updated_at := now;
            processing_time_ms := null_if_falsy (rq_processing_time_ms rq) |} in
       if undefined_field docData then
         Throw "Cannot use undefined as a Firestore value"
       else
       let d1 :=
         {| property_notices := <[new_id := docData]> (property_notices d);
            processing_logs := processing_logs d |} in
       let d2 :=
         logProcessingStep new_log_id now new_id (js "EXTRACTION_COMPLETED")
           (js "success") VNull (rq_processing_time_ms rq) d1 in
       Ok (d2, view docData)))))))))))))))))
    (fun message => Throw ("Database save failed: " ++ message)).

(** [getPropertyNoticeById(id)]; [None] is [null]. *)
Definition getPropertyNoticeById (i : jstr) (d : db) : option notice_view :=
  view <$> property_notices d !! i.

(** [updatePropertyNoticeLocation(id, locationData)]: [update] fails on a
    document that does not exist. *)
Definition updatePropertyNoticeLocation (now : Z) (i : jstr) (locationData : obj)
    (d : db) : outcome db :=
  match property_notices d !! i with
  | None => Throw "Location update failed: NOT_FOUND"
  | Some n =>
    let n' :=
      {| id := id n;
         village_name := village_name n;
         survey_number := survey_number n;
         buyer_name := buyer_name n;
         seller_name := seller_name n;
         notice_date := notice_date n;
         advocate_name := advocate_name n;
         advocate_address := advocate_address n;
         advocate_mobile := advocate_mobile n;
         raw_text := raw_text n;
         extracted_data := extracted_data n;
         confidence_score := confidence_score n;
         processing_status := processing_status n;
         ai_service := ai_service n;
         filename := filename n;
         latitude := null_if_falsy (get locationData k_latitude);
         longitude := null_if_falsy (get locationData k_longitude);
         district := null_if_falsy (get locationData k_district);
         taluka := null_if_falsy (get locationData k_taluka);
         full_address := null_if_falsy (get locationData k_formatted_address);
         geocoding_status := or_else (get locationData (js "status")) (str "completed");
         uploaded_at := uploaded_at n;
         updated_at := now;
         processing_time_ms := processing_time_ms n |} in
    Ok {| property_notices := <[i := n']> (property_notices d);
          processing_logs := processing_logs d |}
  end.

(** The references of the log entries of a notice: the snapshot of the
    query [where('property_notice_id', '==', id)]. *)
Definition logs_of (i : jstr) (logs : gmap N log_entry) : list N :=
  (map_to_list (filter (fun kv => property_notice_id kv.2 = i) logs)).*1.

(** A write batch of deletions, committed in one step. *)
Definition batch_commit (refs : list N) (logs : gmap N log_entry) : gmap N log_entry :=
  foldr delete logs refs.

(** [deletePropertyNotice(id)] when the store refuses no call: the answer
    and the new state. *)
Definition deletePropertyNotice (i : jstr) (d : db) : bool * db :=
  match property_notices d !! i with
  | None => (false, d)
  | Some _ =>
    let notices := delete i (property_notices d) in
    let batch := logs_of i (processing_logs d) in
    (true, {| property_notices := notices;
              processing_logs := batch_commit batch (processing_logs d) |})
  end.



End Firebase.

(* ===================================================================== *)
(** * server.js: the save and delete routes                               *)
(* ===================================================================== *)

Module Server.

Import Gemini Firebase.

Record response := {
  http_status : Z;
  body : value
}.

Definition json_response (code : Z) (kvs : list (jstr * value)) : response :=
  {| http_status := code; body := VObj (with_props ∅ kvs) |}.

(** The literals of the patterns of the route, as the file holds them.
    They are not the Gujarati words of the other files: the file went
    through a wrong decoding, and what it holds are these units of the
    Latin-1 and Windows-1252 ranges ([à] is 224, [ª] 170, [«] 171).  No
    Gujarati letter is among them. *)
(* àª°à«‡àªµàª¨à«àª¯à« *)
Definition REVENUE_as_written : jstr :=
  [224; 170; 176; 224; 171; 8225; 224; 170; 181; 224; 170; 168; 224; 171;
   224; 170; 175; 224; 171].
(* àª¸àª°à«àªµà«‡ *)
Definition SARVE_as_written : jstr :=
  [224; 170; 184; 224; 170; 176; 224; 171; 224; 170; 181; 224; 171; 8225].
(* àª¨àª‚ *)
Definition NAM_as_written : jstr := [224; 170; 168; 224; 170; 8218].
(* àª¨àª¾ *)
Definition NA_as_written : jstr := [224; 170; 168; 224; 170; 190].
(* àª¨à«€ *)
Definition NI_as_written : jstr := [224; 170; 168; 224; 171; 8364].
(* àª¨à«àª‚ *)
Definition NUM_as_written : jstr := [224; 170; 168; 224; 171; 224; 170; 8218].
(* àª—àª¾àª® *)
Definition GAM_as_written : jstr := [224; 170; 8212; 224; 170; 190; 224; 170; 174].
(* àª®à«‹àªœà«‡ *)
Definition MOJE_as_written : jstr :=
  [224; 170; 174; 224; 171; 8249; 224; 170; 339; 224; 171; 8225].

(** A literal unit under the [i] flag matches every unit with the same
    canonical form.  Of the units above, [à] (224) shares its form with
    [À] (192), and [µ] (181) with [Μ] (924) and [μ] (956); the others have
    no case variant. *)
Definition same_case (c x : N) : bool :=
  (x =? c)
  || (if c =? 224 then x =? 192
      else if c =? 181 then (x =? 924) || (x =? 956)
      else false).

Definition lit_i (s : jstr) : regex := map (fun c => One (same_case c)) s.

(** The first two patterns of the chain, with the flags [gi]; the others
    have no flag. *)
Definition re_revenue_survey_as_written : regex :=
  [Star cls_space] ++ lit_i REVENUE_as_written ++ [Star cls_space]
    ++ lit_i SARVE_as_written ++ [Star cls_space] ++ lit_i NAM_as_written
    ++ [Star cls_dot; Eol].
Definition re_survey_as_written : regex :=
  [Star cls_space] ++ lit_i SARVE_as_written ++ [Star cls_space]
    ++ lit_i NAM_as_written ++ [Star cls_dot; Eol].
Definition re_gam_prefix_as_written : regex :=
  [Bol] ++ lit GAM_as_written ++ plus cls_space.
Definition re_moje_gam_prefix_as_written : regex :=
  [Bol] ++ lit MOJE_as_written ++ plus cls_space ++ lit GAM_as_written
    ++ plus cls_space.

(** The cleaning chain of the save route. *)
Definition clean_for_auto_geocoding (village_name : jstr) : jstr :=
  trim
    (replace re_moje_gam_prefix_as_written []
      (replace re_gam_prefix_as_written []
        (replace (re_suffix NUM_as_written) []
          (replace (re_suffix NI_as_written) []
            (replace (re_suffix NA_as_written) []
              (replace_all re_survey_as_written []
                (replace_all re_revenue_survey_as_written [] village_name))))))).

(** The auto-geocoding side path of the save route, inside its own
    [try]/[catch]: every error is swallowed and the state kept. *)
Definition auto_geocode (now : Z) (geocode : jstr -> value -> outcome value)
    (saved_id : jstr) (extractedData : value) (d : db) : db :=
  match prop extractedData k_village_name with
  | Ok (VStr name) =>
    let villageName := clean_for_auto_geocoding name in
    if (2 <=? length villageName)%nat then
      match geocode villageName
              (or_else (default VUndefined (from_ok (prop extractedData k_district)))
                       (str "Rajkot")) with
      | Ok (VObj locationData) =>
        if truthy (get locationData k_success) then
          match
            updatePropertyNoticeLocation now saved_id
              (with_props ∅
                [ (k_latitude, get locationData k_latitude);
                  (k_longitude, get locationData k_longitude);
                  (k_district,
                   or_else (get locationData k_district)
                           (default VUndefined (from_ok (prop extractedData k_district))));
                  (k_taluka,
                   or_else (get locationData k_taluka)
                           (default VUndefined (from_ok (prop extractedData k_taluka))));
                  (k_formatted_address, get locationData k_formatted_address);
                  (js "status", str "success") ]) d
          with
          | Ok d' => d'
          | Throw _ => d
          end
        else d
      | _ => d
      end
    else d
  | _ => d
  end.

(** The [dataToSave] object of the save route. *)
Definition data_to_save (req_body : obj) : save_request :=
  {| rq_raw_text := get req_body (js "rawText");
     rq_extracted_data := get req_body (js "extractedData");
     rq_confidence_score := get req_body (js "confidenceScore");
     rq_processing_time_ms := get req_body (js "processingTime");
     rq_processing_status := str "completed";
     rq_ai_service :=
       or_else (get req_body (js "aiService")) (str "google_vision_and_gemini");
     rq_filename := get req_body (js "filename") |}.

(** [POST /api/save-notice].  [geocode] stands for [geocodeVillage]: the
    object it returns or the error it throws. *)
Definition save_notice (tz : Z) (new_id new_log_id : jstr) (now now' : Z)
    (geocode : jstr -> value -> outcome value) (req_body : obj) (d : db)
    : response * db :=
  let extractedData := get req_body (js "extractedData") in
  if negb (truthy extractedData) then
    (json_response 400
       [ (k_error, str "Extracted data is required");
         (js "code", str "MISSING_EXTRACTED_DATA") ], d)
  else
    match savePropertyNotice tz new_id new_log_id now (data_to_save req_body) d with
    | Throw message =>
      (json_response 500
         [ (k_error, str "Failed to save property notice");
           (js "message", str message);
           (js "code", str "SAVE_ERROR") ], d)
    | Ok (d1, savedRecord) =>
      let d2 :=
        if truthy (default VUndefined (from_ok (prop extractedData k_village_name)))
        then auto_geocode now' geocode (id (doc savedRecord)) extractedData d1
        else d1 in
      (json_response 200
         [ (k_success, VBool true);
           (js "message", str "Property notice saved to database successfully");
           (k_data,
            VObj (with_props ∅
              [ (js "id", VStr (id (doc savedRecord)));
                (js "extractedData",
                 or_else (extracted_data (doc savedRecord)) extractedData);
                (js "uploadedAt", VStr (uploaded_at_iso savedRecord)) ])) ], d2)
    end.



End Server.

(* ===================================================================== *)
(** * A stand-in for the runtime's [Math] functions                        *)
(* ===================================================================== *)

Module MathStandIn.

(** Truncated series, accurate to many digits on the small angles of the
    concrete runs below (coordinates inside Gujarat); they are used only to
    evaluate examples, never in a general statement. *)

Local Open Scope float_scope.

Definition sin (x : float) : float :=
  let x2 := x * x in
  x * (1 - x2 / 6 * (1 - x2 / 20 * (1 - x2 / 42 * (1 - x2 / 72)))).

Definition cos (x : float) : float :=
  let x2 := x * x in
  1 - x2 / 2 * (1 - x2 / 12 * (1 - x2 / 30 * (1 - x2 / 56 * (1 - x2 / 90)))).

(** Arc tangent of a ratio [|z| <= 1]. *)
Definition atan_small (z : float) : float :=
  let z2 := z * z in
  z * (1 - z2 * (1 / 3 - z2 * (1 / 5 - z2 * (1 / 7 - z2 * (1 / 9))))).

(** [atan2 y x] for [0 <= y] and [0 <= x]. *)
Definition atan2 (y x : float) : float :=
  if PrimFloat.leb y x then atan_small (y / x)
  else Gemini.Math_PI / 2 - atan_small (x / y).

(** The concrete runs put only strings, [null] and [undefined] into a
    template literal. *)
Definition to_string (v : value) : jstr :=
  match v with
  | VStr s => s
  | VNull => js "null"
  | VUndefined => js "undefined"
  | VBool true => js "true"
  | VBool false => js "false"
  | _ => js "[object]"
  end.

End MathStandIn.

(* ===================================================================== *)
(** * Vocabulary of the statements, and sample inputs                     *)
(* ===================================================================== *)

Module Statements.

Import Gemini Firebase Server.

(** The last binding of [k] in the property list of an object literal. *)
Fixpoint last_binding (k : jstr) (kvs : list (jstr * value)) : option value :=
  match kvs with
  | [] => None
  | kv :: r =>
    match last_binding k r with
    | Some w => Some w
    | None => if decide (kv.1 = k) then Some kv.2 else None
    end
  end.

(** [re] matches at no position of [s]. *)
Fixpoint unmatched (re : regex) (bol : bool) (s : jstr) : Prop :=
  match_here re bol s = None /\
  match s with
  | [] => True
  | _ :: s' => unmatched re false s'
  end.

(** Neither boilerplate word occurs in [s]. *)
Definition free_of_boilerplate (s : jstr) : Prop :=
  includes s SARVE = false /\ includes s REVENUE = false.

(** Every white-space unit is a plain space followed by a unit that is
    not white space: no run of spaces, none at the end. *)
Fixpoint single_spaced (s : jstr) : bool :=
  match s with
  | [] => true
  | c :: s' =>
    (if is_space c
     then (c =? 32)%N && match s' with
                         | d :: _ => negb (is_space d)
                         | [] => false
                         end
     else true)
    && single_spaced s'
  end.

(** A name with nothing for the geocoding cleaner to remove. *)
Definition already_clean (s : jstr) : bool :=
  negb (includes s REVENUE) && negb (includes s SARVE)
  && negb (starts_with GAM s)
  && forallb (fun c => negb (cls_num_punct c)) s
  && match s with c :: _ => negb (is_space c) | [] => true end
  && single_spaced s.

(** The properties written by the [catch] of the refinement, and those
    written after the two spreads on success. *)
Definition failure_keys : list jstr :=
  [k_refinement_applied; k_refinement_error; k_refinement_time_ms].

Definition success_keys : list jstr :=
  [k_original_village_name; k_original_survey_number; k_original_notice_date;
   k_original_latitude; k_original_longitude; k_refinement_applied;
   k_refinement_confidence; k_refinement_notes; k_refinement_time_ms].

(** The day part of an ISO rendering. *)
Definition iso_day (d : Z) : jstr :=
  let y := YearFromDay d in
  (if (0 <=? y)%Z && (y <=? 9999)%Z then pad_digits 4 y []
   else (if (y <? 0)%Z then 45%N else 43%N) :: pad_digits 6 (Z.abs y) [])
  ++ [45%N] ++ pad_digits 2 (MonthFromDay d + 1) [] ++ [45%N]
  ++ pad_digits 2 (DateFromDay d) [].

(** ** Sample inputs *)

(** An AI coordinate estimate inside a code fence, and a geocoder result
    half a kilometre away. *)
Definition sample_ai_coordinates : jstr :=
  jq "```json
{'village_name': 'Ribda', 'latitude': 22.30, 'longitude': 70.80, 'confidence_score': 0.9}
```".

Definition sample_geocoder_result : obj :=
  with_props ∅
    [ (k_success, VBool true);
      (k_latitude, VNum 22.3038); (k_longitude, VNum 70.8022);
      (k_formatted_address, str "Ribda, Gujarat, India");
      (js "status", str "success") ].

(** Extraction responses: prose around the JSON object. *)
Definition chatty_response : jstr :=
  jq "Here is the extracted data: {'data': {'village_name': 'રીબડા', 'survey_number': '367'}, 'confidence': 0.9}".

Definition overconfident_response : jstr :=
  jq "Result: {'data': {'village_name': 'રીબડા'}, 'confidence': 1.5}".

Definition refused_response : jstr := js "Sorry, I cannot read this notice.".

(** Village names. *)
Definition noisy_name : jstr := js "ગામ રીબડાના રેવન્યુ સર્વે નં ૩૬૭".
Definition boilerplate_only_name : jstr := js "રેવન્યુ સર્વે નં ૩૬૭".
Definition numbered_name : jstr := js "1. ગામ રીબડા".
Definition two_word_name : jstr := js "નવા રીબડા".

(** An extracted field set, as a record to save and as a request body. *)
Definition sample_extraction : obj :=
  with_props ∅
    [ (k_village_name, str "રીબડા ગામ"); (k_survey_number, str "45/2");
      (k_notice_date, str "15/03/2024") ].

Definition sample_fields : obj :=
  with_props ∅
    [ (k_village_name, str "રીબડા"); (k_survey_number, str "367");
      (k_notice_date, str "18/07/2025") ].

Definition sample_request : save_request :=
  {| rq_raw_text := str "ગામ રીબડાના રેવન્યુ સર્વે નં ૩૬૭ તારીખ:-૧૮-૦૭-૨૦૨૫";
     rq_extracted_data := VObj sample_fields;
     rq_confidence_score := VNum 0.9;
     rq_processing_time_ms := VNum 1200;
     rq_processing_status := str "completed";
     rq_ai_service := str "google_vision_and_gemini";
     rq_filename := str "notice.jpg" |}.

Definition sample_body : obj :=
  with_props ∅
    [ (js "extractedData", VObj sample_fields);
      (js "rawText", rq_raw_text sample_request);
      (js "confidenceScore", VNum 0.9);
      (js "processingTime", VNum 1200);
      (js "filename", str "notice.jpg") ].

Definition sample_id : jstr := js "0b9f6c2e-5a3d-4c1b-9e7a-2f4d8c6b1a90".
Definition sample_log_id : jstr := js "7d1e4a55-93c2-4f0e-b6a8-5c2e9d3f7b14".
(** 2025-07-20T10:00:00Z *)
Definition sample_now : Z := 1753005600000.

(** Save the sample record on a server [tz] minutes east of UTC into an
    empty store, then read its notice date back. *)
Definition read_back_date (tz : Z) : option value :=
  match savePropertyNotice tz sample_id sample_log_id sample_now sample_request empty_db with
  | Ok (d, _) => notice_date_iso <$> getPropertyNoticeById sample_id d
  | Throw _ => None
  end.

(** Two ways for the geocoder to fail. *)
Definition geocoder_unreachable (villageName : jstr) (district : value) : outcome value :=
  Throw "Geocoding failed: fetch failed".

Definition geocoder_finds_nothing (villageName : jstr) (district : value) : outcome value :=
  Ok (VObj (with_props ∅
    [ (k_success, VBool false);
      (k_error, str "No location found for this village");
      (js "status", str "not_found") ])).

Definition geocoder_finds_ribda (villageName : jstr) (district : value) : outcome value :=
  Ok (VObj sample_geocoder_result).

(** Post the sample body to the save route (server in India) and read the
    response status and the stored geocoding status. *)
Definition saved_status (geocode : jstr -> value -> outcome value) : Z * option value :=
  let '(res, d) :=
    save_notice 330 sample_id sample_log_id sample_now (sample_now + 800)%Z
      geocode sample_body empty_db in
  (http_status res,
   (fun v => geocoding_status (doc v)) <$> getPropertyNoticeById sample_id d).

(** Names in which a boilerplate word follows the village name without
    the suffix [ના]: "Ribda survey", "Ribda revenue", "Ribda survey 12". *)
Definition surveyed_name : jstr := js "રીબડા સર્વે".
Definition revenue_name : jstr := js "રીબડા રેવન્યુ".
Definition surveyed_name_12 : jstr := js "રીબડા સર્વે 12".

(** ** Reconciliation: the score of a source, and sample runs *)







End Statements.

(* ===================================================================== *)
(** * scripts/fix-village-names.js: the cleaner of stored names           *)
(* ===================================================================== *)

Module FixScript.

(** [/^મોજે\s*ગામ\s*/gi] *)
Definition re_moje_gam : regex :=
  [Bol] ++ lit MOJE ++ [Star cls_space] ++ lit GAM ++ [Star cls_space].
(** [/ના$/gi], [/ની$/gi], [/નું$/gi] *)
Definition re_ending (w : jstr) : regex := lit w ++ [Eol].

(** The chain of replacements on a string. *)
Definition clean_name (villageName : jstr) : jstr :=
  replace_all Gemini.re_spaces SPACE
    (trim
      (replace_all (re_ending NUM) []
        (replace_all (re_ending NI) []
          (replace_all (re_ending NA) []
            (replace_all re_moje_gam []
              (replace_all Geocoding.re_gam_prefix []
                (replace_all Gemini.re_survey []
                  (replace_all Gemini.re_revenue_survey [] villageName)))))))).

(** [cleanVillageName(villageName)]: a falsy value or one that is not a
    string is returned as it is. *)
Definition cleanVillageName (villageName : value) : value :=
  if negb (truthy villageName) then villageName
  else
    match villageName with
    | VStr s => VStr (clean_name s)
    | _ => villageName
    end.

End FixScript.


(* ===================================================================== *)
(** * middleware/errorHandler.js                                          *)
(* ===================================================================== *)

Module ErrorHandler.

Import Gemini.

(** What the services throw: a plain [Error] with its message, or an
    [AppError(message, statusCode, code)]. *)
Inductive thrown :=
| Error (message : jstr)
| AppError (message : jstr) (statusCode code : value).

Definition message_of (e : thrown) : jstr :=
  match e with
  | Error m => m
  | AppError m _ _ => m
  end.

(** [error instanceof AppError] *)
Definition is_app_error (e : thrown) : bool :=
  match e with
  | Error _ => false
  | AppError _ _ _ => true
  end.

(** A computation that returns or throws. *)
Inductive attempt (A : Type) :=
| Done (a : A)
| Raised (e : thrown).
Arguments Done {A} a.
Arguments Raised {A} e.

Definition and_then {A B} (m : attempt A) (k : A -> attempt B) : attempt B :=
  match m with
  | Done a => k a
  | Raised e => Raised e
  end.

(** An error raised by the runtime itself is a plain [Error]. *)
Definition lift {A} (m : outcome A) : attempt A :=
  match m with
  | Ok a => Done a
  | Throw message => Raised (Error (js message))
  end.

(** The properties that the handler reads on a thrown object. *)
Definition k_statusCode : jstr := Eval vm_compute in js "statusCode".
Definition k_message : jstr := Eval vm_compute in js "message".
Definition k_code : jstr := Eval vm_compute in js "code".
Definition k_name : jstr := Eval vm_compute in js "name".
Definition k_isOperational : jstr := Eval vm_compute in js "isOperational".

Definition error_object (e : thrown) : obj :=
  match e with
  | Error m => with_props ∅ [ (k_message, VStr m); (k_name, str "Error") ]
  | AppError m sc c =>
    with_props ∅
      [ (k_message, VStr m); (k_name, str "Error"); (k_statusCode, sc); (k_code, c);
        (k_isOperational, VBool true) ]
  end.

(** [v === 'literal'] and [v === 7] *)
Definition is_string (v : value) (s : jstr) : bool :=
  match v with
  | VStr t => bool_decide (t = s)
  | _ => false
  end.

Definition is_number (v : value) (f : float) : bool :=
  match v with
  | VNum g => PrimFloat.eqb g f
  | _ => false
  end.

(** What the handler sends: [res.status(status).json(body)]. *)
Record reply := {
  reply_status : value;
  reply_body : value
}.

(** The three variables [statusCode], [message], [code] of the handler. *)
Record verdict := {
  v_status : value;
  v_message : value;
  v_code : value
}.

Definition override (cond : bool) (sc : float) (m c : string) (v : verdict) : verdict :=
  if cond then {| v_status := VNum sc; v_message := str m; v_code := str c |} else v.

(** [errorHandler(err, req, res, next)] *)
Definition errorHandler (err : obj) : reply :=
  let v0 :=
    {| v_status :=
         match get err k_statusCode with
         | VUndefined => VNum 500
         | sc => sc
         end;
       v_message := get err k_message;
       v_code := get err k_code |} in
  let v1 :=
    override (is_number (get err k_code) 7) 403
      "Permission denied. Check Firebase configuration." "FIREBASE_PERMISSION_DENIED" v0 in
  let v2 :=
    override (is_string (get err k_code) (js "LIMIT_FILE_SIZE")) 413
      "File too large" "FILE_TOO_LARGE" v1 in
  let v3 :=
    override (is_string (get err k_code) (js "LIMIT_UNEXPECTED_FILE")) 400
      "Unexpected file field" "UNEXPECTED_FILE" v2 in
  let v4 :=
    override (is_string (get err k_name) (js "ValidationError")) 400
      "Validation failed" "VALIDATION_ERROR" v3 in
  let v5 :=
    override (is_string (get err k_code) (js "MULTER_ERROR")) 400
      "File upload error" "FILE_UPLOAD_ERROR" v4 in
  if truthy (get err k_isOperational) then
    {| reply_status := v_status v5;
       reply_body :=
         VObj (with_props ∅
           [ (k_error, v_message v5);
             (k_code, or_else (v_code v5) (str "OPERATIONAL_ERROR")) ]) |}
  else
    {| reply_status := VNum 500;
       reply_body :=
         VObj (with_props ∅
           [ (k_error, str "Something went wrong");
             (k_code, str "INTERNAL_SERVER_ERROR") ]) |}.

End ErrorHandler.


(* ===================================================================== *)
(** * geocodingService.js: the geocoder                                   *)
(* ===================================================================== *)

Module GeocodingService.

Import Gemini ErrorHandler.

Definition k_types : jstr := Eval vm_compute in js "types".
Definition k_long_name : jstr := Eval vm_compute in js "long_name".
Definition k_state : jstr := Eval vm_compute in js "state".
Definition k_country : jstr := Eval vm_compute in js "country".

(** [types.includes(name)] for a string [name]: membership in an array, a
    substring test on a string; any other value has no [includes]. *)
Definition includes_name (types : value) (name : jstr) : outcome bool :=
  match types with
  | VArr l => Ok (existsb (fun t => is_string t name) l)
  | VStr s => Ok (includes s name)
  | VUndefined => Throw "Cannot read properties of undefined"
  | VNull => Throw "Cannot read properties of null"
  | _ => Throw "types.includes is not a function"
  end.

(** The body of the [forEach] callback: the first test that succeeds
    decides which field of [parsed] is overwritten. *)
Definition classify (parsed : obj) (component : value) : outcome obj :=
  bind (prop component k_types) (fun types =>
  bind (includes_name types (js "administrative_area_level_2")) (fun is_district =>
  if is_district then
    bind (prop component k_long_name) (fun n => Ok (<[k_district := n]> parsed))
  else
  bind (includes_name types (js "administrative_area_level_3")) (fun is_taluka =>
  if is_taluka then
    bind (prop component k_long_name) (fun n => Ok (<[k_taluka := n]> parsed))
  else
  bind (includes_name types (js "administrative_area_level_1")) (fun is_state =>
  if is_state then
    bind (prop component k_long_name) (fun n => Ok (<[k_state := n]> parsed))
  else
  bind (includes_name types (js "country")) (fun is_country =>
  if is_country then
    bind (prop component k_long_name) (fun n => Ok (<[k_country := n]> parsed))
  else Ok parsed))))).

Definition no_address : obj :=
  with_props ∅
    [ (k_district, VNull); (k_taluka, VNull); (k_state, VNull); (k_country, VNull) ].

(** [parseAddressComponents(addressComponents)] *)
Definition parseAddressComponents (addressComponents : value) : outcome value :=
  match addressComponents with
  | VArr components =>
    bind (foldl (fun acc component => bind acc (fun parsed => classify parsed component))
                (Ok no_address) components)
         (fun parsed => Ok (VObj parsed))
  | VUndefined => Throw "Cannot read properties of undefined"
  | VNull => Throw "Cannot read properties of null"
  | _ => Throw "addressComponents.forEach is not a function"
  end.

(** [v[0]] *)
Definition first_element (v : value) : outcome value :=
  match v with
  | VArr l => Ok (default VUndefined (head l))
  | VStr s => Ok (match s with c :: _ => VStr [c] | [] => VUndefined end)
  | VObj o => Ok (get o (js "0"))
  | VUndefined => Throw "Cannot read properties of undefined"
  | VNull => Throw "Cannot read properties of null"
  | _ => Ok VUndefined
  end.

(** What [fetch] resolves to, as far as the geocoder looks at it. *)
Record http_response := {
  resp_ok : bool;
  resp_status : value;
  resp_statusText : value;
  resp_json : attempt value
}.

Definition k_status : jstr := Eval vm_compute in js "status".
Definition k_search_query : jstr := Eval vm_compute in js "search_query".
Definition k_results : jstr := Eval vm_compute in js "results".
Definition k_geometry : jstr := Eval vm_compute in js "geometry".
Definition k_location : jstr := Eval vm_compute in js "location".
Definition k_lat : jstr := Eval vm_compute in js "lat".
Definition k_lng : jstr := Eval vm_compute in js "lng".
Definition k_address_components : jstr := Eval vm_compute in js "address_components".
Definition k_place_id : jstr := Eval vm_compute in js "place_id".
Definition k_location_type : jstr := Eval vm_compute in js "location_type".
Definition k_error_message : jstr := Eval vm_compute in js "error_message".

Section Geocoder.

(** The conversion of a value to a string inside a template literal, and
    the request: [fetch] is given the search query, from which the URL is
    built ([encodeURIComponent] raises on a lone surrogate). *)
Variable ToString : value -> jstr.
Variable fetch : jstr -> attempt http_response.

(** The search query: the cleaned name, the district when there is one,
    the state. *)
Definition search_query (cleanVillageName : jstr) (district state : value) : jstr :=
  let q := if truthy district then cleanVillageName ++ js ", " ++ ToString district
           else cleanVillageName in
  q ++ js ", " ++ ToString state.

(** The [try] block of [geocodeVillage]. *)
Definition geocode_body (api_key : bool) (villageName district state : value)
    : attempt value :=
  if negb api_key then
    Raised (AppError
      (js "Google Maps API key not configured. Please set GOOGLE_MAPS_API_KEY in your .env file")
      (VNum 500) (str "GOOGLE_MAPS_API_KEY_MISSING"))
  else
    and_then (lift (Geocoding.cleanVillageNameForGeocoding villageName)) (fun cleaned =>
    let searchQuery :=
      search_query (match cleaned with VStr s => s | _ => [] end) district state in
    and_then (fetch searchQuery) (fun response =>
    if negb (resp_ok response) then
      Raised (AppError
        (js "Google Maps API request failed: " ++ ToString (resp_status response)
           ++ js " " ++ ToString (resp_statusText response))
        (resp_status response) (str "GOOGLE_MAPS_API_ERROR"))
    else
      and_then (resp_json response) (fun data =>
      and_then (lift (prop data k_status)) (fun data_status =>
      if is_string data_status (js "ZERO_RESULTS") then
        Done (VObj (with_props ∅
          [ (k_success, VBool false);
            (k_error, str "No location found for this village");
            (k_status, str "not_found");
            (k_search_query, VStr searchQuery) ]))
      else if negb (is_string data_status (js "OK")) then
        and_then (lift (prop data k_error_message)) (fun error_message =>
        Raised (AppError
          (js "Google Maps API error: " ++ ToString data_status ++ js " - "
             ++ ToString (or_else error_message (str "Unknown error")))
          (VNum 400) (str "GOOGLE_MAPS_API_ERROR")))
      else
        and_then (lift (bind (prop data k_results) first_element)) (fun result =>
        and_then (lift (bind (prop result k_geometry) (fun g => prop g k_location)))
          (fun location =>
        and_then (lift (prop result k_address_components)) (fun addressComponents =>
        and_then (lift (parseAddressComponents addressComponents)) (fun parsedAddress =>
        and_then (lift (prop location k_lat)) (fun lat =>
        and_then (lift (prop location k_lng)) (fun lng =>
        and_then (lift (prop result k_formatted_address)) (fun formatted_address =>
        and_then (lift (prop result k_place_id)) (fun place_id =>
        and_then (lift (bind (prop result k_geometry) (fun g => prop g k_location_type)))
          (fun location_type =>
        Done (VObj (with_props ∅
          [ (k_success, VBool true);
            (k_latitude, lat);
            (k_longitude, lng);
            (k_formatted_address, formatted_address);
            (k_district, default VUndefined (from_ok (prop parsedAddress k_district)));
            (k_taluka, default VUndefined (from_ok (prop parsedAddress k_taluka)));
            (k_state, default VUndefined (from_ok (prop parsedAddress k_state)));
            (k_country, default VUndefined (from_ok (prop parsedAddress k_country)));
            (k_place_id, place_id);
            (k_location_type, location_type);
            (k_search_query, VStr searchQuery);
            (k_status, str "success") ]))))))))))))))).

(** [geocodeVillage(villageName, district, state)]: an [AppError] passes
    through the [catch], any other error is wrapped.  The parameters
    default to [null] and to ['Gujarat, India']. *)
Definition geocodeVillage (api_key : bool) (villageName district state : value)
    : attempt value :=
  match
    geocode_body api_key villageName
      (Firebase.or_default district VNull)
      (Firebase.or_default state (str "Gujarat, India"))
  with
  | Done result => Done result
  | Raised e =>
    if is_app_error e then Raised e
    else Raised (AppError (js "Geocoding failed: " ++ message_of e) (VNum 500)
                   (str "GEOCODING_ERROR"))
  end.

End Geocoder.

(** [geocodeVillagesBatch(villages)], given the geocoder as a function of
    the name and the district: one entry per village, in order.  The
    [catch] of an entry reads [village.name] again for its log line. *)
Definition k_name : jstr := Eval vm_compute in js "name".
Definition k_geocoding : jstr := Eval vm_compute in js "geocoding".

Definition batch_entry (geocode : value -> value -> attempt value) (village : value)
    : attempt value :=
  match
    and_then (lift (prop village k_name)) (fun name =>
    and_then (lift (prop village k_district)) (fun district =>
    and_then (geocode name district) (fun result =>
    Done (VObj (<[k_geocoding := result]> (spread village))))))
  with
  | Done entry => Done entry
  | Raised error =>
    and_then (lift (prop village k_name)) (fun _ =>
    Done (VObj (<[k_geocoding :=
                    VObj (with_props ∅
                      [ (k_success, VBool false);
                        (k_error, VStr (message_of error));
                        (k_status, str "error") ])]> (spread village))))
  end.

Fixpoint geocodeVillagesBatch (geocode : value -> value -> attempt value)
    (villages : list value) : attempt (list value) :=
  match villages with
  | [] => Done []
  | village :: rest =>
    and_then (batch_entry geocode village) (fun entry =>
    and_then (geocodeVillagesBatch geocode rest) (fun entries =>
    Done (entry :: entries)))
  end.

End GeocodingService.


(* ===================================================================== *)
(** * geminiService.js: the extraction call                               *)
(* ===================================================================== *)

Module GeminiPipeline.

Import Gemini ErrorHandler.

Definition k_raw_text : jstr := Eval vm_compute in js "raw_text".
Definition k_extracted_data : jstr := Eval vm_compute in js "extracted_data".
Definition k_processing_status : jstr := Eval vm_compute in js "processing_status".
Definition k_ai_service : jstr := Eval vm_compute in js "ai_service".
Definition k_gemini_response : jstr := Eval vm_compute in js "gemini_response".

(** The [try] block of [processWithGemini(rawText)].  [generate] is the
    outcome of the call to the AI service on the extraction prompt: the
    response text, or what the call threw. *)
Definition extraction_body (api_key : bool) (generate : attempt jstr)
    (processingTime : float) (rawText : jstr) : attempt value :=
  if negb api_key then
    Raised (AppError
      (js "Gemini API key not configured. Please set GEMINI_API_KEY in your .env file")
      (VNum 500) (str "GEMINI_API_KEY_MISSING"))
  else
    and_then generate (fun text =>
    and_then (lift (parseGeminiResponse text)) (fun extractedData =>
    Done (VObj (with_props ∅
      [ (k_raw_text, VStr rawText);
        (k_extracted_data, data extractedData);
        (k_confidence_score, confidence extractedData);
        (k_processing_time_ms, VNum processingTime);
        (k_processing_status, str "completed_gemini");
        (k_ai_service, str "google-gemini-1.5-flash");
        (k_gemini_response, VStr text) ])))).

(** The [catch] block: three kinds of message are recognised first, an
    [AppError] passes, anything else is wrapped. *)
Definition classify_failure (error : thrown) : thrown :=
  if includes (message_of error) (js "API_KEY_INVALID") then
    AppError (js "Invalid Gemini API key. Please check your GEMINI_API_KEY")
      (VNum 403) (str "GEMINI_API_KEY_INVALID")
  else if includes (message_of error) (js "QUOTA_EXCEEDED") then
    AppError (js "Gemini API quota exceeded. Please check your billing")
      (VNum 429) (str "GEMINI_QUOTA_EXCEEDED")
  else if includes (message_of error) (js "SAFETY") then
    AppError (js "Content blocked by Gemini safety filters")
      (VNum 400) (str "GEMINI_SAFETY_BLOCK")
  else if is_app_error error then error
  else
    AppError (js "Gemini AI processing failed: " ++ message_of error)
      (VNum 500) (str "GEMINI_PROCESSING_ERROR").

(** [processWithGemini(rawText)] *)
Definition processWithGemini (api_key : bool) (generate : attempt jstr)
    (processingTime : float) (rawText : jstr) : attempt value :=
  match extraction_body api_key generate processingTime rawText with
  | Done result => Done result
  | Raised error => Raised (classify_failure error)
  end.

End GeminiPipeline.


(* ===================================================================== *)
(** * The geocoding queue: [getVillagesNeedingGeocoding] and its route    *)
(* ===================================================================== *)

Module Queue.

Import Gemini Firebase Server ErrorHandler.

(** An element of the array returned by [getVillagesNeedingGeocoding]. *)
Record village := {
  v_id : jstr;
  v_village_name : value;
  v_district : value
}.

(** The query: [village_name != null], which a document with a [null]
    name does not satisfy, and [geocoding_status in ['pending', 'failed']]. *)
Definition queued (n : notice) : bool :=
  negb (match village_name n with VNull => true | _ => false end)
  && (is_string (geocoding_status n) (js "pending")
      || is_string (geocoding_status n) (js "failed")).

(** The test inside [snapshot.forEach]. *)
Definition lacks_location (n : notice) : bool :=
  truthy (village_name n) && (negb (truthy (latitude n)) || negb (truthy (longitude n))).

(** [getVillagesNeedingGeocoding()].  The snapshot is taken in the order
    of the store. *)
Definition getVillagesNeedingGeocoding (d : db) : list village :=
  (fun kv : jstr * notice =>
     {| v_id := kv.1; v_village_name := village_name kv.2; v_district := Firebase.district kv.2 |})
  <$> map_to_list (filter (fun kv => queued kv.2 && lacks_location kv.2) (property_notices d)).

(** The argument [locationData] of [updatePropertyNoticeLocation] as the
    object whose properties are read; reading them on [null] or
    [undefined] raises inside the update. *)
Definition location_data (geocodingResult : value) : outcome obj :=
  match geocodingResult with
  | VObj o => Ok o
  | VUndefined => Throw "Location update failed: Cannot read properties of undefined"
  | VNull => Throw "Location update failed: Cannot read properties of null"
  | _ => Ok ∅
  end.

Definition k_id : jstr := Eval vm_compute in js "id".
Definition k_coordinates : jstr := Eval vm_compute in js "coordinates".
Definition k_results : jstr := Eval vm_compute in js "results".

(** One turn of the loop of [POST /api/geocode/existing]: the new state
    and the entry pushed to [results].  [clock i] is the server time when
    the record [i] is updated.  [geocode] stands for [geocodeVillage] as a
    function of its two arguments: within a run, two records with the same
    name and district get the same answer. *)
Definition geocode_one (clock : jstr -> Z) (geocode : value -> value -> attempt value)
    (v : village) (d : db) : db * value :=
  let failure (message : jstr) :=
    VObj (with_props ∅
      [ (k_id, VStr (v_id v)); (k_village_name, v_village_name v);
        (k_success, VBool false); (k_error, VStr message) ]) in
  match geocode (v_village_name v) (v_district v) with
  | Raised e => (d, failure (message_of e))
  | Done geocodingResult =>
    match bind (location_data geocodingResult)
               (fun o => updatePropertyNoticeLocation (clock (v_id v)) (v_id v) o d) with
    | Throw message => (d, failure (js message))
    | Ok d' =>
      let success := default VUndefined (from_ok (prop geocodingResult k_success)) in
      (d', VObj (with_props ∅
             [ (k_id, VStr (v_id v)); (k_village_name, v_village_name v);
               (k_success, success);
               (k_coordinates,
                if truthy success then
                  VObj (with_props ∅
                    [ (js "lat", default VUndefined (from_ok (prop geocodingResult k_latitude)));
                      (js "lng", default VUndefined (from_ok (prop geocodingResult k_longitude))) ])
                else VNull) ]))
    end
  end.

Fixpoint geocode_all (clock : jstr -> Z) (geocode : value -> value -> attempt value)
    (villages : list village) (d : db) : db * list value :=
  match villages with
  | [] => (d, [])
  | v :: rest =>
    let '(d1, entry) := geocode_one clock geocode v d in
    let '(d2, entries) := geocode_all clock geocode rest d1 in
    (d2, entry :: entries)
  end.

(** [POST /api/geocode/existing] *)
Definition geocode_existing (clock : jstr -> Z) (geocode : value -> value -> attempt value)
    (d : db) : response * db :=
  let villages := getVillagesNeedingGeocoding d in
  let '(d', results) := geocode_all clock geocode villages d in
  (json_response 200
     [ (k_success, VBool true);
       (k_message, VStr (js "Processed " ++ index_key (length villages) ++ js " villages"));
       (k_results, VArr results) ], d').

End Queue.


(* ===================================================================== *)
(** * server.js: the text-processing route                                *)
(* ===================================================================== *)

Module TextRoute.

Import Gemini Firebase Server ErrorHandler GeminiPipeline.

Definition k_text : jstr := Eval vm_compute in js "text".
Definition k_database_id : jstr := Eval vm_compute in js "database_id".
Definition k_saved_to_database : jstr := Eval vm_compute in js "saved_to_database".
Definition k_database_error : jstr := Eval vm_compute in js "database_error".

(** [error.code] of what was thrown. *)
Definition code_of (e : thrown) : value :=
  match e with
  | Error _ => VUndefined
  | AppError _ _ c => c
  end.

(** The argument of [savePropertyNotice] built from [results]. *)
Definition record_of_results (results : obj) : save_request :=
  {| rq_raw_text := get results k_raw_text;
     rq_extracted_data := get results k_extracted_data;
     rq_confidence_score := get results k_confidence_score;
     rq_processing_time_ms := get results k_processing_time_ms;
     rq_processing_status := get results k_processing_status;
     rq_ai_service := get results k_ai_service;
     rq_filename := str "raw_text_input" |}.

(** [POST /api/process-text-with-gemini].  The store failing is caught:
    the answer is still a success and says whether the record was saved. *)
Definition process_text_with_gemini (tz : Z) (new_id new_log_id : jstr) (now : Z)
    (api_key : bool) (generate : attempt jstr) (processingTime : float)
    (req_body : obj) (d : db) : response * db :=
  match get req_body k_text with
  | VStr (c :: text') =>
    let text := c :: text' in
    match processWithGemini api_key generate processingTime text with
    | Raised error =>
      (json_response 500
         [ (k_success, VBool false);
           (k_error, VStr (message_of error));
           (ErrorHandler.k_code,
            or_else (code_of error) (str "GEMINI_TEXT_PROCESSING_ERROR")) ], d)
    | Done results =>
      let '(results', d') :=
        match savePropertyNotice tz new_id new_log_id now
                (record_of_results (spread results)) d with
        | Ok (d1, savedRecord) =>
          (with_props (spread results)
             [ (k_database_id, VStr (id (doc savedRecord)));
               (k_saved_to_database, VBool true) ], d1)
        | Throw message =>
          (with_props (spread results)
             [ (k_saved_to_database, VBool false);
               (k_database_error, VStr (js message)) ], d)
        end in
      (json_response 200
         [ (k_success, VBool true);
           (ErrorHandler.k_message, str "Text processed successfully with Gemini AI");
           (k_data, VObj results') ], d')
    end
  | _ =>
    (json_response 400
       [ (k_error,
          VStr (jq "No text provided. Please send text in request body as {'text': 'your text here'}")) ],
     d)
  end.

End TextRoute.

(* ===================================================================== *)
(** * Vocabulary of the statements, continued                             *)
(* ===================================================================== *)

Module TextStatements.

(** The length of the longest prefix of [s] inside the class. *)
Fixpoint run (cls : N -> bool) (s : jstr) : nat :=
  match s with
  | x :: s' => if cls x then S (run cls s') else 0%nat
  | [] => 0%nat
  end.

(** [s] with every maximal run of units of the class replaced by [rep];
    [in_run] says that the unit before [s] was of the class. *)
Fixpoint squeeze (cls : N -> bool) (rep : jstr) (in_run : bool) (s : jstr) : jstr :=
  match s with
  | [] => []
  | x :: s' =>
    if cls x then (if in_run then squeeze cls rep true s' else rep ++ squeeze cls rep true s')
    else x :: squeeze cls rep false s'
  end.

(** Every white-space unit is a plain space followed by a unit that is
    not white space, or the last unit. *)
Fixpoint spaced_ok (s : jstr) : bool :=
  match s with
  | [] => true
  | c :: s' =>
    (if is_space c
     then (c =? 32)%N && match s' with
                         | d :: _ => negb (is_space d)
                         | [] => true
                         end
     else true)
    && spaced_ok s'
  end.

(** [s] does not begin with white space. *)
Definition head_not_space (s : jstr) : bool :=
  match s with c :: _ => negb (is_space c) | [] => true end.

(** No back-tick in [s]. *)
Definition no_backtick (s : jstr) : bool := forallb (fun c => negb (c =? 96)%N) s.

(** A match found [k] units further on. *)
Definition shift (k : nat) (m : option (nat * nat)) : option (nat * nat) :=
  match m with
  | Some (i, n) => Some ((k + i)%nat, n)
  | None => None
  end.

(** Neither [à] nor [À] occurs in [s]; so it is for every text in
    Gujarati script. *)
Definition no_a_grave (s : jstr) : bool :=
  forallb (fun c => negb ((c =? 224) || (c =? 192))) s.

(** A pattern that matches at the head of no text without [à] and [À]. *)
Definition stuck (re : regex) : Prop :=
  forall bol t, no_a_grave t = true -> match_here re bol t = None.

End TextStatements.

Module DateStatements.

Local Open Scope Z_scope.

(** The day [d] since the epoch lies in the year [y]. *)
Definition year_of (d y : Z) : Prop := DayFromYear y <= d < DayFromYear (y + 1).

(** Days of the month [m], counted from 0. *)
Definition month_length (leap : bool) (m : Z) : Z :=
  if m =? 1 then (if leap then 29 else 28)
  else if (m =? 3) || (m =? 5) || (m =? 8) || (m =? 10) then 30
  else 31.

(** [YYYY-MM-DD] *)
Definition iso_date (y m d : Z) : jstr :=
  pad_digits 4 y [] ++ [45%N] ++ pad_digits 2 m [] ++ [45%N] ++ pad_digits 2 d [].

(** A day of the calendar in a year written with three or four digits;
    [m] is counted from 1. *)
Definition valid_date (y m d : Z) : Prop :=
  100 <= y <= 9999 /\ 1 <= m <= 12 /\ 1 <= d <= month_length (InLeapYear y) (m - 1).

End DateStatements.

Module AddressStatements.
Import Gemini ErrorHandler GeocodingService.

(** [types.includes(name)] on a component whose [types] is an array or a
    string. *)
Definition has_type (component : obj) (name : jstr) : bool :=
  match get component k_types with
  | VArr l => existsb (fun t => is_string t name) l
  | VStr s => includes s name
  | _ => false
  end.

Definition typed (component : obj) : bool :=
  match get component k_types with
  | VArr _ | VStr _ => true
  | _ => false
  end.

(** The field that a component sets, if any. *)
Definition field_of (component : obj) : option jstr :=
  if has_type component (js "administrative_area_level_2") then Some k_district
  else if has_type component (js "administrative_area_level_3") then Some k_taluka
  else if has_type component (js "administrative_area_level_1") then Some k_state
  else if has_type component (js "country") then Some k_country
  else None.

(** The last component of the list that sets [field]. *)
Definition last_setting (field : jstr) (components : list obj) : option obj :=
  find (fun c => bool_decide (field_of c = Some field)) (rev components).

End AddressStatements.

Module HandlerStatements.
Import Gemini ErrorHandler.

Definition internal_error : reply :=
  {| reply_status := VNum 500;
     reply_body :=
       VObj (with_props ∅
         [ (k_error, str "Something went wrong");
           (k_code, str "INTERNAL_SERVER_ERROR") ]) |}.

(** A code that the handler does not treat specially. *)
Definition ordinary_code (c : value) : bool :=
  negb (is_number c 7)
  && negb (is_string c (js "LIMIT_FILE_SIZE"))
  && negb (is_string c (js "LIMIT_UNEXPECTED_FILE"))
  && negb (is_string c (js "MULTER_ERROR")).

End HandlerStatements.

Module QueueStatements.
Import Gemini Firebase Server ErrorHandler Queue.

(** What a run of the route leaves under [i], where the store [d] holds
    the queued record [n]: the record written by the location update when
    the geocoder returned and the update went through, [n] otherwise. *)
Definition after_geocoding (clock : jstr -> Z) (geocode : value -> value -> attempt value)
    (d : db) (i : jstr) (n : notice) : option notice :=
  match geocode (village_name n) (Firebase.district n) with
  | Done geocodingResult =>
    match bind (location_data geocodingResult)
               (fun o => updatePropertyNoticeLocation (clock i) i o d) with
    | Ok d1 => property_notices d1 !! i
    | Throw _ => Some n
    end
  | Raised _ => Some n
  end.

End QueueStatements.

Module CoordinateStatements.
Import Gemini.

(** The geocoder did not confirm: it threw, or what it returned has no
    truthy [success]. *)
Definition unconfirmed (geocode : outcome value) : bool :=
  match geocode with
  | Ok (VObj g) => negb (truthy (get g k_success))
  | _ => true
  end.

End CoordinateStatements.

(* ===================================================================== *)
(** * Sample inputs, continued                                            *)
(* ===================================================================== *)

Module Samples.

Import Gemini Firebase Server Statements ErrorHandler GeocodingService.

(** The document written when [sample_request] is saved under
    [sample_id] at [sample_now] on a server in India, and the store that
    holds it and its log entry. *)
Definition sample_doc : notice :=
  {| id := sample_id;
     village_name := str "રીબડા";
     survey_number := str "367";
     buyer_name := VNull;
     seller_name := VNull;
     notice_date := Some 1752777000000%Z;
     advocate_name := VNull;
     advocate_address := VNull;
     advocate_mobile := VNull;
     raw_text := rq_raw_text sample_request;
     extracted_data := VObj sample_fields;
     confidence_score := VNum 0.9;
     processing_status := str "completed";
     ai_service := str "google_vision_and_gemini";
     filename := str "notice.jpg";
     latitude := VNull;
     longitude := VNull;
     district := VNull;
     taluka := VNull;
     full_address := VNull;
     geocoding_status := str "pending";
     uploaded_at := sample_now;
     updated_at := sample_now;
     processing_time_ms := VNum 1200 |}.

Definition sample_log : log_entry :=
  {| log_id := sample_log_id;
     property_notice_id := sample_id;
     processing_step := js "EXTRACTION_COMPLETED";
     status := js "success";
     error_message := VNull;
     log_processing_time_ms := VNum 1200;
     created_at := sample_now |}.

Definition sample_store : db :=
  {| property_notices := {[ sample_id := sample_doc ]};
     processing_logs := {[ 0%N := sample_log ]} |}.

(** An answer of the Google geocoder for Ribda. *)
Definition sample_components : list obj :=
  [ with_props ∅
      [ (k_long_name, str "Ribda");
        (k_types, VArr [str "locality"; str "political"]) ];
    with_props ∅
      [ (k_long_name, str "Rajkot");
        (k_types, VArr [str "administrative_area_level_2"; str "political"]) ];
    with_props ∅
      [ (k_long_name, str "Gujarat");
        (k_types, VArr [str "administrative_area_level_1"; str "political"]) ];
    with_props ∅
      [ (k_long_name, str "India");
        (k_types, VArr [str "country"; str "political"]) ] ].

Definition sample_answer : value :=
  VObj (with_props ∅
    [ (GeocodingService.k_status, str "OK");
      (GeocodingService.k_results,
       VArr [ VObj (with_props ∅
         [ (k_formatted_address, str "Ribda, Gujarat 360311, India");
           (k_place_id, str "ChIJRibda");
           (k_address_components, VArr (VObj <$> sample_components));
           (k_geometry,
            VObj (with_props ∅
              [ (k_location,
                 VObj (with_props ∅ [ (k_lat, VNum 22.3038); (k_lng, VNum 70.8022) ]));
                (k_location_type, str "APPROXIMATE") ])) ]) ]) ]).

Definition sample_fetch (searchQuery : jstr) : attempt http_response :=
  Done {| resp_ok := true;
          resp_status := VNum 200;
          resp_statusText := str "OK";
          resp_json := Done sample_answer |}.

(** [geocodeVillage] with that answer behind it. *)
Definition sample_geocoder (villageName district : value) : attempt value :=
  geocodeVillage MathStandIn.to_string sample_fetch true villageName district VUndefined.

(** What it returns for Ribda in the district of Rajkot. *)
Definition sample_geocoding : value :=
  match sample_geocoder (str "રીબડા") (str "Rajkot") with
  | Done result => result
  | Raised _ => VUndefined
  end.

(** The geocoder of a server without an API key. *)
Definition keyless_geocoder (villageName district : value) : attempt value :=
  geocodeVillage MathStandIn.to_string sample_fetch false villageName district VUndefined.

Definition sample_villages : list value :=
  [ VObj (with_props ∅ [ (GeocodingService.k_name, str "રીબડા"); (k_district, str "Rajkot") ]);
    VObj (with_props ∅ [ (GeocodingService.k_name, str "ઢાંઢણી") ]) ].

(** The object inside [sample_ai_coordinates]. *)
Definition sample_estimate : obj :=
  with_props ∅
    [ (k_village_name, str "Ribda"); (k_latitude, VNum 22.30);
      (k_longitude, VNum 70.80); (k_confidence_score, VNum 0.9) ].

(** A fenced payload. *)
Definition sample_payload : jstr := jq "{'village_name': 'Ribda'}".

(** A notice whose village name carries the suffix [ના]. *)
Definition suffixed_fields : obj :=
  with_props ∅
    [ (k_village_name, str "રીબડાના"); (k_survey_number, str "367");
      (k_notice_date, str "18/07/2025") ].

Definition suffixed_body : obj :=
  with_props ∅
    [ (js "extractedData", VObj suffixed_fields);
      (js "rawText", rq_raw_text sample_request);
      (js "confidenceScore", VNum 0.9);
      (js "processingTime", VNum 1200);
      (js "filename", str "notice.jpg") ].

Definition suffixed_doc : notice :=
  {| id := sample_id;
     village_name := str "રીબડાના";
     survey_number := str "367";
     buyer_name := VNull;
     seller_name := VNull;
     notice_date := Some 1752777000000%Z;
     advocate_name := VNull;
     advocate_address := VNull;
     advocate_mobile := VNull;
     raw_text := rq_raw_text sample_request;
     extracted_data := VObj suffixed_fields;
     confidence_score := VNum 0.9;
     processing_status := str "completed";
     ai_service := str "google_vision_and_gemini";
     filename := str "notice.jpg";
     latitude := VNull;
     longitude := VNull;
     district := VNull;
     taluka := VNull;
     full_address := VNull;
     geocoding_status := str "pending";
     uploaded_at := sample_now;
     updated_at := sample_now;
     processing_time_ms := VNum 1200 |}.

Definition suffixed_store : db :=
  {| property_notices := {[ sample_id := suffixed_doc ]};
     processing_logs := {[ 0%N := sample_log ]} |}.

(** A geocoder that knows one name only, letter for letter. *)
Definition geocoder_of_one_name (known : jstr) (villageName : jstr) (district : value)
    : outcome value :=
  if bool_decide (villageName = known) then Ok (VObj sample_geocoder_result)
  else geocoder_finds_nothing villageName district.

End Samples.

(* ===================================================================== *)
(** * Facts about the model                                               *)
(* ===================================================================== *)

Import Gemini Firebase Server Statements.

(** ** Sanity checks of the embedding on the source's own examples *)

Example js_ribda : js "રીબડા" = [2736; 2752; 2732; 2721; 2750].
Proof. vm_compute. reflexivity. Qed.

Example regex_samples :
  replace_all (plus cls_space) (js " ") (js "a  b   c") = js "a b c"
  /\ replace (lit (js "ab") ++ [Star cls_dot; Eol]) [] (js "xxab12") = js "xx"
  /\ match_all (at_least 2 cls_word) (js "ab c, def.gh")
     = Some [js "ab"; js "def"; js "gh"].
Proof. vm_compute. repeat split. Qed.

(** The names printed by [scripts/test-geocoding.js]. *)
Example clean_for_geocoding_samples :
  Geocoding.clean_string (js "રીબડાના રેવન્યુ સર્વે નં") = js "રીબડાના"
  /\ Geocoding.clean_string (js "ગામ અમદાવાદના સર્વે નં. 123") = js "અમદાવાદના"
  /\ Geocoding.clean_string (js "રાજકોટ") = js "રાજકોટ".
Proof. vm_compute. repeat split. Qed.

(** The examples of the extraction prompt. *)
Example post_process_samples :
  finalVillageName (js "રીબડા") = js "રીબડા"
  /\ finalVillageName (js "મોજે ગામ રીબડાના રેવન્યુ સર્વે નં.૩૬૭") = js "રીબડા"
  /\ finalVillageName (js "ગામ સાંગણવાના સર્વે નં ૧૫૮") = js "સાંગણવા"
  /\ finalVillageName (js "ઢાંઢણીના રેવન્યુ સર્વે નં") = js "ઢાંઢણી"
  /\ finalVillageName (js "મોજે ગામ પાટદીના") = js "પાટદી".
Proof. vm_compute. repeat split. Qed.

Example date_samples :
  new_Date 0 (Some 2025%Z) (Some 6%Z) (Some 18%Z) = Some 1752796800000%Z
  /\ toISOString 1752796800000 = js "2025-07-18T00:00:00.000Z"
  /\ toISOString 951782400123 = js "2000-02-29T00:00:00.123Z"
  /\ toISOString (-1) = js "1969-12-31T23:59:59.999Z"
  /\ new_Date 0 (Some 2024%Z) (Some 13%Z) (Some 30%Z) = Some 1740873600000%Z
  /\ parseInt (js " 07abc") = Some 7%Z /\ parseInt (js "x") = None
  /\ parseInt (js "0x1f") = Some 31%Z.
Proof. vm_compute. repeat split. Qed.

Example json_samples :
  JSON_parse (jq " [1, 2.5 , 'a\nA', null, {}] ")
    = Ok (VArr [VNum 1; VNum 2.5; VStr [97; 10; 65]; VNull; VObj ∅])
  /\ from_ok (JSON_parse (jq "{'a': 1,}")) = None
  /\ JSON_parse (jq "[0.1, 22.3038, 5e-324, 1e400]")
     = Ok (VArr [VNum 0.1; VNum 22.3038; VNum 5e-324; VNum infinity])
  /\ from_ok (JSON_parse (js "true false")) = None.
Proof. vm_compute. repeat split. Qed.

(** With the stand-in [Math] functions, the two villages of the mock table
    of [scripts/test-geocoding.js] are 6.65 km apart. *)
Example distance_sample :
  let d := calculateDistance MathStandIn.sin MathStandIn.cos MathStandIn.atan2
             22.3038 70.8022 22.2587 70.7597 in
  PrimFloat.ltb 6.65 d = true /\ PrimFloat.ltb d 6.66 = true.
Proof. vm_compute. split; reflexivity. Qed.

(** ** Order of numbers and strings *)

Section Order.

Lemma SFcompare_antisym (x y : spec_float) :
  SFcompare y x = option_map CompOpp (SFcompare x y).
Proof.
  destruct x as [sx|sx| |sx mx ex], y as [sy|sy| |sy my ey]; simpl;
    try destruct sx; try destruct sy; simpl; try reflexivity.
  all: rewrite (Z.compare_antisym ex ey);
    destruct (ex ?= ey)%Z eqn:E; simpl; try reflexivity;
    change (Pos.compare_cont Eq my mx) with (Pos.compare my mx);
    change (Pos.compare_cont Eq mx my) with (Pos.compare mx my);
    rewrite (Pos.compare_antisym mx my);
    destruct (mx ?= my)%positive; reflexivity.
Qed.

Lemma ltb_leb_false (a b : float) :
  PrimFloat.ltb a b = true -> PrimFloat.leb b a = false.
Proof.
  rewrite ltb_spec, leb_spec. unfold SFltb, SFleb.
  rewrite (SFcompare_antisym (Prim2SF a) (Prim2SF b)).
  destruct (SFcompare (Prim2SF a) (Prim2SF b)) as [[]|]; simpl; congruence.
Qed.

Lemma ltb_asym (a b : float) :
  PrimFloat.ltb a b = true -> PrimFloat.ltb b a = false.
Proof.
  rewrite !ltb_spec. unfold SFltb.
  rewrite (SFcompare_antisym (Prim2SF a) (Prim2SF b)).
  destruct (SFcompare (Prim2SF a) (Prim2SF b)) as [[]|]; simpl; congruence.
Qed.

Lemma not_nan_compare (a b : float) :
  is_nan a = false -> is_nan b = false ->
  exists c, SFcompare (Prim2SF a) (Prim2SF b) = Some c.
Proof.
  unfold is_nan. rewrite !FloatAxioms.eqb_spec. unfold SFeqb.
  destruct (Prim2SF a), (Prim2SF b); simpl; intros; try discriminate; eauto.
Qed.

Lemma ltb_false_leb (a b : float) :
  is_nan a = false -> is_nan b = false ->
  PrimFloat.ltb a b = false -> PrimFloat.leb b a = true.
Proof.
  intros Ha Hb. destruct (not_nan_compare a b Ha Hb) as [c Hc].
  rewrite ltb_spec, leb_spec. unfold SFltb, SFleb.
  rewrite (SFcompare_antisym (Prim2SF a) (Prim2SF b)), Hc.
  destruct c; simpl; congruence.
Qed.

Lemma ltb_leb (a b : float) :
  PrimFloat.ltb a b = true -> PrimFloat.leb a b = true.
Proof.
  rewrite ltb_spec, leb_spec. unfold SFltb, SFleb.
  destruct (SFcompare (Prim2SF a) (Prim2SF b)) as [[]|]; simpl; congruence.
Qed.

Lemma str_lt_asym (a b : jstr) : str_lt a b = true -> str_lt b a = false.
Proof.
  revert b. induction a as [|x a IH]; intros [|y b]; simpl; try done.
  intros H. apply orb_true_iff in H as [H|H].
  - apply N.ltb_lt in H.
    apply orb_false_iff. split.
    + apply N.ltb_ge. lia.
    + apply andb_false_iff. left. apply N.eqb_neq. lia.
  - apply andb_true_iff in H as [E H]. apply N.eqb_eq in E. subst y.
    rewrite N.ltb_irrefl, N.eqb_refl. simpl. by apply IH.
Qed.

Lemma js_gt_asym (to_str : value -> jstr) (a b : value) :
  js_gt to_str a b = true -> js_gt to_str b a = false.
Proof.
  unfold js_gt, to_primitive.
  destruct a, b; try apply ltb_asym; apply str_lt_asym.
Qed.

(** [Math.min(Math.max(x, 0), 1)] is [NaN] or lies between 0 and 1. *)
Lemma clamp_range (x : float) :
  let f := Math_min (Math_max x 0) 1 in
  is_nan f = true \/ (PrimFloat.leb 0 f = true /\ PrimFloat.leb f 1 = true).
Proof.
  intros f.
  assert (Hm : is_nan (Math_max x 0) = true \/
               (is_nan (Math_max x 0) = false
                /\ PrimFloat.leb 0 (Math_max x 0) = true)).
  { unfold Math_max. destruct (is_nan x) eqn:Hx; simpl.
    - left. reflexivity.
    - right. change (is_nan 0) with false. simpl.
      destruct (PrimFloat.ltb x 0) eqn:H1; [split; reflexivity|].
      destruct (PrimFloat.ltb 0 x) eqn:H2.
      { split; [exact Hx|]. by apply ltb_leb. }
      match goal with |- context [if ?c then _ else _] => destruct c end;
        [split; reflexivity|].
      split; [exact Hx|]. apply ltb_false_leb; done. }
  subst f. destruct Hm as [Hm|[Hm H0]].
  - left. unfold Math_min. rewrite Hm. reflexivity.
  - right. unfold Math_min. rewrite Hm. change (is_nan 1) with false. simpl.
    set (m := Math_max x 0) in *.
    destruct (PrimFloat.ltb m 1) eqn:H1; [split; [done|by apply ltb_leb]|].
    destruct (PrimFloat.ltb 1 m) eqn:H2; [split; reflexivity|].
    match goal with |- context [if ?c then _ else _] => destruct c end;
      [|split; reflexivity].
    split; [done|]. apply ltb_false_leb; done.
Qed.

End Order.

(** ** Object literals *)

Section ObjectLiterals.

Lemma lookup_with_props (base : obj) (kvs : list (jstr * value)) (k : jstr) :
  with_props base kvs !! k =
  match last_binding k kvs with Some w => Some w | None => base !! k end.
Proof.
  revert base. induction kvs as [|[k' v] r IH]; intros base; simpl; [done|].
  unfold with_props in *. simpl. rewrite IH.
  destruct (last_binding k r); [done|].
  destruct (decide (k' = k)) as [->|Hne].
  - by rewrite lookup_insert_eq.
  - by rewrite lookup_insert_ne.
Qed.

Lemma last_binding_None (k : jstr) (kvs : list (jstr * value)) :
  k ∉ kvs.*1 -> last_binding k kvs = None.
Proof.
  induction kvs as [|[k' v] r IH]; simpl; [done|].
  intros Hk. apply not_elem_of_cons in Hk as [Hne Hk].
  rewrite (IH Hk). destruct (decide (k' = k)); [congruence|done].
Qed.

End ObjectLiterals.

Ltac read_props := rewrite ?lookup_with_props; try reflexivity.

Ltac step_binds H :=
  repeat match type of H with
         | bind ?m _ = Ok _ =>
           let E := fresh "E" in
           destruct m eqn:E; simpl in H; [|discriminate H]
         | (if ?c then _ else _) = Ok _ =>
           let E := fresh "E" in
           destruct c eqn:E; [discriminate H|]
         end.

(** ** Strings and patterns *)

Section Strings.

Lemma starts_with_length (p s : jstr) :
  starts_with p s = true -> (length p <= length s)%nat.
Proof.
  revert s. induction p as [|a p IH]; intros [|b s]; simpl; try done; try lia.
  intros H. apply andb_true_iff in H as [_ H]. apply IH in H. lia.
Qed.

Lemma includes_length (s p : jstr) :
  includes s p = true -> (length p <= length s)%nat.
Proof.
  induction s as [|c s IH]; simpl.
  - rewrite orb_false_r. apply starts_with_length.
  - intros H. apply orb_true_iff in H as [H|H].
    + apply starts_with_length in H. simpl in H. lia.
    + apply IH in H. lia.
Qed.

Lemma includes_false_tail (c : N) (s w : jstr) :
  includes (c :: s) w = false -> includes s w = false.
Proof. simpl. intros H. by apply orb_false_iff in H as [_ H]. Qed.

Lemma includes_false_head (s w : jstr) :
  includes s w = false -> starts_with w s = false.
Proof. destruct s; simpl; intros H; by apply orb_false_iff in H as [H _]. Qed.

Lemma replace_all_unmatched (re : regex) (rep : jstr) (bol : bool) (s : jstr) :
  unmatched re bol s -> replace_all_from re rep bol 0 s = s.
Proof.
  revert bol. induction s as [|x s IH]; intros bol [Hm Hrest]; simpl; rewrite Hm.
  - reflexivity.
  - f_equal. by apply IH.
Qed.

Lemma match_lit_mismatch (w : jstr) (re : regex) (bol : bool) (t : jstr) :
  starts_with w t = false -> match_here (lit w ++ re) bol t = None.
Proof.
  revert bol t. induction w as [|a w IH]; intros bol t; simpl; [done|].
  destruct t as [|x t]; [done|]. intros H.
  rewrite N.eqb_sym. destruct (a =? x)%N; [|done].
  simpl in H. rewrite (IH false t H). done.
Qed.

Lemma unmatched_lit (w : jstr) (re : regex) (bol : bool) (s : jstr) :
  includes s w = false -> unmatched (lit w ++ re) bol s.
Proof.
  revert bol. induction s as [|x s IH]; intros bol H; simpl; split.
  - apply match_lit_mismatch. by apply includes_false_head.
  - done.
  - apply match_lit_mismatch. by apply includes_false_head.
  - apply IH. by eapply includes_false_tail.
Qed.

Lemma unmatched_bol_later (re : regex) (s : jstr) : unmatched (Bol :: re) false s.
Proof. induction s as [|y s IH]; simpl; auto. Qed.

Lemma unmatched_bol (re : regex) (s : jstr) :
  match_here re true s = None -> unmatched (Bol :: re) true s.
Proof.
  intros H. destruct s as [|x s]; simpl; (split; [exact H|]); [done|].
  apply unmatched_bol_later.
Qed.

Lemma unmatched_plus (cls : N -> bool) (bol : bool) (s : jstr) :
  forallb (fun c => negb (cls c)) s = true -> unmatched (plus cls) bol s.
Proof.
  revert bol. induction s as [|x s IH]; intros bol H; simpl; [done|].
  simpl in H. apply andb_true_iff in H as [Hx H].
  apply negb_true_iff in Hx. rewrite Hx. split; [done|]. by apply IH.
Qed.

Lemma collapse_single_spaced (bol : bool) (s : jstr) :
  single_spaced s = true -> replace_all_from (plus cls_space) SPACE bol 0 s = s.
Proof.
  revert bol. induction s as [|c s IH]; intros bol H; [reflexivity|].
  simpl in H. apply andb_true_iff in H as [Hc Hs].
  unfold plus, cls_space in *. simpl.
  destruct (is_space c) eqn:Ec.
  - apply andb_true_iff in Hc as [E32 Hnext]. apply N.eqb_eq in E32. subst c.
    destruct s as [|d s']; [done|]. apply negb_true_iff in Hnext.
    rewrite Hnext. simpl. f_equal. by apply (IH false).
  - f_equal. by apply (IH false).
Qed.

Lemma single_spaced_last (s : jstr) (x : N) :
  single_spaced (s ++ [x]) = true -> is_space x = false.
Proof.
  induction s as [|c s IH]; simpl.
  - destruct (is_space x); [|done]. rewrite andb_false_r. done.
  - intros H. apply andb_true_iff in H as [_ H]. by apply IH.
Qed.

Lemma trim_clean (s : jstr) :
  match s with c :: _ => negb (is_space c) | [] => true end = true ->
  single_spaced s = true -> trim s = s.
Proof.
  intros Hhead Hs. unfold trim, trim_end.
  assert (E : trim_start s = s).
  { destruct s as [|c s]; [done|]. simpl.
    apply negb_true_iff in Hhead. by rewrite Hhead. }
  rewrite E.
  destruct (rev s) as [|x r] eqn:Er.
  - apply (f_equal (@rev N)) in Er. rewrite rev_involutive in Er. by subst.
  - assert (Es : s = rev r ++ [x]).
    { apply (f_equal (@rev N)) in Er. rewrite rev_involutive in Er. by rewrite Er. }
    rewrite Es in Hs. apply single_spaced_last in Hs.
    simpl. rewrite Hs. rewrite <- Er. apply rev_involutive.
Qed.

Lemma split_on_prefix (sep : N) (p rest : jstr) :
  Forall (fun c => c <> sep) p ->
  split_on sep (p ++ sep :: rest) = p :: split_on sep rest.
Proof.
  induction 1 as [|c p Hc Hp IH]; simpl.
  - by rewrite N.eqb_refl.
  - apply N.eqb_neq in Hc. rewrite Hc, IH. reflexivity.
Qed.

End Strings.

(* ===================================================================== *)
(** * Coordinate reconciliation                                           *)
(* ===================================================================== *)





(* ===================================================================== *)
(** * The extraction response parser                                      *)
(* ===================================================================== *)

Lemma empty_structure_fields (k : jstr) :
  k ∈ extraction_fields -> prop (data empty_structure) k = Ok VNull.
Proof.
  intros Hk. unfold extraction_fields in Hk.
  repeat (apply elem_of_cons in Hk as [->|Hk]; [vm_compute; reflexivity|]).
  by apply elem_of_nil in Hk.
Qed.

(** C2, as amended.  When the fence-stripped response is not valid JSON and
    the fallback finds nothing either (the raw response has no brace block,
    or the block from its first opening brace to its last closing brace is
    not valid JSON, or that block has no truthy [data]), the parser returns,
    and does not raise, the structure whose eleven fields are all [null],
    with confidence 0.1. *)
Theorem unparseable_response_gives_empty_structure (geminiResponse : jstr) (e : string) :
  JSON_parse (strip_fences geminiResponse) = Throw e ->
  (forall block fallbackParsed fallback_data,
     match_first re_braces geminiResponse = Some block ->
     JSON_parse block = Ok fallbackParsed ->
     prop fallbackParsed k_data = Ok fallback_data ->
     truthy fallback_data = false) ->
  exists fields : obj,
    parseGeminiResponse geminiResponse =
      Ok {| data := VObj fields; confidence := VNum 0.1; notes := VStr failure_notes |}
    /\ size fields = 11%nat
    /\ forall k, k ∈ extraction_fields -> fields !! k = Some VNull.
Proof.
  intros Hmain Hfallback.
  assert (Hnone : parse_fallback geminiResponse = None).
  { unfold parse_fallback.
    destruct (match_first re_braces geminiResponse) as [block|] eqn:Hblock; [|done].
    destruct (JSON_parse block) as [v|] eqn:Hv; simpl; [|done].
    destruct (prop v k_data) as [dt|] eqn:Hd; simpl; [|done].
    rewrite (Hfallback block v dt eq_refl Hv Hd). done. }
  unfold parseGeminiResponse, parse_main. rewrite Hmain. simpl. rewrite Hnone.
  eexists. split; [reflexivity|]. split; [vm_compute; reflexivity|].
  intros k Hk. pose proof (empty_structure_fields k Hk) as H.
  unfold empty_structure, prop, data, get in H.
  match type of H with
  | Ok (default _ ?l) = _ =>
    destruct l as [v|] eqn:El; simpl in H; [congruence|discriminate]
  end.
Qed.

(** A run of C2 as amended: a refusal in prose, with no brace in it. *)
Lemma unparseable_response_witness :
  exists fields : obj,
    parseGeminiResponse refused_response =
      Ok {| data := VObj fields; confidence := VNum 0.1; notes := VStr failure_notes |}
    /\ size fields = 11%nat
    /\ forall k, k ∈ extraction_fields -> fields !! k = Some VNull.
Proof.
  apply (unparseable_response_gives_empty_structure
           refused_response "Unexpected token in JSON").
  - vm_compute. reflexivity.
  - intros block v dt H. vm_compute in H. discriminate.
Defined.

(** C2 as stated fails: a response with a sentence before the JSON object
    is not valid JSON after fence-stripping, yet the parser returns the
    fields and the confidence found by the fallback. *)
Lemma chatty_response_is_parsed_by_the_fallback :
  (exists e, JSON_parse (strip_fences chatty_response) = Throw e)
  /\ exists p,
       parseGeminiResponse chatty_response = Ok p
       /\ prop (data p) k_village_name = Ok (VStr (js "રીબડા"))
       /\ confidence p = VNum 0.9
       /\ confidence p <> VNum 0.1
       /\ notes p = VStr fallback_notes.
Proof.
  split; [vm_compute; eexists; reflexivity|].
  eexists. split; [vm_compute; reflexivity|].
  repeat split; try discriminate.
Qed.

(** On the first path the confidence is clamped. *)
Lemma main_path_confidence_clamped (geminiResponse : jstr) (p : parsed_response) :
  parse_main geminiResponse = Ok p ->
  exists f, confidence p = VNum f
    /\ (is_nan f = true \/ (PrimFloat.leb 0 f = true /\ PrimFloat.leb f 1 = true)).
Proof.
  unfold parse_main.
  destruct (JSON_parse _) as [parsed|]; simpl; [|done].
  destruct (prop parsed k_data) as [pd|]; simpl; [|done].
  destruct (negb (truthy pd) || negb (typeof_object pd)); [done|].
  destruct (postProcessVillageNames pd) as [cd|]; simpl; [|done].
  destruct (prop parsed k_confidence) as [pc|]; simpl; [|done].
  destruct (prop parsed k_notes) as [pn|]; simpl; [|done].
  intros [= <-]. simpl. eexists. split; [reflexivity|]. apply clamp_range.
Qed.

(** C8, at the failing input.  The response has a sentence before the JSON
    object and reports confidence 1.5: the first parse fails, the fallback
    returns the reported confidence as it is, and 1.5 is not at most 1. *)
Theorem fallback_path_confidence_not_clamped :
  exists p,
    parseGeminiResponse overconfident_response = Ok p
    /\ notes p = VStr fallback_notes
    /\ confidence p = VNum 1.5
    /\ PrimFloat.leb 1.5 1 = false.
Proof.
  eexists. split; [vm_compute; reflexivity|]. repeat split.
Qed.

(* ===================================================================== *)
(** * The village-name post-processor                                     *)
(* ===================================================================== *)

Lemma valid_candidate_spec (c : jstr) :
  valid_candidate c = true ->
  (2 <= length c <= 10)%nat /\ free_of_boilerplate c.
Proof.
  unfold valid_candidate, free_of_boilerplate. intros H.
  repeat (apply andb_true_iff in H as [H ?]).
  repeat match goal with
         | H : negb _ = true |- _ => apply negb_true_iff in H
         | H : (_ <=? _)%nat = true |- _ => apply Nat.leb_le in H
         end.
  auto.
Qed.

Lemma try_patterns_cases (ps : list regex) (name cleaned : jstr) :
  try_patterns ps name cleaned = cleaned
  \/ valid_candidate (try_patterns ps name cleaned) = true.
Proof.
  induction ps as [|p ps IH]; simpl; [by left|].
  destruct (match_index_1 p name) as [m1|]; [|exact IH].
  destruct (_ && valid_candidate (trim m1)) eqn:E; [|exact IH].
  right. by apply andb_true_iff in E as [_ E].
Qed.

Lemma needs_extraction_false (c : jstr) :
  needs_extraction c = false ->
  (length c <= 10)%nat /\ free_of_boilerplate c.
Proof.
  unfold needs_extraction, free_of_boilerplate. intros H.
  apply orb_false_iff in H as [H H3]. apply orb_false_iff in H as [H1 H2].
  apply Nat.ltb_ge in H1. auto.
Qed.

Lemma short_needs_no_extraction (c : jstr) :
  (length c < 2)%nat -> needs_extraction c = false.
Proof.
  intros Hlen. unfold needs_extraction.
  destruct (includes c SARVE) eqn:H1.
  { apply includes_length in H1. simpl in H1. lia. }
  destruct (includes c REVENUE) eqn:H2.
  { apply includes_length in H2. simpl in H2. lia. }
  rewrite !orb_false_r. apply Nat.ltb_ge. lia.
Qed.

Lemma step4_nonempty (name c : jstr) : (2 <= length c)%nat -> step4 name c = c.
Proof. destruct c; simpl; [lia|done]. Qed.

Lemma final_name_cases (name : jstr) :
  name <> [] ->
  let cleaned := step1 name in
  let out := finalVillageName name in
  out <> []
  /\ ((length cleaned < 2)%nat -> out = name)
  /\ ((2 <= length cleaned)%nat -> needs_extraction cleaned = false ->
        out = cleaned /\ free_of_boilerplate out)
  /\ (needs_extraction cleaned = true ->
        out = cleaned \/ (valid_candidate out = true /\ free_of_boilerplate out)).
Proof.
  intros Hname. unfold finalVillageName. generalize (step1 name). intros cleaned. simpl.
  unfold step2, step3.
  assert (Hne : forall c : jstr, (2 <= length c)%nat -> c <> []).
  { intros [|] ?; simpl in *; [lia|done]. }
  destruct (needs_extraction cleaned) eqn:Hneed.
  - assert (Hlen : (2 <= length cleaned)%nat).
    { destruct (Nat.lt_ge_cases (length cleaned) 2) as [Hs|]; [|done].
      apply short_needs_no_extraction in Hs. congruence. }
    destruct (try_patterns_cases patterns name cleaned) as [E|Hv].
    + rewrite E.
      destruct (Nat.ltb_spec (length cleaned) 2); [lia|].
      rewrite step4_nonempty by done.
      split; [by apply Hne|]. split; [lia|]. split; [done|]. intros _. by left.
    + set (cand := try_patterns patterns name cleaned) in *.
      destruct (valid_candidate_spec cand Hv) as [[Hlo Hhi] Hfree].
      destruct (Nat.ltb_spec (length cand) 2); [lia|].
      rewrite step4_nonempty by done.
      split; [by apply Hne|]. split; [lia|]. split; [done|]. intros _. by right.
  - destruct (Nat.ltb_spec (length cleaned) 2) as [Hs|Hl].
    + assert (Hout : step4 name name = name) by (destruct name; done).
      rewrite Hout. split; [done|]. split; [done|]. split; [lia|done].
    + rewrite step4_nonempty by done.
      split; [by apply Hne|]. split; [lia|]. split; [|done].
      intros _ _. split; [done|].
      by apply needs_extraction_false in Hneed as [_ ?].
Qed.

Lemma post_process_named (o : obj) (name : jstr) :
  o !! k_village_name = Some (VStr name) -> name <> [] ->
  postProcessVillageNames (VObj o) =
    Ok (VObj (<[k_village_name_cleaned := VStr (finalVillageName name)]>
             (<[k_village_name := VStr (finalVillageName name)]> o))).
Proof.
  intros Ho Hname. unfold postProcessVillageNames, prop, get, bind. rewrite Ho. simpl.
  destruct name; [done|]. reflexivity.
Qed.

(** C3, at the failing input.  Step 1 leaves the name "Ribda survey" as it
    is, with the word for survey in it, so step 2 runs.  Of its patterns
    only the last one matches.  It carries the [g] flag, so [match] returns
    the whole matches, the village name and the word for survey, and
    [match[1]] is the second of them, not the text of the capture group:
    the candidate is the boilerplate word, which the acceptance test
    refuses, while the village name would pass it.  The post-processor
    writes the name back with the word in it.  The same happens with the
    word for revenue; and "Ribda survey 12" comes back as "Ribda survey",
    which is not the original name either. *)
Theorem post_processor_keeps_boilerplate_word :
  step1 surveyed_name = surveyed_name
  /\ needs_extraction surveyed_name = true
  /\ map (fun pattern => match_all pattern surveyed_name) patterns
     = [None; None; None; None; None; Some [js "રીબડા"; SARVE]]
  /\ map (fun pattern => match_index_1 pattern surveyed_name) patterns
     = [None; None; None; None; None; Some SARVE]
  /\ valid_candidate SARVE = false
  /\ valid_candidate (js "રીબડા") = true
  /\ (let result :=
        postProcessVillageNames (VObj {[ k_village_name := VStr surveyed_name ]}) in
      bind result (fun r => prop r k_village_name) = Ok (VStr surveyed_name)
      /\ bind result (fun r => prop r k_village_name_cleaned) = Ok (VStr surveyed_name))
  /\ includes surveyed_name SARVE = true
  /\ finalVillageName revenue_name = revenue_name
  /\ includes revenue_name REVENUE = true
  /\ finalVillageName surveyed_name_12 = surveyed_name
  /\ surveyed_name_12 <> surveyed_name.
Proof. vm_compute. repeat split; discriminate. Qed.

(** The fallback of step 3, which is by design: a name made of boilerplate
    only is cleaned to the empty string, and the original name, with both
    words, is returned. *)
Example boilerplate_only_name_is_kept :
  exists o : obj,
    postProcessVillageNames (VObj {[ k_village_name := VStr boilerplate_only_name ]})
      = Ok (VObj o)
    /\ o !! k_village_name = Some (VStr boilerplate_only_name)
    /\ includes boilerplate_only_name SARVE = true
    /\ includes boilerplate_only_name REVENUE = true.
Proof.
  eexists. split; [vm_compute; reflexivity|]. repeat split.
Qed.

(* ===================================================================== *)
(** * The text cleaners on missing, short and clean input                 *)
(* ===================================================================== *)

(** C9, as amended.  Neither cleaner raises on empty or missing input: the
    geocoding cleaner returns the empty string for every falsy argument (so
    an empty string comes back unchanged, [null] and [undefined] come back
    as the empty string), the post-processor returns its argument unchanged
    when the village name is falsy.  When removing boilerplate leaves fewer
    than 3 code units (geocoding cleaner) or fewer than 2 (post-processor),
    the original, uncleaned string is returned. *)
Theorem cleaners_on_missing_and_short_input :
  (forall v, truthy v = false ->
     Geocoding.cleanVillageNameForGeocoding v = Ok (VStr []))
  /\ (forall s, (length (Geocoding.strip_boilerplate s) < 3)%nat ->
        Geocoding.cleanVillageNameForGeocoding (VStr s) = Ok (VStr s))
  /\ (forall o : obj, truthy (get o k_village_name) = false ->
        postProcessVillageNames (VObj o) = Ok (VObj o))
  /\ (forall (o : obj) name,
        o !! k_village_name = Some (VStr name) -> name <> [] ->
        (length (step1 name) < 2)%nat ->
        postProcessVillageNames (VObj o) =
          Ok (VObj (<[k_village_name_cleaned := VStr name]>
                   (<[k_village_name := VStr name]> o)))).
Proof.
  split; [|split; [|split]].
  - intros v Hv. unfold Geocoding.cleanVillageNameForGeocoding. by rewrite Hv.
  - intros s Hs.
    unfold Geocoding.cleanVillageNameForGeocoding, Geocoding.clean_string.
    destruct s as [|c s]; [reflexivity|]. simpl truthy. simpl negb. cbv iota.
    apply Nat.ltb_lt in Hs. by rewrite Hs.
  - intros o Ho. unfold postProcessVillageNames, prop, bind. by rewrite Ho.
  - intros o name Ho Hname Hshort.
    rewrite (post_process_named o name Ho Hname).
    destruct (final_name_cases name Hname) as (_ & Hkeep & _).
    by rewrite (Hkeep Hshort).
Qed.

(** C9 as stated fails for the geocoding cleaner: a missing name does not
    come back unchanged, it comes back as the empty string. *)
Lemma missing_name_becomes_empty_string :
  Geocoding.cleanVillageNameForGeocoding VNull = Ok (VStr [])
  /\ Geocoding.cleanVillageNameForGeocoding VUndefined = Ok (VStr [])
  /\ VStr [] <> VNull /\ VStr [] <> VUndefined.
Proof. repeat split; discriminate. Qed.

(** C10, as amended.  A name that is already clean (it contains neither
    boilerplate word, does not start with the village prefix, has no ASCII
    digit, dot, hyphen or slash, and its only white space is single spaces
    between words) is returned unchanged by the geocoding cleaner; on such a
    name cleaning twice is cleaning once. *)
Theorem clean_name_is_a_fixed_point (s : jstr) :
  already_clean s = true ->
  Geocoding.cleanVillageNameForGeocoding (VStr s) = Ok (VStr s)
  /\ Geocoding.clean_string (Geocoding.clean_string s) = Geocoding.clean_string s.
Proof.
  unfold already_clean. intros H.
  repeat (apply andb_true_iff in H as [H ?]).
  repeat match goal with H : negb _ = true |- _ => apply negb_true_iff in H end.
  assert (Hstrip : Geocoding.strip_boilerplate s = s).
  { unfold Geocoding.strip_boilerplate, replace_all.
    rewrite (replace_all_unmatched Geocoding.re_revenue_survey)
      by (apply unmatched_lit; done).
    rewrite (replace_all_unmatched Geocoding.re_survey) by (apply unmatched_lit; done).
    rewrite (replace_all_unmatched Geocoding.re_gam_prefix)
      by (apply unmatched_bol, match_lit_mismatch; done).
    rewrite (replace_all_unmatched Geocoding.re_num_punct)
      by (apply unmatched_plus; done).
    unfold Geocoding.re_spaces. rewrite collapse_single_spaced by done.
    by apply trim_clean. }
  assert (Hclean : Geocoding.clean_string s = s).
  { unfold Geocoding.clean_string. rewrite Hstrip. by destruct (_ <? _)%nat. }
  split; [|by rewrite !Hclean].
  unfold Geocoding.cleanVillageNameForGeocoding. rewrite Hclean.
  destruct s; reflexivity.
Qed.

(** A run of C10 as amended, on a two-word name. *)
Lemma clean_name_witness :
  Geocoding.cleanVillageNameForGeocoding (VStr two_word_name) = Ok (VStr two_word_name)
  /\ Geocoding.clean_string (Geocoding.clean_string two_word_name)
     = Geocoding.clean_string two_word_name.
Proof.
  apply (clean_name_is_a_fixed_point two_word_name). vm_compute. reflexivity.
Defined.

(** C10 as stated fails: removing the list number uncovers the village
    prefix, which only a second cleaning removes. *)
Lemma cleaning_twice_differs :
  Geocoding.clean_string numbered_name = js "ગામ રીબડા"
  /\ Geocoding.clean_string (Geocoding.clean_string numbered_name) = js "રીબડા"
  /\ Geocoding.clean_string (Geocoding.clean_string numbered_name)
     <> Geocoding.clean_string numbered_name.
Proof. vm_compute. repeat split. discriminate. Qed.

(* ===================================================================== *)
(** * The refinement pass                                                 *)
(* ===================================================================== *)

Lemma refinement_failed_spec (o : obj) (message : string) (elapsed : float) :
  exists r : obj,
    refinement_failed (VObj o) message elapsed = VObj r
    /\ r !! k_refinement_applied = Some (VBool false)
    /\ r !! k_refinement_error = Some (VStr (js message))
    /\ forall k, k ∉ failure_keys -> r !! k = o !! k.
Proof.
  eexists. split; [reflexivity|]. simpl spread.
  split; [read_props|]. split; [read_props|].
  intros k Hk. rewrite lookup_with_props, last_binding_None; done.
Qed.

Lemma refine_unfold (o : obj) (text : jstr) (elapsed : float) :
  refineExtractedDataWithGemini true (Ok text) elapsed (VObj o) =
  match JSON_parse (strip_fences text) with
  | Throw e =>
    refinement_failed (VObj o) ("Refinement response parsing failed: " ++ e) elapsed
  | Ok refinedData =>
    match merge_refined (VObj o) refinedData elapsed with
    | Ok mergedData => mergedData
    | Throw message => refinement_failed (VObj o) message elapsed
    end
  end.
Proof.
  unfold refineExtractedDataWithGemini, parse_refinement, try_catch. simpl.
  destruct (JSON_parse (strip_fences text)); reflexivity.
Qed.

(** C4, as amended.  The credential is configured, the AI call returned
    [text], and the extracted field set is the object [o].  If [text] is not
    valid JSON after fence-stripping, the result has every property of [o]
    with its value (apart from the three bookkeeping properties
    [refinement_applied], [refinement_error], [refinement_time_ms]),
    [refinement_applied = false] and the error message.  If [text] parses to
    a value other than [null], the result has [refinement_applied = true],
    the five [original_*] properties hold the pre-refinement values, the
    AI-reported confidence is under [refinement_confidence], and every other
    property is the refined one when the response has it and the original
    one otherwise. *)
Theorem refinement_result (o : obj) (text : jstr) (elapsed : float) :
  let result := refineExtractedDataWithGemini true (Ok text) elapsed (VObj o) in
  (forall e, JSON_parse (strip_fences text) = Throw e ->
     exists r : obj,
       result = VObj r
       /\ r !! k_refinement_applied = Some (VBool false)
       /\ r !! k_refinement_error =
            Some (VStr (js ("Refinement response parsing failed: " ++ e)))
       /\ forall k, k ∉ failure_keys -> r !! k = o !! k)
  /\ (forall refinedData, JSON_parse (strip_fences text) = Ok refinedData ->
      nullish refinedData = false ->
      exists r : obj,
        result = VObj r
        /\ r !! k_refinement_applied = Some (VBool true)
        /\ r !! k_original_village_name = Some (get o k_village_name)
        /\ r !! k_original_survey_number = Some (get o k_survey_number)
        /\ r !! k_original_notice_date = Some (get o k_notice_date)
        /\ r !! k_original_latitude = Some (get o k_latitude)
        /\ r !! k_original_longitude = Some (get o k_longitude)
        /\ prop refinedData k_confidence_score =
             Ok (default VUndefined (r !! k_refinement_confidence))
        /\ forall k, k ∉ success_keys ->
             r !! k = match spread refinedData !! k with
                      | Some v => Some v
                      | None => o !! k
                      end).
Proof.
  intros result. subst result. rewrite refine_unfold.
  split.
  - intros e He. rewrite He. apply refinement_failed_spec.
  - intros refinedData Hr Hnull. rewrite Hr.
    unfold merge_refined.
    assert (Hp : forall k, exists v, prop refinedData k = Ok v).
    { intros k. destruct refinedData; simpl; eauto; discriminate. }
    destruct (Hp k_confidence_score) as [cs Hcs].
    destruct (Hp k_refinement_notes) as [rn Hrn].
    simpl prop. unfold bind. rewrite Hcs, Hrn.
    eexists. split; [reflexivity|].
    do 6 (split; [read_props|]).
    split; [rewrite lookup_with_props; reflexivity|].
    intros k Hk. rewrite lookup_with_props, last_binding_None by done.
    unfold merge. rewrite lookup_union.
    simpl spread at 2.
    destruct (spread refinedData !! k), (o !! k); reflexivity.
Qed.

(** C4 as stated fails: the response [null] parses, but reading its
    confidence raises, and the result is the failure one. *)
Lemma refinement_of_a_null_response :
  let result :=
    refineExtractedDataWithGemini true (Ok (js "null")) 0 (VObj sample_extraction) in
  JSON_parse (strip_fences (js "null")) = Ok VNull
  /\ prop result k_refinement_applied = Ok (VBool false)
  /\ (exists message, prop result k_refinement_error = Ok (VStr message))
  /\ prop result k_original_village_name = Ok VUndefined
  /\ prop result k_village_name = Ok (str "રીબડા ગામ").
Proof.
  vm_compute. split; [reflexivity|]. split; [reflexivity|].
  split; [eexists; reflexivity|]. split; reflexivity.
Qed.

(** A successful refinement of the sample extraction. *)
Example refinement_sample :
  let result :=
    refineExtractedDataWithGemini true
      (Ok (jq "{'village_name': 'રીબડા', 'confidence_score': 0.95}")) 0
      (VObj sample_extraction) in
  prop result k_village_name = Ok (str "રીબડા")
  /\ prop result k_original_village_name = Ok (str "રીબડા ગામ")
  /\ prop result k_survey_number = Ok (str "45/2")
  /\ prop result k_refinement_applied = Ok (VBool true)
  /\ prop result k_refinement_confidence = Ok (VNum 0.95).
Proof. vm_compute. repeat split. Qed.

(* ===================================================================== *)
(** * The persistence adapter and the routes                              *)
(* ===================================================================== *)

Lemma save_stores_the_record (tz : Z) (new_id new_log_id : jstr) (now : Z)
    (rq : save_request) (d d' : db) (v : notice_view) :
  savePropertyNotice tz new_id new_log_id now rq d = Ok (d', v) ->
  getPropertyNoticeById new_id d' = Some v
  /\ v = view (doc v)
  /\ id (doc v) = new_id
  /\ (exists nd, prop (rq_extracted_data rq) k_notice_date = Ok nd
                 /\ convert_notice_date tz nd = Ok (notice_date (doc v)))
  /\ (exists gs, prop (rq_extracted_data rq) (js "geocoding_status") = Ok gs
                 /\ geocoding_status (doc v) = or_else gs (str "pending")).
Proof.
  unfold savePropertyNotice, try_catch.
  match goal with |- context [match ?b with Ok _ => _ | Throw _ => _ end] =>
    destruct b as [[d1 v1]|] eqn:Hbody; [|discriminate] end.
  intros [= <- <-].
  step_binds Hbody.
  injection Hbody as <- <-.
  unfold getPropertyNoticeById, logProcessingStep. simpl.
  rewrite lookup_insert_eq. simpl.
  repeat split; eauto.
Qed.

Lemma save_succeeds (tz : Z) (new_id new_log_id : jstr) (now : Z)
    (rq : save_request) (d : db) (o : obj) (nd : option Z) :
  rq_extracted_data rq = VObj o ->
  convert_notice_date tz (get o k_notice_date) = Ok nd ->
  rq_raw_text rq <> VUndefined ->
  exists d' v, savePropertyNotice tz new_id new_log_id now rq d = Ok (d', v).
Proof.
  intros Ho Hconv Hraw. unfold savePropertyNotice. rewrite Ho. simpl prop.
  unfold bind at 1. rewrite Hconv. simpl.
  unfold undefined_field. simpl.
  destruct (rq_raw_text rq); try done; eauto.
Qed.

(** ** The notice date *)

Lemma pad_digits_no_T (w : nat) (n : Z) (acc : jstr) :
  Forall (fun c => c <> 84%N) acc -> Forall (fun c => c <> 84%N) (pad_digits w n acc).
Proof.
  revert n acc. induction w as [|w IH]; intros n acc Hacc; simpl; [done|].
  apply IH. constructor; [|done].
  pose proof (Z.mod_pos_bound n 10 ltac:(lia)). lia.
Qed.

Lemma iso_day_no_T (d : Z) : Forall (fun c => c <> 84%N) (iso_day d).
Proof.
  unfold iso_day.
  repeat (apply Forall_app; split);
    try (apply pad_digits_no_T; constructor);
    try (repeat constructor; done).
  destruct (_ && _)%bool.
  - apply pad_digits_no_T; constructor.
  - constructor; [by destruct (_ <? _)%Z|]. apply pad_digits_no_T; constructor.
Qed.

(** What a read keeps of a stored date: the UTC day of its time value. *)
Lemma before_T_toISOString (t : Z) :
  before_T (toISOString t) = iso_day (t / msPerDay).
Proof.
  unfold before_T, toISOString.
  match goal with
  | |- context [split_on 84 ?s] =>
    match s with
    | ?yy ++ ?a ++ ?mm ++ ?b ++ ?dd ++ [84%N] ++ ?rest =>
      replace s with (iso_day (t / msPerDay) ++ 84%N :: rest)
    end
  end.
  - rewrite split_on_prefix by apply iso_day_no_T. reflexivity.
  - unfold iso_day. cbv zeta. rewrite <- !app_assoc. reflexivity.
Qed.

Lemma convert_sample_date (tz : Z) :
  (-720 <= tz <= 840)%Z ->
  convert_notice_date tz (str "18/07/2025") = Ok (Some (1752796800000 - tz * 60000)%Z).
Proof.
  intros Htz.
  change (convert_notice_date tz (str "18/07/2025")) with
    (match new_Date tz (Some 2025%Z) (Some 6%Z) (Some 18%Z) with
     | Some t =>
       if storable t then Ok (Some t)
       else Throw "Value for argument seconds is out of range"
     | None => @Throw (option Z) "Value for argument seconds is not a valid integer"
     end).
  unfold new_Date, TimeClip.
  match goal with
  | |- context [(MakeDay ?y 6 18 * msPerDay)%Z] =>
    change (MakeDay y 6 18 * msPerDay)%Z with 1752796800000%Z
  end.
  destruct (Z.ltb_spec 8640000000000000 (Z.abs (1752796800000 - tz * 60000))) as [H|H];
    [lia|].
  unfold storable.
  assert (H1 : (1752746400 <= (1752796800000 - tz * 60000) / 1000)%Z)
    by (apply Z.div_le_lower_bound; lia).
  assert (H2 : ((1752796800000 - tz * 60000) / 1000 <= 1752840000)%Z)
    by (apply Z.div_le_upper_bound; lia).
  destruct (Z.leb_spec (-62135596800) ((1752796800000 - tz * 60000) / 1000)); [|lia].
  destruct (Z.leb_spec ((1752796800000 - tz * 60000) / 1000) 253402300799); [|lia].
  reflexivity.
Qed.

(** The date "18/07/2025" round-trips to 18 July on a server at or west of
    UTC, and to 17 July on every server east of UTC. *)
Lemma read_back_date_by_zone (tz : Z) :
  (-720 <= tz <= 840)%Z ->
  read_back_date tz =
    Some (if (0 <? tz)%Z then str "2025-07-17" else str "2025-07-18").
Proof.
  intros Htz. unfold read_back_date.
  destruct (save_succeeds tz sample_id sample_log_id sample_now sample_request empty_db
              sample_fields _ eq_refl (convert_sample_date tz Htz))
    as (d' & v & Hsave); [done|].
  rewrite Hsave.
  destruct (save_stores_the_record _ _ _ _ _ _ _ _ Hsave)
    as (Hget & Hview & _ & (nd & Hnd & Hconv) & _).
  rewrite Hget. simpl. f_equal.
  rewrite Hview. simpl.
  injection Hnd as <-.
  change (get sample_fields k_notice_date) with (str "18/07/2025") in Hconv.
  rewrite (convert_sample_date tz Htz) in Hconv. injection Hconv as <-.
  rewrite before_T_toISOString. unfold msPerDay.
  destruct (Z.ltb_spec 0 tz) as [Heast|Hwest].
  - replace ((1752796800000 - tz * 60000) / 86400000)%Z with 20286%Z
      by (apply Z.div_unique with (r := (86400000 - tz * 60000)%Z); lia).
    vm_compute. reflexivity.
  - replace ((1752796800000 - tz * 60000) / 86400000)%Z with 20287%Z
      by (apply Z.div_unique with (r := (- tz * 60000)%Z); lia).
    vm_compute. reflexivity.
Qed.

(** C5, at the failing input.  The record with notice date "18/07/2025" is
    saved and read back by identifier.  On a server in India (330 minutes
    east of UTC) the date read back is 17 July 2025; on a server at UTC, or
    300 minutes west of it, it is 18 July 2025. *)
Theorem notice_date_read_back_east_of_utc :
  read_back_date 330 = Some (str "2025-07-17")
  /\ read_back_date 0 = Some (str "2025-07-18")
  /\ read_back_date (-300) = Some (str "2025-07-18").
Proof. vm_compute. repeat split. Qed.

(** ** Saving and geocoding *)

Lemma auto_geocode_failure (now : Z) (geocode : jstr -> value -> outcome value)
    (saved_id : jstr) (extractedData : value) (d : db) :
  (forall name district l,
     geocode name district = Ok (VObj l) -> truthy (get l k_success) = false) ->
  auto_geocode now geocode saved_id extractedData d = d.
Proof.
  intros Hfail. unfold auto_geocode.
  destruct (prop extractedData k_village_name) as [[]|]; try done.
  destruct (_ <=? _)%nat; [|done].
  match goal with |- context [geocode ?n ?dd] =>
    destruct (geocode n dd) as [[]|] eqn:Hg; try done end.
  by rewrite (Hfail _ _ _ Hg).
Qed.

(** Whatever way the geocoder fails, a save that the store accepts answers
    200 and leaves the record as it was written: the geocoding status is the
    one of the request, or "pending". *)
Lemma save_survives_geocoding_failure (tz : Z) (new_id new_log_id : jstr) (now now' : Z)
    (geocode : jstr -> value -> outcome value) (req_body : obj) (d d1 : db)
    (saved : notice_view) :
  truthy (get req_body (js "extractedData")) = true ->
  savePropertyNotice tz new_id new_log_id now (data_to_save req_body) d = Ok (d1, saved) ->
  (forall name district l,
     geocode name district = Ok (VObj l) -> truthy (get l k_success) = false) ->
  let result := save_notice tz new_id new_log_id now now' geocode req_body d in
  http_status result.1 = 200%Z
  /\ result.2 = d1
  /\ getPropertyNoticeById new_id result.2 = Some saved
  /\ geocoding_status (doc saved) =
       or_else (default VUndefined
                  (from_ok (prop (get req_body (js "extractedData")) (js "geocoding_status"))))
               (str "pending").
Proof.
  intros Hdata Hsave Hfail result. subst result. unfold save_notice.
  rewrite Hdata. simpl negb. cbv iota. rewrite Hsave.
  rewrite auto_geocode_failure by done.
  destruct (save_stores_the_record _ _ _ _ _ _ _ _ Hsave)
    as (Hget & _ & _ & _ & gs & Hgs & Hst).
  assert (Hd : (if truthy (default VUndefined
                   (from_ok (prop (get req_body (js "extractedData")) k_village_name)))
              then d1 else d1) = d1).
  { match goal with |- (if ?c then _ else _) = _ => destruct c end; reflexivity. }
  rewrite Hd. simpl.
  split; [reflexivity|]. split; [reflexivity|]. split; [exact Hget|].
  simpl in Hgs. rewrite Hgs. exact Hst.
Qed.

(** C6, at the failing input.  The sample body is posted to the save route
    while the geocoder is unreachable, or finds nothing: the response is
    200 and the record is stored, but its [geocoding_status] is "pending",
    the value written before geocoding was tried.  When the geocoder
    answers, the status becomes "success". *)
Theorem failed_geocoding_leaves_status_pending :
  saved_status geocoder_unreachable = (200%Z, Some (str "pending"))
  /\ saved_status geocoder_finds_nothing = (200%Z, Some (str "pending"))
  /\ saved_status geocoder_finds_ribda = (200%Z, Some (str "success")).
Proof. vm_compute. repeat split. Qed.

(** ** Deleting *)

Lemma elem_of_logs_of (i : jstr) (logs : gmap N log_entry) (ref : N) :
  ref ∈ logs_of i logs <->
  exists e, logs !! ref = Some e /\ property_notice_id e = i.
Proof.
  unfold logs_of. rewrite list_elem_of_fmap. split.
  - intros [[r e] [-> H]]. apply elem_of_map_to_list in H.
    apply map_lookup_filter_Some in H as [H1 H2]. eauto.
  - intros [e [H1 H2]]. exists (ref, e). split; [done|].
    apply elem_of_map_to_list, map_lookup_filter_Some. done.
Qed.

Lemma lookup_batch_commit (refs : list N) (logs : gmap N log_entry) (ref : N) :
  batch_commit refs logs !! ref = if decide (ref ∈ refs) then None else logs !! ref.
Proof.
  unfold batch_commit. induction refs as [|r refs IH]; simpl.
  - destruct (decide (ref ∈ [])) as [H|]; [|reflexivity].
    by apply elem_of_nil in H.
  - destruct (decide (r = ref)) as [->|Hne].
    + rewrite lookup_delete_eq.
      destruct (decide (ref ∈ ref :: refs)) as [|H]; [done|].
      exfalso. apply H. apply elem_of_cons. by left.
    + rewrite lookup_delete_ne by done. rewrite IH.
      destruct (decide (ref ∈ refs)) as [H|H], (decide (ref ∈ r :: refs)) as [H'|H'];
        try reflexivity.
      * exfalso. apply H'. apply elem_of_cons. by right.
      * apply elem_of_cons in H' as [->|]; done.
Qed.





(** Save two notices, delete the first: its record and its log entry are
    gone, the second notice keeps both. *)
Example delete_sample :
  let other_id := js "c4a1d2e3-0000-4000-8000-000000000002" in
  let d2 :=
    match savePropertyNotice 330 sample_id sample_log_id sample_now sample_request empty_db with
    | Ok (d1, _) =>
      match savePropertyNotice 330 other_id (js "log-2") sample_now sample_request d1 with
      | Ok (d2, _) => d2
      | Throw _ => d1
      end
    | Throw _ => empty_db
    end in
  let '(deleted, d3) := deletePropertyNotice sample_id d2 in
  deleted = true
  /\ size (property_notices d2) = 2%nat /\ size (processing_logs d2) = 2%nat
  /\ size (property_notices d3) = 1%nat /\ size (processing_logs d3) = 1%nat
  /\ is_Some (getPropertyNoticeById other_id d3)
  /\ fst (deletePropertyNotice sample_id d3) = false.
Proof. vm_compute. repeat split; eauto. Qed.

(* ===================================================================== *)
(** * The calendar, and the round trip of a notice date                   *)
(* ===================================================================== *)

Import TextStatements DateStatements Samples.

Section Calendar.

Local Open Scope Z_scope.

Lemma DayFromYear_step (y : Z) :
  365 <= DayFromYear (y + 1) - DayFromYear y <= 366.
Proof.
  unfold DayFromYear. Z.div_mod_to_equations. lia.
Qed.

Lemma DayFromYear_leap (y : Z) :
  DayFromYear (y + 1) - DayFromYear y = if InLeapYear y then 366 else 365.
Proof.
  unfold DayFromYear, InLeapYear.
  destruct (Z.eqb_spec (y mod 4) 0), (Z.eqb_spec (y mod 100) 0), (Z.eqb_spec (y mod 400) 0);
    simpl; Z.div_mod_to_equations; lia.
Qed.

Lemma year_search_found (fuel : nat) (d y : Z) :
  year_of d y -> year_search fuel d y = y.
Proof.
  intros [Hlo Hhi]. destruct fuel as [|fuel]; simpl; [reflexivity|].
  destruct (Z.ltb_spec d (DayFromYear y)); [lia|].
  destruct (Z.leb_spec (DayFromYear (y + 1)) d); [lia|reflexivity].
Qed.

Lemma year_search_down (fuel : nat) : forall d y,
  d < DayFromYear y -> DayFromYear y - d <= 365 * Z.of_nat fuel ->
  year_of d (year_search fuel d y).
Proof.
  induction fuel as [|fuel IH]; intros d y Hlt Hfuel; [lia|].
  simpl. destruct (Z.ltb_spec d (DayFromYear y)); [|lia].
  pose proof (DayFromYear_step (y - 1)) as Hstep.
  replace (y - 1 + 1) with y in Hstep by lia.
  destruct (Z_lt_le_dec d (DayFromYear (y - 1))) as [Hd|Hd].
  - apply IH; lia.
  - rewrite year_search_found; unfold year_of; replace (y - 1 + 1) with y by lia; lia.
Qed.

Lemma year_search_up (fuel : nat) : forall d y,
  DayFromYear y <= d -> d - DayFromYear y <= 365 * Z.of_nat fuel ->
  year_of d (year_search fuel d y).
Proof.
  induction fuel as [|fuel IH]; intros d y Hle Hfuel.
  - simpl. pose proof (DayFromYear_step y). unfold year_of. lia.
  - simpl. destruct (Z.ltb_spec d (DayFromYear y)); [lia|].
    pose proof (DayFromYear_step y) as Hstep.
    destruct (Z.leb_spec (DayFromYear (y + 1)) d).
    + apply IH; lia.
    + unfold year_of. lia.
Qed.

Lemma YearFromDay_spec (d : Z) :
  -100000000 <= d <= 100000000 -> year_of d (YearFromDay d).
Proof.
  intros Hd. unfold YearFromDay.
  destruct (Z_lt_le_dec d (DayFromYear (1970 + d / 365))) as [H|H].
  - apply year_search_down; [exact H|].
    unfold DayFromYear in *. Z.div_mod_to_equations. lia.
  - apply year_search_up; [exact H|].
    unfold DayFromYear in *. Z.div_mod_to_equations. lia.
Qed.

Lemma year_of_unique (d y y' : Z) : year_of d y -> year_of d y' -> y = y'.
Proof.
  unfold year_of. intros H H'.
  assert (Hmono : forall a b, a <= b -> DayFromYear a <= DayFromYear b).
  { intros a b Hab. unfold DayFromYear. Z.div_mod_to_equations. lia. }
  destruct (Z_lt_le_dec y y') as [Hlt|Hge].
  - pose proof (Hmono (y + 1) y' ltac:(lia)). lia.
  - destruct (Z_lt_le_dec y' y) as [Hlt|Hge']; [|lia].
    pose proof (Hmono (y' + 1) y ltac:(lia)). lia.
Qed.

Lemma YearFromDay_unique (d y : Z) :
  -100000000 <= d <= 100000000 -> year_of d y -> YearFromDay d = y.
Proof.
  intros Hd Hy. apply (year_of_unique d); [by apply YearFromDay_spec|exact Hy].
Qed.

Lemma month_of_day (d y : Z) :
  -100000000 <= d <= 100000000 -> year_of d y ->
  let m := MonthFromDay d in
  let w := d - DayFromYear y in
  0 <= m <= 11
  /\ days_before_month m (InLeapYear y) <= w
       < days_before_month m (InLeapYear y) + month_length (InLeapYear y) m.
Proof.
  intros Hd Hy. unfold MonthFromDay. rewrite (YearFromDay_unique d y Hd Hy).
  pose proof (DayFromYear_leap y) as Hlen. destruct Hy as [Hlo Hhi].
  set (w := d - DayFromYear y). assert (Hw : 0 <= w < if InLeapYear y then 366 else 365).
  { subst w. destruct (InLeapYear y); lia. }
  clearbody w. clear Hlo Hhi Hlen Hd.
  destruct (InLeapYear y); cbn -[Z.leb];
    repeat match goal with
           | |- context [Z.leb ?a ?b] => destruct (Z.leb_spec a b)
           end;
    repeat match goal with
           | H : context [days_before_month ?m ?l] |- _ =>
             let v := eval vm_compute in (days_before_month m l) in
             change (days_before_month m l) with v in H
           | |- context [days_before_month ?m ?l] =>
             let v := eval vm_compute in (days_before_month m l) in
             change (days_before_month m l) with v
           | |- context [month_length ?l ?m] =>
             let v := eval vm_compute in (month_length l m) in
             change (month_length l m) with v
           end; lia.
Qed.

Ltac eval_calendar :=
  repeat match goal with
         | H : context [days_before_month ?m ?l] |- _ =>
           let v := eval vm_compute in (days_before_month m l) in
           change (days_before_month m l) with v in H
         | H : context [month_length ?l ?m] |- _ =>
           let v := eval vm_compute in (month_length l m) in
           change (month_length l m) with v in H
         | |- context [days_before_month ?m ?l] =>
           let v := eval vm_compute in (days_before_month m l) in
           change (days_before_month m l) with v
         | |- context [month_length ?l ?m] =>
           let v := eval vm_compute in (month_length l m) in
           change (month_length l m) with v
         end.

Ltac month_cases m :=
  let H := fresh in
  assert (H : m = 0 \/ m = 1 \/ m = 2 \/ m = 3 \/ m = 4 \/ m = 5 \/ m = 6
              \/ m = 7 \/ m = 8 \/ m = 9 \/ m = 10 \/ m = 11) by lia;
  destruct H as [->|[->|[->|[->|[->|[->|[->|[->|[->|[->|[->| ->]]]]]]]]]]].

Lemma MakeDay_in_year (y m dt : Z) :
  0 <= m <= 11 ->
  MakeDay y m dt = DayFromYear y + days_before_month m (InLeapYear y) + dt - 1.
Proof.
  intros Hm. unfold MakeDay.
  replace (m / 12) with 0 by (Z.div_mod_to_equations; lia).
  replace (m mod 12) with m by (Z.div_mod_to_equations; lia).
  replace (y + 0) with y by lia. reflexivity.
Qed.

Lemma calendar_decode_encode (y m dt : Z) :
  -270000 <= y <= 270000 -> 0 <= m <= 11 ->
  1 <= dt <= month_length (InLeapYear y) m ->
  let D := MakeDay y m dt in
  YearFromDay D = y /\ MonthFromDay D = m /\ DateFromDay D = dt.
Proof.
  intros Hy Hm Hdt D. subst D. rewrite MakeDay_in_year by done.
  set (D := DayFromYear y + days_before_month m (InLeapYear y) + dt - 1).
  pose proof (DayFromYear_leap y) as Hlen.
  assert (Hyear : year_of D y).
  { unfold year_of. subst D. revert Hdt Hlen.
    month_cases m; destruct (InLeapYear y); intros; eval_calendar; lia. }
  assert (HD : -100000000 <= D <= 100000000).
  { destruct Hyear as [Hlo Hhi].
    assert (-100000000 <= DayFromYear y) by (unfold DayFromYear; Z.div_mod_to_equations; lia).
    assert (DayFromYear (y + 1) <= 100000000)
      by (unfold DayFromYear; Z.div_mod_to_equations; lia).
    lia. }
  pose proof (YearFromDay_unique D y HD Hyear) as EY.
  destruct (month_of_day D y HD Hyear) as [Hm' Hw].
  assert (EM : MonthFromDay D = m).
  { revert Hm' Hw. generalize (MonthFromDay D). intros m' Hm' Hw.
    subst D. clear Hyear HD EY Hlen.
    replace (DayFromYear y + days_before_month m (InLeapYear y) + dt - 1 - DayFromYear y)
      with (days_before_month m (InLeapYear y) + dt - 1) in Hw by lia.
    revert Hdt Hw.
    month_cases m; month_cases m'; destruct (InLeapYear y); intros;
      eval_calendar; lia. }
  split; [exact EY|]. split; [exact EM|].
  unfold DateFromDay. rewrite EY, EM. subst D. lia.
Qed.

Lemma calendar_encode_decode (D : Z) :
  -100000000 <= D <= 100000000 ->
  let y := YearFromDay D in
  let m := MonthFromDay D in
  let dt := DateFromDay D in
  0 <= m <= 11
  /\ 1 <= dt <= month_length (InLeapYear y) m
  /\ MakeDay y m dt = D.
Proof.
  intros HD y m dt.
  pose proof (YearFromDay_spec D HD) as Hyear. fold y in Hyear.
  destruct (month_of_day D y HD Hyear) as [Hm Hw]. fold m in Hm, Hw.
  split; [exact Hm|].
  assert (Edt : dt = D - DayFromYear y - days_before_month m (InLeapYear y) + 1)
    by reflexivity.
  split; [lia|]. rewrite MakeDay_in_year by done. lia.
Qed.

Lemma valid_date_day (y m d : Z) :
  valid_date y m d ->
  -683003 <= MakeDay y (m - 1) d <= 2932896.
Proof.
  intros (Hy & Hm & Hd). rewrite MakeDay_in_year by lia.
  assert (DayFromYear 100 <= DayFromYear y)
    by (unfold DayFromYear; Z.div_mod_to_equations; lia).
  assert (DayFromYear (y + 1) <= DayFromYear 10000)
    by (unfold DayFromYear; Z.div_mod_to_equations; lia).
  pose proof (DayFromYear_leap y) as Hlen.
  change (DayFromYear 100) with (-683003) in *.
  change (DayFromYear 10000) with 2932897 in *.
  revert Hd Hlen. set (m' := m - 1). assert (0 <= m' <= 11) by lia. clearbody m'.
  month_cases m'; destruct (InLeapYear y); intros; eval_calendar; lia.
Qed.

Lemma convert_valid_date (tz : Z) (text p0 p1 p2 : jstr) (y m d : Z) :
  split_on 47 text = [p0; p1; p2] ->
  parseInt p0 = Some d -> parseInt p1 = Some m -> parseInt p2 = Some y ->
  valid_date y m d -> -720 <= tz <= 840 ->
  convert_notice_date tz (VStr text)
    = Ok (Some (MakeDay y (m - 1) d * msPerDay - tz * 60000)).
Proof.
  intros Hsplit Hd Hm Hy Hvalid Htz.
  pose proof (valid_date_day y m d Hvalid) as HD.
  unfold convert_notice_date.
  destruct text as [|c text]; [discriminate Hsplit|]. simpl truthy. simpl negb. cbv iota.
  rewrite Hsplit, Hd, Hm, Hy. simpl fmap.
  unfold new_Date. destruct Hvalid as (Hyr & _ & _).
  destruct (Z.leb_spec 0 y); [|lia]. destruct (Z.leb_spec y 99); [lia|]. simpl andb. cbv iota.
  unfold TimeClip, msPerDay in *.
  set (D := MakeDay y (m - 1) d) in *.
  destruct (Z.ltb_spec 8640000000000000 (Z.abs (D * 86400000 - tz * 60000))); [lia|].
  unfold storable.
  assert ((-62135596800 <= (D * 86400000 - tz * 60000) / 1000)%Z)
    by (apply Z.div_le_lower_bound; lia).
  assert (((D * 86400000 - tz * 60000) / 1000 <= 253402300799)%Z)
    by (apply Z.div_le_upper_bound; lia).
  destruct (Z.leb_spec (-62135596800) ((D * 86400000 - tz * 60000) / 1000)); [|lia].
  destruct (Z.leb_spec ((D * 86400000 - tz * 60000) / 1000) 253402300799); [|lia].
  reflexivity.
Qed.

Lemma iso_day_of_valid_date (y m d : Z) :
  valid_date y m d -> iso_day (MakeDay y (m - 1) d) = iso_date y m d.
Proof.
  intros (Hy & Hm & Hd).
  destruct (calendar_decode_encode y (m - 1) d) as (EY & EM & ED); [lia|lia|done|].
  unfold iso_day, iso_date. rewrite EY, EM, ED.
  destruct (Z.leb_spec 0 y); [|lia]. destruct (Z.leb_spec y 9999); [|lia]. simpl.
  replace (m - 1 + 1) with m by lia. reflexivity.
Qed.


Lemma pad2_inj (a b : Z) :
  0 <= a < 100 -> 0 <= b < 100 -> pad_digits 2 a [] = pad_digits 2 b [] -> a = b.
Proof.
  intros Ha Hb. simpl. intros [= H1 H2].
  apply Z2N.inj in H1; [|Z.div_mod_to_equations; lia..].
  apply Z2N.inj in H2; [|Z.div_mod_to_equations; lia..].
  Z.div_mod_to_equations. lia.
Qed.

Lemma pad4_inj (a b : Z) :
  0 <= a < 10000 -> 0 <= b < 10000 -> pad_digits 4 a [] = pad_digits 4 b [] -> a = b.
Proof.
  intros Ha Hb. simpl. intros [= H1 H2 H3 H4].
  apply Z2N.inj in H1; [|Z.div_mod_to_equations; lia..].
  apply Z2N.inj in H2; [|Z.div_mod_to_equations; lia..].
  apply Z2N.inj in H3; [|Z.div_mod_to_equations; lia..].
  apply Z2N.inj in H4; [|Z.div_mod_to_equations; lia..].
  Z.div_mod_to_equations. lia.
Qed.


Lemma pad_digits_length (w : nat) (n : Z) (acc : jstr) :
  length (pad_digits w n acc) = (w + length acc)%nat.
Proof.
  revert n acc. induction w as [|w IH]; intros n acc; simpl; [done|].
  rewrite IH. simpl. lia.
Qed.

Lemma iso_date_inj (y m d y' m' d' : Z) :
  0 <= y < 10000 -> 0 <= y' < 10000 ->
  0 <= m < 100 -> 0 <= m' < 100 -> 0 <= d < 100 -> 0 <= d' < 100 ->
  iso_date y m d = iso_date y' m' d' -> y = y' /\ m = m' /\ d = d'.
Proof.
  intros Hy Hy' Hm Hm' Hd Hd'. unfold iso_date. intros H.
  assert (H' : pad_digits 4 y [] = pad_digits 4 y' []
               /\ pad_digits 2 m [] = pad_digits 2 m' []
               /\ pad_digits 2 d [] = pad_digits 2 d' []).
  { simpl in *. injection H as -> -> -> -> -> -> -> ->. done. }
  destruct H' as (H1 & H2 & H3).
  split; [by apply pad4_inj|]. split; by apply pad2_inj.
Qed.

Lemma iso_date_of_other_day (y m d y' m' d' : Z) :
  valid_date y m d -> 0 <= y' <= 9999 -> 0 <= m' <= 11 ->
  1 <= d' <= month_length (InLeapYear y') m' ->
  MakeDay y' m' d' <> MakeDay y (m - 1) d ->
  iso_date y' (m' + 1) d' <> iso_date y m d.
Proof.
  intros (Hy & Hm & Hd) Hy' Hm' Hd' Hne E.
  assert (Hlen : 28 <= month_length (InLeapYear y') m' <= 31).
  { unfold month_length.
    repeat match goal with |- context [if ?c then _ else _] => destruct c end; lia. }
  assert (Hlen2 : 28 <= month_length (InLeapYear y) (m - 1) <= 31).
  { unfold month_length.
    repeat match goal with |- context [if ?c then _ else _] => destruct c end; lia. }
  apply (iso_date_inj y' (m' + 1) d' y m d) in E as (E1 & E2 & E3); try lia.
  apply Hne. rewrite E1, E3. f_equal. lia.
Qed.

Lemma iso_day_fields (D : Z) :
  0 <= YearFromDay D <= 9999 ->
  iso_day D = iso_date (YearFromDay D) (MonthFromDay D + 1) (DateFromDay D).
Proof.
  intros [H0 H1]. unfold iso_day, iso_date.
  apply Z.leb_le in H0, H1. rewrite H0, H1. reflexivity.
Qed.

Lemma year_in_range (D : Z) :
  -683004 <= D <= 2932896 -> 0 <= YearFromDay D <= 9999.
Proof.
  intros HD. pose proof (YearFromDay_spec D ltac:(lia)) as Hyear.
  revert Hyear. generalize (YearFromDay D). intros y' [Hlo Hhi].
  unfold DayFromYear in Hlo, Hhi. Z.div_mod_to_equations. lia.
Qed.

Lemma iso_day_previous (y m d : Z) :
  valid_date y m d -> iso_day (MakeDay y (m - 1) d - 1) <> iso_date y m d.
Proof.
  intros Hvalid. pose proof (valid_date_day y m d Hvalid) as HD.
  assert (HD1 : -100000000 <= MakeDay y (m - 1) d - 1 <= 100000000) by lia.
  pose proof (calendar_encode_decode _ HD1) as (Hm' & Hd' & Hmake).
  pose proof (year_in_range (MakeDay y (m - 1) d - 1) ltac:(lia)) as Hy'.
  rewrite iso_day_fields by exact Hy'.
  apply iso_date_of_other_day; try done. rewrite Hmake. lia.
Qed.

Lemma utc_day_of_local_midnight (D tz : Z) :
  -720 <= tz <= 840 ->
  (D * msPerDay - tz * 60000) / msPerDay = if 0 <? tz then D - 1 else D.
Proof.
  intros Htz. unfold msPerDay. destruct (Z.ltb_spec 0 tz).
  - symmetry. apply Z.div_unique with (r := 86400000 - tz * 60000); lia.
  - symmetry. apply Z.div_unique with (r := - tz * 60000); lia.
Qed.

(** X1.  A notice date written as day/month/year, naming a day of the calendar
    in a year from 100 to 9999, is stored by a save on a server [tz] minutes
    east of UTC (between 720 west and 840 east), and the record read back by
    its identifier shows as its notice date that same day when the server is
    at UTC or west of it, and the day before when the server is east of UTC:
    east of UTC the date read back is never the date of the notice. *)
Theorem notice_date_round_trip (tz : Z) (new_id new_log_id : jstr) (now : Z)
    (rq : save_request) (st : db) (o : obj) (text p0 p1 p2 : jstr) (y m d : Z) :
  rq_extracted_data rq = VObj o ->
  rq_raw_text rq <> VUndefined ->
  get o k_notice_date = VStr text ->
  split_on 47 text = [p0; p1; p2] ->
  parseInt p0 = Some d -> parseInt p1 = Some m -> parseInt p2 = Some y ->
  valid_date y m d ->
  -720 <= tz <= 840 ->
  exists st' saved,
    savePropertyNotice tz new_id new_log_id now rq st = Ok (st', saved)
    /\ getPropertyNoticeById new_id st' = Some saved
    /\ notice_date_iso saved =
         VStr (if 0 <? tz then iso_day (MakeDay y (m - 1) d - 1) else iso_date y m d)
    /\ (0 < tz -> notice_date_iso saved <> VStr (iso_date y m d)).
Proof.
  intros Ho Hraw Htext Hsplit Hd Hm Hy Hvalid Htz.
  pose proof (convert_valid_date tz text p0 p1 p2 y m d Hsplit Hd Hm Hy Hvalid Htz) as Hconv.
  rewrite <- Htext in Hconv.
  destruct (save_succeeds tz new_id new_log_id now rq st o _ Ho Hconv Hraw)
    as (st' & saved & Hsave).
  exists st', saved. split; [exact Hsave|].
  destruct (save_stores_the_record _ _ _ _ _ _ _ _ Hsave)
    as (Hget & Hview & _ & (nd & Hnd & Hconv') & _).
  split; [exact Hget|].
  rewrite Ho in Hnd. simpl in Hnd. injection Hnd as <-.
  rewrite Hconv in Hconv'. injection Hconv' as Hdate.
  assert (Eiso : notice_date_iso saved =
            VStr (if 0 <? tz then iso_day (MakeDay y (m - 1) d - 1) else iso_date y m d)).
  { rewrite Hview. unfold view, notice_date_iso. rewrite <- Hdate.
    rewrite before_T_toISOString, utc_day_of_local_midnight by done.
    destruct (0 <? tz); [reflexivity|]. by rewrite iso_day_of_valid_date. }
  split; [exact Eiso|].
  intros Heast. rewrite Eiso. apply Z.ltb_lt in Heast. rewrite Heast.
  intros [= E]. by apply (iso_day_previous y m d).
Qed.

(** A run of X1: the sample record, saved on a server in India, comes
    back with the day before the date of the notice. *)
Lemma notice_date_round_trip_witness :
  exists st' saved,
    savePropertyNotice 330 sample_id sample_log_id sample_now sample_request empty_db
      = Ok (st', saved)
    /\ getPropertyNoticeById sample_id st' = Some saved
    /\ notice_date_iso saved = str "2025-07-17"
    /\ notice_date_iso saved <> VStr (iso_date 2025 7 18).
Proof.
  destruct (notice_date_round_trip 330 sample_id sample_log_id sample_now sample_request
              empty_db sample_fields (js "18/07/2025") (js "18") (js "07") (js "2025")
              2025 7 18)
    as (st' & saved & Hsave & Hget & Hiso & Hne).
  - reflexivity.
  - discriminate.
  - vm_compute. reflexivity.
  - vm_compute. reflexivity.
  - vm_compute. reflexivity.
  - vm_compute. reflexivity.
  - vm_compute. reflexivity.
  - unfold valid_date. split; [lia|]. split; [lia|]. vm_compute. split; discriminate.
  - lia.
  - exists st', saved. split; [exact Hsave|]. split; [exact Hget|].
    split; [rewrite Hiso; vm_compute; reflexivity|]. apply Hne. lia.
Defined.

End Calendar.

(* ===================================================================== *)
(** * The store: what a save writes, and its deletion                     *)
(* ===================================================================== *)


Lemma save_state (tz : Z) (new_id new_log_id : jstr) (now : Z)
    (rq : save_request) (d d' : db) (v : notice_view) :
  savePropertyNotice tz new_id new_log_id now rq d = Ok (d', v) ->
  property_notices d' = <[new_id := doc v]> (property_notices d)
  /\ exists e,
       processing_logs d' = <[fresh (dom (processing_logs d)) := e]> (processing_logs d)
       /\ log_id e = new_log_id
       /\ property_notice_id e = new_id
       /\ processing_step e = js "EXTRACTION_COMPLETED"
       /\ status e = js "success"
       /\ created_at e = now.
Proof.
  unfold savePropertyNotice, try_catch.
  match goal with |- context [match ?b with Ok _ => _ | Throw _ => _ end] =>
    destruct b as [[d1 v1]|] eqn:Hbody; [|discriminate] end.
  intros [= <- <-].
  step_binds Hbody.
  injection Hbody as <- <-.
  unfold logProcessingStep. simpl. split; [reflexivity|].
  eexists. split; [reflexivity|]. simpl. repeat split.
Qed.

Lemma fresh_log_ref (logs : gmap N log_entry) : logs !! fresh (dom logs) = None.
Proof. apply not_elem_of_dom, is_fresh. Qed.

(** X2.  A save that the store accepts writes the returned document under the
    new identifier, leaves every other notice as it was, and adds exactly one
    log entry, under a reference that was free; the entry names the new
    notice, the step EXTRACTION_COMPLETED and the status success.  No earlier
    log entry is changed. *)
Theorem save_adds_one_record_and_one_log_entry (tz : Z) (new_id new_log_id : jstr)
    (now : Z) (rq : save_request) (d d' : db) (saved : notice_view) :
  savePropertyNotice tz new_id new_log_id now rq d = Ok (d', saved) ->
  property_notices d' !! new_id = Some (doc saved)
  /\ (forall j, j <> new_id -> property_notices d' !! j = property_notices d !! j)
  /\ size (processing_logs d') = S (size (processing_logs d))
  /\ (forall ref e, processing_logs d !! ref = Some e -> processing_logs d' !! ref = Some e)
  /\ exists ref e,
       processing_logs d !! ref = None
       /\ processing_logs d' !! ref = Some e
       /\ property_notice_id e = new_id
       /\ processing_step e = js "EXTRACTION_COMPLETED"
       /\ status e = js "success".
Proof.
  intros Hsave. destruct (save_state _ _ _ _ _ _ _ _ Hsave) as (Hn & e & Hl & _ & He1 & He2 & He3 & _).
  pose proof (fresh_log_ref (processing_logs d)) as Hfresh.
  rewrite Hn, Hl. split; [by rewrite lookup_insert_eq|].
  split; [intros j Hj; by rewrite lookup_insert_ne|].
  split; [by rewrite map_size_insert_None|].
  split.
  - intros ref e' He'. rewrite lookup_insert_ne; [done|]. intros <-. congruence.
  - exists (fresh (dom (processing_logs d))), e. rewrite lookup_insert_eq. done.
Qed.

(** A run of X2: the sample record saved into an empty store. *)
Lemma save_adds_one_record_and_one_log_entry_witness :
  property_notices sample_store !! sample_id = Some sample_doc
  /\ size (processing_logs sample_store) = 1%nat.
Proof.
  destruct (save_adds_one_record_and_one_log_entry 330 sample_id sample_log_id sample_now
              sample_request empty_db sample_store (view sample_doc))
    as (Hrecord & _ & Hsize & _).
  - vm_compute. reflexivity.
  - split; [exact Hrecord|exact Hsize].
Defined.

(** X3.  Saving under an identifier that the store does not hold and to which
    no log entry refers, and then deleting that identifier, gives back the
    store as it was before the save; the deletion answers [true]. *)
Theorem delete_undoes_save (tz : Z) (new_id new_log_id : jstr) (now : Z)
    (rq : save_request) (d d' : db) (saved : notice_view) :
  property_notices d !! new_id = None ->
  (forall ref e, processing_logs d !! ref = Some e -> property_notice_id e <> new_id) ->
  savePropertyNotice tz new_id new_log_id now rq d = Ok (d', saved) ->
  deletePropertyNotice new_id d' = (true, d).
Proof.
  intros Hnew Hlogs Hsave.
  destruct (save_state _ _ _ _ _ _ _ _ Hsave) as (Hn & e & Hl & _ & He1 & _).
  pose proof (fresh_log_ref (processing_logs d)) as Hfresh.
  unfold deletePropertyNotice. rewrite Hn, lookup_insert_eq. f_equal.
  destruct d as [notices logs]. simpl in *. f_equal.
  - by apply delete_insert_id.
  - rewrite Hl. apply map_eq. intros ref. rewrite lookup_batch_commit.
    destruct (decide (ref ∈ logs_of new_id (<[fresh (dom logs) := e]> logs))) as [Hin|Hout].
    + apply elem_of_logs_of in Hin as (e' & He' & Hid).
      destruct (decide (ref = fresh (dom logs))) as [->|Hne]; [by rewrite Hfresh|].
      rewrite lookup_insert_ne in He' by done. by destruct (Hlogs ref e' He').
    + destruct (decide (ref = fresh (dom logs))) as [->|Hne].
      * exfalso. apply Hout. apply elem_of_logs_of. exists e.
        by rewrite lookup_insert_eq.
      * by rewrite lookup_insert_ne.
Qed.

(** A run of X3: deleting the sample record gives the empty store back. *)
Lemma delete_undoes_save_witness :
  deletePropertyNotice sample_id sample_store = (true, empty_db).
Proof.
  apply (delete_undoes_save 330 sample_id sample_log_id sample_now sample_request
           empty_db sample_store (view sample_doc)).
  - reflexivity.
  - intros ref e H. vm_compute in H. discriminate H.
  - vm_compute. reflexivity.
Defined.

(* ===================================================================== *)
(** * The name cleaners and the fence stripper                            *)
(* ===================================================================== *)

Lemma star_run (cls : N -> bool) (bol : bool) (s : jstr) :
  match_here [Star cls] bol s = Some (run cls s).
Proof.
  revert bol. induction s as [|x s IH]; intros bol; simpl; [reflexivity|].
  destruct (cls x); [|reflexivity].
  specialize (IH false). simpl in IH. rewrite IH. reflexivity.
Qed.

Lemma plus_run (cls : N -> bool) (bol : bool) (s : jstr) :
  match_here (plus cls) bol s =
  match s with
  | x :: s' => if cls x then Some (S (run cls s')) else None
  | [] => None
  end.
Proof.
  destruct s as [|x s]; [reflexivity|].
  unfold plus. change (match_here [One cls; Star cls] bol (x :: s))
    with (if cls x then S <$> match_here [Star cls] false s else None).
  destruct (cls x); [|reflexivity]. by rewrite star_run.
Qed.

Lemma replace_all_plus (cls : N -> bool) (rep : jstr) (s : jstr) :
  (forall bol, replace_all_from (plus cls) rep bol (run cls s) s = squeeze cls rep true s)
  /\ (forall bol, replace_all_from (plus cls) rep bol 0 s = squeeze cls rep false s).
Proof.
  induction s as [|x s [IHA IHB]].
  - split; intros bol; reflexivity.
  - assert (B : forall bol,
      replace_all_from (plus cls) rep bol 0 (x :: s) = squeeze cls rep false (x :: s)).
    { intros bol. cbn [replace_all_from]. rewrite plus_run. cbn [squeeze].
      destruct (cls x).
      - by rewrite IHA.
      - by rewrite IHB. }
    split; [|exact B].
    intros bol. cbn [run squeeze]. destruct (cls x) eqn:Ex.
    + cbn [replace_all_from]. apply IHA.
    + rewrite B. cbn [squeeze]. by rewrite Ex.
Qed.

Lemma replace_all_plus_squeeze (cls : N -> bool) (rep s : jstr) :
  replace_all (plus cls) rep s = squeeze cls rep false s.
Proof. apply replace_all_plus. Qed.


Lemma squeeze_removes (cls : N -> bool) (b : bool) (s : jstr) :
  forallb (fun c => negb (cls c)) (squeeze cls [] b s) = true.
Proof.
  revert b. induction s as [|x s IH]; intros b; simpl; [reflexivity|].
  destruct (cls x) eqn:Ex.
  - destruct b; apply IH.
  - simpl. rewrite Ex. simpl. apply IH.
Qed.

Lemma squeeze_forallb (P cls : N -> bool) (rep : jstr) (b : bool) (s : jstr) :
  forallb P rep = true -> forallb P s = true -> forallb P (squeeze cls rep b s) = true.
Proof.
  intros Hrep. revert b. induction s as [|x s IH]; intros b Hs; simpl; [reflexivity|].
  simpl in Hs. apply andb_true_iff in Hs as [Hx Hs].
  destruct (cls x).
  - destruct b; [by apply IH|]. rewrite forallb_app, Hrep. by apply IH.
  - simpl. rewrite Hx. by apply IH.
Qed.

Lemma squeeze_spaced (b : bool) (s : jstr) :
  spaced_ok (squeeze is_space [32] b s) = true
  /\ (b = true -> head_not_space (squeeze is_space [32] b s) = true).
Proof.
  revert b. induction s as [|x s IH]; intros b; simpl; [done|].
  destruct (is_space x) eqn:Ex.
  - destruct b.
    + apply IH.
    + destruct (IH true) as [IH1 IH2]. specialize (IH2 eq_refl).
      split; [|done]. simpl. rewrite IH1, andb_true_r.
      unfold head_not_space in IH2. exact IH2.
  - destruct (IH false) as [IH1 _]. split.
    + simpl. by rewrite Ex, IH1.
    + intros _. simpl. by rewrite Ex.
Qed.

Lemma trim_start_spec (s : jstr) :
  exists w, s = w ++ trim_start s
    /\ forallb is_space w = true
    /\ head_not_space (trim_start s) = true.
Proof.
  induction s as [|c s (w & E & Hw & Hh)]; simpl.
  - by exists [].
  - destruct (is_space c) eqn:Ec.
    + exists (c :: w). simpl. rewrite Ec, Hw. split; [by rewrite <- E|done].
    + exists []. simpl. by rewrite Ec.
Qed.

Lemma trim_end_spec (s : jstr) :
  exists w, s = trim_end s ++ w
    /\ forallb is_space w = true
    /\ head_not_space (rev (trim_end s)) = true.
Proof.
  unfold trim_end. destruct (trim_start_spec (rev s)) as (w & E & Hw & Hh).
  exists (rev w). split; [|split].
  - rewrite <- rev_app_distr, <- E. by rewrite rev_involutive.
  - rewrite forallb_forall in *. intros x Hx. apply Hw. by apply in_rev.
  - by rewrite rev_involutive.
Qed.

Lemma spaced_ok_app_r (w t : jstr) : spaced_ok (w ++ t) = true -> spaced_ok t = true.
Proof.
  induction w as [|c w IH]; simpl; [done|].
  intros H. apply andb_true_iff in H as [_ H]. by apply IH.
Qed.

Lemma spaced_ok_app_l (a b : jstr) : spaced_ok (a ++ b) = true -> spaced_ok a = true.
Proof.
  induction a as [|c a IH]; simpl; [done|].
  intros H. apply andb_true_iff in H as [Hc H]. rewrite (IH H), andb_true_r.
  destruct (is_space c); [|done].
  apply andb_true_iff in Hc as [-> Hc]. simpl. by destruct a.
Qed.

Lemma single_spaced_of_spaced_ok (t : jstr) :
  spaced_ok t = true -> head_not_space (rev t) = true -> single_spaced t = true.
Proof.
  induction t as [|c t IH]; [done|].
  intros Hok Hlast. simpl in Hok. apply andb_true_iff in Hok as [Hc Hok].
  simpl. destruct t as [|d t].
  - simpl in Hlast. apply negb_true_iff in Hlast. by rewrite Hlast.
  - rewrite IH; [|done|].
    + rewrite andb_true_r. exact Hc.
    + simpl rev in *. destruct (rev t ++ [d]) eqn:E; [by destruct (rev t)|]. exact Hlast.
Qed.

Lemma forallb_trim (P : N -> bool) (s : jstr) :
  forallb P s = true -> forallb P (trim s) = true.
Proof.
  intros H. unfold trim.
  destruct (trim_start_spec s) as (w & E & _ & _).
  destruct (trim_end_spec (trim_start s)) as (w' & E' & _ & _).
  rewrite E, forallb_app in H. apply andb_true_iff in H as [_ H].
  rewrite E', forallb_app in H. by apply andb_true_iff in H as [H _].
Qed.

Lemma trim_normalises (s : jstr) :
  spaced_ok s = true ->
  single_spaced (trim s) = true /\ head_not_space (trim s) = true.
Proof.
  intros Hok. unfold trim.
  destruct (trim_start_spec s) as (w & E & _ & Hh).
  destruct (trim_end_spec (trim_start s)) as (w' & E' & Hw' & Hl).
  assert (Hok1 : spaced_ok (trim_start s) = true).
  { apply (spaced_ok_app_r w). by rewrite <- E. }
  assert (Hok2 : spaced_ok (trim_end (trim_start s)) = true).
  { apply (spaced_ok_app_l _ w'). by rewrite <- E'. }
  split; [by apply single_spaced_of_spaced_ok|].
  destruct (trim_end (trim_start s)) as [|h r] eqn:Er; [done|].
  rewrite E' in Hh. exact Hh.
Qed.

Lemma trim_ends (s : jstr) :
  head_not_space (trim s) = true /\ head_not_space (rev (trim s)) = true.
Proof.
  unfold trim.
  destruct (trim_start_spec s) as (w & E & _ & Hh).
  destruct (trim_end_spec (trim_start s)) as (w' & E' & Hw' & Hl).
  split; [|exact Hl].
  destruct (trim_end (trim_start s)) as [|h r] eqn:Er; [done|].
  rewrite E' in Hh. exact Hh.
Qed.

Lemma squeeze_snoc (cls : N -> bool) (rep : jstr) (b : bool) (t : jstr) (x : N) :
  cls x = false -> squeeze cls rep b (t ++ [x]) = squeeze cls rep b t ++ [x].
Proof.
  intros Hx. revert b. induction t as [|c t IH]; intros b; simpl.
  - by rewrite Hx.
  - destruct (cls c).
    + destruct b; [apply IH|]. by rewrite IH, app_assoc.
    + by rewrite IH.
Qed.

Lemma squeeze_trimmed (t : jstr) :
  head_not_space t = true -> head_not_space (rev t) = true ->
  let out := squeeze is_space [32] false t in
  head_not_space out = true /\ single_spaced out = true.
Proof.
  intros Hh Hl out. subst out. split.
  - destruct t as [|c t]; [done|]. simpl in *.
    apply negb_true_iff in Hh. rewrite Hh. simpl. by rewrite Hh.
  - apply single_spaced_of_spaced_ok; [apply squeeze_spaced|].
    destruct (rev t) as [|x r] eqn:Er.
    + apply (f_equal (@rev N)) in Er. rewrite rev_involutive in Er. by subst t.
    + apply (f_equal (@rev N)) in Er. rewrite rev_involutive in Er. simpl in Er.
      subst t. simpl in Hl. apply negb_true_iff in Hl.
      rewrite squeeze_snoc by done. rewrite rev_app_distr. simpl. by rewrite Hl.
Qed.

(** X5.  When the chain of replacements of the geocoding cleaner leaves at
    least three units, the cleaner returns that string: it holds no digit,
    dot, hyphen or slash, does not begin with white space, and every white
    space in it is one plain space between two other units. *)
Theorem geocoding_cleaner_output_is_normalised (s : jstr) :
  (3 <= length (Geocoding.strip_boilerplate s))%nat ->
  exists out,
    Geocoding.cleanVillageNameForGeocoding (VStr s) = Ok (VStr out)
    /\ (3 <= length out)%nat
    /\ forallb (fun c => negb (cls_num_punct c)) out = true
    /\ head_not_space out = true
    /\ single_spaced out = true.
Proof.
  intros Hlen. exists (Geocoding.strip_boilerplate s).
  split.
  - unfold Geocoding.cleanVillageNameForGeocoding, Geocoding.clean_string.
    destruct s as [|c s]; [vm_compute in Hlen; lia|]. simpl truthy. simpl negb. cbv iota.
    destruct (Nat.ltb_spec (length (Geocoding.strip_boilerplate (c :: s))) 3); [lia|done].
  - split; [exact Hlen|]. unfold Geocoding.strip_boilerplate.
    unfold Geocoding.re_spaces, Geocoding.re_num_punct.
    rewrite !replace_all_plus_squeeze.
    match goal with |- context [squeeze cls_num_punct [] false ?u] => generalize u end.
    intros u. split; [|apply and_comm, trim_normalises, (squeeze_spaced false)].
    apply forallb_trim, squeeze_forallb; [reflexivity|apply squeeze_removes].
Qed.

(** A run of X5: a name printed by [scripts/test-geocoding.js]. *)
Lemma geocoding_cleaner_witness :
  exists out,
    Geocoding.cleanVillageNameForGeocoding (VStr (js "ગામ અમદાવાદના સર્વે નં. 123"))
      = Ok (VStr out)
    /\ (3 <= length out)%nat
    /\ forallb (fun c => negb (cls_num_punct c)) out = true
    /\ head_not_space out = true
    /\ single_spaced out = true.
Proof.
  apply (geocoding_cleaner_output_is_normalised (js "ગામ અમદાવાદના સર્વે નં. 123")).
  vm_compute. lia.
Defined.

(** X6.  The name cleaner of [scripts/fix-village-names.js]: on a string that
    is not empty, the result does not begin or end with white space and every
    white space in it is one plain space; a value that is not a string, and
    the empty string, are returned as they are. *)
Theorem fix_script_cleaner_normalises_spaces :
  (forall s, s <> [] ->
     exists out, FixScript.cleanVillageName (VStr s) = VStr out
       /\ head_not_space out = true /\ single_spaced out = true)
  /\ (forall v, (forall s, v <> VStr s) -> FixScript.cleanVillageName v = v)
  /\ FixScript.cleanVillageName (VStr []) = VStr [].
Proof.
  split; [|split].
  - intros s Hs. exists (FixScript.clean_name s). split.
    + destruct s; [done|reflexivity].
    + unfold FixScript.clean_name, Gemini.re_spaces. rewrite replace_all_plus_squeeze.
      apply squeeze_trimmed; apply trim_ends.
  - intros v Hv. unfold FixScript.cleanVillageName.
    destruct (negb (truthy v)); [reflexivity|].
    destruct v as [| | | |s| |]; try reflexivity. by destruct (Hv s).
  - reflexivity.
Qed.


Lemma search_unmatched (re : regex) (bol : bool) (s : jstr) :
  unmatched re bol s -> search_from re bol s = None.
Proof.
  revert bol. induction s as [|x s IH]; intros bol [Hm Hrest]; simpl; rewrite Hm; [done|].
  by rewrite (IH false Hrest).
Qed.

Lemma replace_unmatched (re : regex) (rep s : jstr) :
  unmatched re true s -> replace re rep s = s.
Proof. intros H. unfold replace, search. by rewrite search_unmatched. Qed.

Lemma no_backtick_includes (s w : jstr) :
  no_backtick s = true -> includes s (96 :: w) = false.
Proof.
  induction s as [|c s IH]; [done|].
  intros H. cbn [no_backtick forallb] in H. apply andb_true_iff in H as [Hc H].
  apply negb_true_iff, N.eqb_neq in Hc.
  cbn [includes starts_with]. rewrite (IH H), orb_false_r.
  apply andb_false_iff. left. apply N.eqb_neq. congruence.
Qed.

Lemma no_backtick_replace (w : jstr) (re : regex) (rep s : jstr) :
  no_backtick s = true -> replace (lit (96 :: w) ++ re) rep s = s.
Proof.
  intros H. apply replace_unmatched. apply (unmatched_lit (96 :: w)).
  by apply no_backtick_includes.
Qed.

(** X7.  On a response without a back-tick the fence stripper does nothing but
    trim. *)
Theorem fence_stripping_leaves_plain_text (response : jstr) :
  no_backtick response = true -> strip_fences response = trim response.
Proof.
  intros H. unfold strip_fences.
  assert (Ht : no_backtick (trim response) = true) by (by apply forallb_trim).
  unfold re_fence_json, re_fence_end, re_fence, FENCE_JSON, FENCE.
  by rewrite !(no_backtick_replace _ _ _ _ Ht).
Qed.

(** A run of X7: a refusal in prose has no fence to strip. *)
Lemma fence_stripping_leaves_plain_text_witness :
  strip_fences refused_response = trim refused_response.
Proof.
  apply (fence_stripping_leaves_plain_text refused_response).
  vm_compute. reflexivity.
Defined.


Lemma match_lit_prefix (w : jstr) (re : regex) : forall (a : N) (bol : bool) (t : jstr),
  match_here (lit (a :: w) ++ re) bol ((a :: w) ++ t)
  = (fun n => S (length w) + n)%nat <$> match_here re false t.
Proof.
  induction w as [|b w IH]; intros a bol t.
  - cbn [lit map app match_here]. rewrite N.eqb_refl.
    destruct (match_here re false t); reflexivity.
  - change (match_here (lit (a :: b :: w) ++ re) bol ((a :: b :: w) ++ t))
      with (if (a =? a)%N
            then S <$> match_here (lit (b :: w) ++ re) false ((b :: w) ++ t) else None).
    rewrite N.eqb_refl, IH.
    destruct (match_here re false t); reflexivity.
Qed.

Lemma run_spaces (ws t : jstr) :
  forallb is_space ws = true -> head_not_space t = true ->
  run is_space (ws ++ t) = length ws.
Proof.
  intros Hws Ht. induction ws as [|c ws IH]; cbn [app run length].
  - destruct t as [|x t]; [done|]. cbn [head_not_space] in Ht.
    apply negb_true_iff in Ht. cbn [run]. by rewrite Ht.
  - cbn [forallb] in Hws. apply andb_true_iff in Hws as [Hc Hws]. rewrite Hc.
    by rewrite IH.
Qed.

Lemma search_lit_bol (a : N) (re : regex) (bol : bool) (t : jstr) :
  search_from (Lit a :: re) bol t = search_from (Lit a :: re) false t.
Proof. destruct t; reflexivity. Qed.


Lemma search_skip (a : N) (re : regex) (p t : jstr) : forall bol,
  forallb (fun c => negb (c =? a)%N) p = true ->
  search_from (Lit a :: re) bol (p ++ t) = shift (length p) (search_from (Lit a :: re) false t).
Proof.
  induction p as [|c p IH]; intros bol Hp.
  - simpl app. rewrite search_lit_bol. by destruct (search_from _ false t) as [[]|].
  - cbn [forallb] in Hp. apply andb_true_iff in Hp as [Hc Hp].
    apply negb_true_iff in Hc.
    cbn [app search_from match_here]. rewrite Hc. rewrite (IH false Hp).
    by destruct (search_from _ false t) as [[]|].
Qed.

Lemma spaces_no_backtick (ws : jstr) : forallb is_space ws = true -> no_backtick ws = true.
Proof.
  induction ws as [|c ws IH]; [done|]. cbn [forallb no_backtick].
  intros H. apply andb_true_iff in H as [Hc H]. fold (no_backtick ws). rewrite (IH H), andb_true_r.
  apply negb_true_iff, N.eqb_neq. intros ->. vm_compute in Hc. discriminate.
Qed.

Lemma no_backtick_app (a b : jstr) :
  no_backtick (a ++ b) = no_backtick a && no_backtick b.
Proof. apply forallb_app. Qed.

Lemma trim_id (s : jstr) :
  head_not_space s = true -> head_not_space (rev s) = true -> trim s = s.
Proof.
  intros Hh Hl. unfold trim, trim_end.
  assert (E : forall t, head_not_space t = true -> trim_start t = t).
  { intros [|c t] Ht; [done|]. simpl in *. apply negb_true_iff in Ht. by rewrite Ht. }
  rewrite (E s Hh), (E (rev s) Hl). apply rev_involutive.
Qed.

Lemma search_at_head (re : regex) (bol : bool) (s : jstr) (n : nat) :
  match_here re bol s = Some n -> search_from re bol s = Some (0%nat, n).
Proof. intros H. destruct s; simpl; by rewrite H. Qed.

(** X8.  A response made of the opening fence with its [json] tag, white
    space, a payload, white space and the closing fence, where the payload has
    no back-tick, is not empty and does not begin with white space, is
    stripped to the payload followed by the white space that stood before the
    closing fence: that white space is not removed. *)
Theorem fence_stripping_recovers_the_payload (ws body ws' : jstr) :
  forallb is_space ws = true -> forallb is_space ws' = true ->
  no_backtick body = true -> body <> [] -> head_not_space body = true ->
  strip_fences (FENCE_JSON ++ ws ++ body ++ ws' ++ FENCE) = body ++ ws'.
Proof.
  intros Hws Hws' Hbody Hne Hhead. unfold strip_fences.
  pose (rest := body ++ ws' ++ FENCE).
  assert (Hrest : head_not_space rest = true).
  { subst rest. destruct body; [done|exact Hhead]. }
  rewrite trim_id.
  2:{ reflexivity. }
  2:{ rewrite !rev_app_distr. reflexivity. }
  (* the opening fence and the white space after it *)
  assert (E1 : replace re_fence_json [] (FENCE_JSON ++ ws ++ body ++ ws' ++ FENCE) = rest).
  { unfold replace, search.
    rewrite (search_at_head _ _ _ (7 + length ws)).
    - rewrite (app_assoc FENCE_JSON ws).
      replace (0 + (7 + length ws))%nat with (length (FENCE_JSON ++ ws))
        by (rewrite length_app; reflexivity).
      by rewrite drop_app_length.
    - unfold re_fence_json, FENCE_JSON. rewrite match_lit_prefix, star_run.
      unfold cls_space. by rewrite (run_spaces ws (body ++ ws' ++ FENCE) Hws Hrest). }
  rewrite E1.
  (* the closing fence *)
  assert (Hpre : no_backtick (body ++ ws') = true).
  { rewrite no_backtick_app, Hbody. by apply spaces_no_backtick. }
  assert (E2 : replace re_fence_end [] rest = body ++ ws').
  { unfold replace, search, re_fence_end, FENCE. subst rest. rewrite app_assoc.
    change (lit [96; 96; 96]%N ++ [Star cls_space; Eol])
      with (Lit 96 :: lit [96; 96]%N ++ [Star cls_space; Eol]).
    rewrite (search_skip 96 _ (body ++ ws') _ true Hpre).
    change (search_from (Lit 96 :: lit [96; 96]%N ++ [Star cls_space; Eol]) false FENCE)
      with (Some (0%nat, 3%nat)).
    cbn [shift]. rewrite Nat.add_0_r, take_app_length.
    rewrite drop_ge by (rewrite length_app; simpl; lia).
    by rewrite !app_nil_r. }
  rewrite E2.
  unfold re_fence, re_fence_end, FENCE.
  by rewrite !(no_backtick_replace _ _ _ _ Hpre).
Qed.

(** A run of X8: an object between the two fences, each on its own line. *)
Lemma fence_stripping_recovers_the_payload_witness :
  strip_fences (FENCE_JSON ++ [10] ++ sample_payload ++ [10] ++ FENCE)
  = sample_payload ++ [10].
Proof.
  apply (fence_stripping_recovers_the_payload [10] sample_payload [10]).
  - reflexivity.
  - reflexivity.
  - vm_compute. reflexivity.
  - intros H. vm_compute in H. discriminate H.
  - vm_compute. reflexivity.
Defined.

(* ===================================================================== *)
(** * The save route when geocoding succeeds                              *)
(* ===================================================================== *)

Lemma stuck_lit (c : N) (re : regex) :
  (c =? 224) || (c =? 192) = true -> stuck (Lit c :: re).
Proof.
  intros Hc bol [|x t] Ht; [done|]. cbn [no_a_grave forallb] in Ht.
  apply andb_true_iff in Ht as [Hx _]. apply negb_true_iff in Hx.
  cbn [match_here]. destruct (N.eqb_spec x c) as [->|]; [congruence|done].
Qed.

Lemma stuck_one (c : N) (re : regex) :
  c = 224 -> stuck (One (same_case c) :: re).
Proof.
  intros -> bol [|x t] Ht; [done|]. cbn [no_a_grave forallb] in Ht.
  apply andb_true_iff in Ht as [Hx _]. apply negb_true_iff in Hx.
  cbn [match_here]. unfold same_case. change (224 =? 224) with true. cbv iota.
  by rewrite Hx.
Qed.

Lemma stuck_star (cls : N -> bool) (re : regex) : stuck re -> stuck (Star cls :: re).
Proof.
  intros Hre bol t. revert bol. induction t as [|x t IH]; intros bol Ht.
  - cbn [match_here]. by apply Hre.
  - assert (Ht' : no_a_grave t = true).
    { cbn [no_a_grave forallb] in Ht. by apply andb_true_iff in Ht as [_ Ht]. }
    change (match_here (Star cls :: re) bol (x :: t))
      with (if cls x then
              match match_here (Star cls :: re) false t with
              | Some n => Some (S n)
              | None => match_here re bol (x :: t)
              end
            else match_here re bol (x :: t)).
    rewrite (IH false Ht'), (Hre bol (x :: t) Ht). by destruct (cls x).
Qed.

Lemma stuck_bol (re : regex) : stuck re -> stuck (Bol :: re).
Proof. intros Hre bol t Ht. cbn [match_here]. destruct bol; [by apply Hre|done]. Qed.

Lemma stuck_unmatched (re : regex) (bol : bool) (s : jstr) :
  stuck re -> no_a_grave s = true -> unmatched re bol s.
Proof.
  intros Hre. revert bol. induction s as [|x s IH]; intros bol Hs; simpl.
  - split; [by apply Hre|done].
  - split; [by apply Hre|]. apply IH.
    cbn [no_a_grave forallb] in Hs. by apply andb_true_iff in Hs as [_ Hs].
Qed.

Lemma only_trim (name : jstr) :
  no_a_grave name = true -> clean_for_auto_geocoding name = trim name.
Proof.
  intros H. unfold clean_for_auto_geocoding.
  assert (E1 : replace_all re_revenue_survey_as_written [] name = name).
  { apply replace_all_unmatched, stuck_unmatched; [|exact H].
    apply stuck_star. by apply stuck_one. }
  assert (E2 : replace_all re_survey_as_written [] name = name).
  { apply replace_all_unmatched, stuck_unmatched; [|exact H].
    apply stuck_star. by apply stuck_one. }
  assert (E3 : forall w re, replace (lit (224 :: w) ++ re) [] name = name).
  { intros w re. apply replace_unmatched, stuck_unmatched; [|exact H]. by apply stuck_lit. }
  assert (E4 : forall w re, replace ([Bol] ++ lit (224 :: w) ++ re) [] name = name).
  { intros w re. apply replace_unmatched, stuck_unmatched; [|exact H].
    apply stuck_bol. by apply stuck_lit. }
  rewrite E1, E2.
  unfold re_suffix, NA_as_written, NI_as_written, NUM_as_written.
  rewrite !E3.
  unfold re_gam_prefix_as_written, re_moje_gam_prefix_as_written, GAM_as_written,
    MOJE_as_written.
  by rewrite !E4.
Qed.

Ltac distinct_keys := let E := fresh in intros E; vm_compute in E; discriminate E.

Ltac read_inserts :=
  repeat (rewrite lookup_insert_eq || rewrite lookup_insert_ne by distinct_keys).

(** The success path for any name, in terms of what the chain leaves. *)
Lemma save_route_geocoding_success (tz : Z) (new_id new_log_id : jstr)
    (now now' : Z) (geocode : jstr -> value -> outcome value) (req_body : obj)
    (d d1 : db) (saved : notice_view) (name : jstr) (l : obj) :
  let extractedData := get req_body (js "extractedData") in
  let district := default VUndefined (from_ok (prop extractedData k_district)) in
  let taluka := default VUndefined (from_ok (prop extractedData k_taluka)) in
  savePropertyNotice tz new_id new_log_id now (data_to_save req_body) d = Ok (d1, saved) ->
  prop extractedData k_village_name = Ok (VStr name) ->
  (2 <= length (clean_for_auto_geocoding name))%nat ->
  geocode (clean_for_auto_geocoding name) (or_else district (str "Rajkot")) = Ok (VObj l) ->
  truthy (get l k_success) = true ->
  let result := save_notice tz new_id new_log_id now now' geocode req_body d in
  http_status result.1 = 200%Z
  /\ processing_logs result.2 = processing_logs d1
  /\ (forall j, j <> new_id -> property_notices result.2 !! j = property_notices d1 !! j)
  /\ exists n,
       property_notices result.2 !! new_id = Some n
       /\ latitude n = null_if_falsy (get l k_latitude)
       /\ longitude n = null_if_falsy (get l k_longitude)
       /\ Firebase.district n = null_if_falsy (or_else (get l k_district) district)
       /\ Firebase.taluka n = null_if_falsy (or_else (get l k_taluka) taluka)
       /\ full_address n = null_if_falsy (get l k_formatted_address)
       /\ geocoding_status n = str "success"
       /\ updated_at n = now'
       /\ village_name n = village_name (doc saved)
       /\ notice_date n = notice_date (doc saved)
       /\ extracted_data n = extracted_data (doc saved).
Proof.
  intros extractedData district taluka Hsave Hname Hlen Hgeo Hok result.
  assert (Hdata : truthy extractedData = true).
  { destruct extractedData; try discriminate Hname; reflexivity. }
  assert (Hnm : name <> []).
  { intros ->. vm_compute in Hlen. lia. }
  destruct (save_stores_the_record _ _ _ _ _ _ _ _ Hsave) as (Hget & _ & Hid & _).
  unfold getPropertyNoticeById in Hget.
  destruct (property_notices d1 !! new_id) as [n0|] eqn:Hn0; [|discriminate Hget].
  simpl in Hget. injection Hget as Hview.
  assert (Hdoc : doc saved = n0) by (rewrite <- Hview; reflexivity).
  subst result. unfold save_notice. fold extractedData.
  rewrite Hdata. simpl negb. cbv iota. rewrite Hsave.
  rewrite Hname. simpl from_ok. simpl default.
  assert (Ht : truthy (VStr name) = true) by (destruct name; done).
  rewrite Ht. unfold auto_geocode. rewrite Hname.
  apply Nat.leb_le in Hlen. rewrite Hlen.
  fold district taluka. rewrite Hgeo, Hok.
  unfold updatePropertyNoticeLocation. rewrite Hid, Hn0. simpl.
  split; [reflexivity|]. split; [reflexivity|].
  split; [intros j Hj; by rewrite lookup_insert_ne|].
  eexists. split; [by rewrite lookup_insert_eq|]. simpl.
  rewrite Hdoc. unfold get. read_inserts. repeat split.
Qed.

(** X4.  The save route when automatic geocoding succeeds.  On a village name
    without [à] and [À], as every name in Gujarati script is, the cleaning
    chain of the route does nothing but trim: the literals of its patterns
    are mis-decoded.  When the trimmed name has at least two units and the
    geocoder, asked for the trimmed name, returns an object with a truthy
    [success], the route answers 200, the log entries are those left by the
    save, no other record changes, and the saved record has the geocoder's
    latitude, longitude and formatted address ([null] where falsy), the
    geocoder's district and taluka or else the extracted ones, the
    geocoding status success and the time of the update; its name, notice
    date and extracted data are as saved. *)
Theorem save_notice_stores_geocoder_result (tz : Z) (new_id new_log_id : jstr)
    (now now' : Z) (geocode : jstr -> value -> outcome value) (req_body : obj)
    (d d1 : db) (saved : notice_view) (name : jstr) (l : obj) :
  let extractedData := get req_body (js "extractedData") in
  let district := default VUndefined (from_ok (prop extractedData k_district)) in
  let taluka := default VUndefined (from_ok (prop extractedData k_taluka)) in
  savePropertyNotice tz new_id new_log_id now (data_to_save req_body) d = Ok (d1, saved) ->
  prop extractedData k_village_name = Ok (VStr name) ->
  no_a_grave name = true ->
  (2 <= length (trim name))%nat ->
  geocode (trim name) (or_else district (str "Rajkot")) = Ok (VObj l) ->
  truthy (get l k_success) = true ->
  let result := save_notice tz new_id new_log_id now now' geocode req_body d in
  clean_for_auto_geocoding name = trim name
  /\ http_status result.1 = 200%Z
  /\ processing_logs result.2 = processing_logs d1
  /\ (forall j, j <> new_id -> property_notices result.2 !! j = property_notices d1 !! j)
  /\ exists n,
       property_notices result.2 !! new_id = Some n
       /\ latitude n = null_if_falsy (get l k_latitude)
       /\ longitude n = null_if_falsy (get l k_longitude)
       /\ Firebase.district n = null_if_falsy (or_else (get l k_district) district)
       /\ Firebase.taluka n = null_if_falsy (or_else (get l k_taluka) taluka)
       /\ full_address n = null_if_falsy (get l k_formatted_address)
       /\ geocoding_status n = str "success"
       /\ updated_at n = now'
       /\ village_name n = village_name (doc saved)
       /\ notice_date n = notice_date (doc saved)
       /\ extracted_data n = extracted_data (doc saved).
Proof.
  intros extractedData district taluka Hsave Hname Hplain Hlen Hgeo Hok result.
  pose proof (only_trim name Hplain) as Htrim.
  split; [exact Htrim|].
  apply (save_route_geocoding_success tz new_id new_log_id now now' geocode req_body
           d d1 saved name l Hsave Hname); [by rewrite Htrim|by rewrite Htrim|exact Hok].
Qed.

(** A run of X4: a name with the suffix [ના] and a geocoder that knows
    that name only; the suffix is not removed before the geocoder is asked. *)
Lemma save_notice_stores_geocoder_result_witness :
  let result := save_notice 330 sample_id sample_log_id sample_now (sample_now + 800)%Z
                  (geocoder_of_one_name (js "રીબડાના")) suffixed_body empty_db in
  clean_for_auto_geocoding (js "રીબડાના") = js "રીબડાના"
  /\ http_status result.1 = 200%Z
  /\ exists n,
       property_notices result.2 !! sample_id = Some n
       /\ latitude n = VNum 22.3038
       /\ longitude n = VNum 70.8022
       /\ geocoding_status n = str "success"
       /\ village_name n = str "રીબડાના".
Proof.
  pose proof (save_notice_stores_geocoder_result 330 sample_id sample_log_id sample_now
                (sample_now + 800)%Z (geocoder_of_one_name (js "રીબડાના")) suffixed_body
                empty_db suffixed_store (view suffixed_doc) (js "રીબડાના")
                sample_geocoder_result) as H.
  cbv zeta in H.
  destruct H as (Htrim & Hstatus & _ & _ & n & Hn & Hlat & Hlon & _ & _ & _ & Hgeo & _
                 & Hname & _).
  - vm_compute. reflexivity.
  - vm_compute. reflexivity.
  - vm_compute. reflexivity.
  - vm_compute. lia.
  - vm_compute. reflexivity.
  - vm_compute. reflexivity.
  - split; [rewrite Htrim; vm_compute; reflexivity|].
    split; [exact Hstatus|]. exists n. split; [exact Hn|].
    split; [rewrite Hlat; vm_compute; reflexivity|].
    split; [rewrite Hlon; vm_compute; reflexivity|].
    split; [exact Hgeo|]. rewrite Hname. reflexivity.
Defined.

(* ===================================================================== *)
(** * The error handler and the geocoder                                  *)
(* ===================================================================== *)

Import ErrorHandler GeocodingService.
Import AddressStatements.
Import HandlerStatements.


Lemma classify_typed (parsed component : obj) :
  typed component = true ->
  classify parsed (VObj component) =
    Ok (match field_of component with
        | Some field => <[field := get component k_long_name]> parsed
        | None => parsed
        end).
Proof.
  unfold typed, classify, field_of, has_type. simpl prop. unfold bind at 1.
  destruct (get component k_types) as [| | | | s | l | ]; try discriminate; intros _; simpl;
    repeat match goal with
           | |- context [if ?c then _ else _] => destruct c; simpl; try reflexivity
           end.
Qed.

Lemma find_snoc {A} (f : A -> bool) (l : list A) (x : A) :
  find f (l ++ [x]) =
  match find f l with
  | Some y => Some y
  | None => if f x then Some x else None
  end.
Proof.
  induction l as [|a l IH]; simpl; [reflexivity|].
  destruct (f a); [reflexivity|exact IH].
Qed.

Lemma fold_classify (components : list obj) : forall parsed : obj,
  forallb typed components = true ->
  exists r : obj,
    foldl (fun acc component => bind acc (fun parsed => classify parsed component))
          (Ok parsed) (VObj <$> components) = Ok r
    /\ forall field,
         r !! field = match last_setting field components with
                      | Some c => Some (get c k_long_name)
                      | None => parsed !! field
                      end.
Proof.
  induction components as [|c rest IH]; intros parsed Htyped.
  - exists parsed. split; reflexivity.
  - simpl in Htyped. apply andb_true_iff in Htyped as [Hc Hrest].
    simpl. rewrite classify_typed by exact Hc.
    destruct (IH (match field_of c with
                  | Some field => <[field := get c k_long_name]> parsed
                  | None => parsed
                  end) Hrest) as (r & Hr & Hfields).
    exists r. split; [exact Hr|].
    intros field. rewrite Hfields. unfold last_setting. simpl rev. rewrite find_snoc.
    destruct (find _ (rev rest)); [reflexivity|].
    destruct (field_of c) as [f|] eqn:Ef.
    + destruct (decide (f = field)) as [->|Hne].
      * rewrite bool_decide_eq_true_2 by done. by rewrite lookup_insert_eq.
      * rewrite bool_decide_eq_false_2 by congruence. by rewrite lookup_insert_ne.
    + by rewrite bool_decide_eq_false_2.
Qed.

(** X9.  On an array of components whose [types] are arrays or strings, the
    address parser returns an object with exactly the properties district,
    taluka, state and country.  Each holds the [long_name] of the last
    component that sets it (a component sets the first of district, taluka,
    state, country that its types name), or [null] when there is none. *)
Theorem address_fields_come_from_the_last_matching_component (components : list obj) :
  forallb typed components = true ->
  exists parsed : obj,
    parseAddressComponents (VArr (VObj <$> components)) = Ok (VObj parsed)
    /\ dom parsed = {[ k_district; k_taluka; k_state; k_country ]}
    /\ forall field, field ∈ [k_district; k_taluka; k_state; k_country] ->
         parsed !! field = Some (match last_setting field components with
                                 | Some c => get c k_long_name
                                 | None => VNull
                                 end).
Proof.
  intros Htyped. destruct (fold_classify components no_address Htyped) as (r & Hr & Hfields).
  exists r. unfold parseAddressComponents. rewrite Hr. split; [reflexivity|]. split.
  - apply set_eq. intros k. rewrite elem_of_dom, Hfields.
    assert (Hk : is_Some (no_address !! k) <-> k ∈ ({[ k_district; k_taluka; k_state; k_country ]} : gset jstr)).
    { rewrite <- elem_of_dom. unfold no_address, with_props. simpl.
      rewrite !dom_insert_L, dom_empty_L. set_solver. }
    destruct (last_setting k components) as [c|] eqn:El; [|exact Hk].
    split; [|by eauto]. intros _.
    unfold last_setting in El. apply find_some in El as [_ El].
    apply bool_decide_eq_true in El. unfold field_of in El.
    repeat match type of El with
           | (if ?c then _ else _) = _ => destruct c
           end; try discriminate; injection El as <-; set_solver.
  - intros field Hfield. rewrite Hfields.
    destruct (last_setting field components); [reflexivity|].
    repeat (apply elem_of_cons in Hfield as [->|Hfield]; [vm_compute; reflexivity|]).
    by apply elem_of_nil in Hfield.
Qed.

(** A run of X9: the components of the sample answer. *)
Lemma address_fields_witness :
  exists parsed : obj,
    parseAddressComponents (VArr (VObj <$> sample_components)) = Ok (VObj parsed)
    /\ parsed !! k_district = Some (str "Rajkot")
    /\ parsed !! k_taluka = Some VNull
    /\ parsed !! k_state = Some (str "Gujarat")
    /\ parsed !! k_country = Some (str "India").
Proof.
  destruct (address_fields_come_from_the_last_matching_component sample_components)
    as (parsed & Hparsed & _ & Hfields).
  - vm_compute. reflexivity.
  - exists parsed. split; [exact Hparsed|].
    split; [rewrite Hfields; [vm_compute; reflexivity|]; apply elem_of_cons; by left|].
    split; [rewrite Hfields; [vm_compute; reflexivity|];
            apply elem_of_cons; right; apply elem_of_cons; by left|].
    split; [rewrite Hfields; [vm_compute; reflexivity|];
            do 2 (apply elem_of_cons; right); apply elem_of_cons; by left|].
    rewrite Hfields; [vm_compute; reflexivity|].
    do 3 (apply elem_of_cons; right). apply elem_of_cons; by left.
Defined.


Ltac eval_bindings :=
  repeat match goal with
         | |- context [last_binding ?k ?l] =>
           let v := eval vm_compute in (last_binding k l) in
           change (last_binding k l) with v
         end.

Ltac read_object := unfold get; rewrite ?lookup_with_props; eval_bindings; cbv beta iota.

(** X10.  The error handler answers 500 with the fixed message and
    INTERNAL_SERVER_ERROR to every error that is not operational, and so to
    every plain [Error], whatever its message.  To an [AppError] whose status
    code is not [undefined] and whose code is none of those the handler
    rewrites, it answers with the status code and the message of the error,
    and with its code or else OPERATIONAL_ERROR. *)
Theorem error_handler_replies :
  (forall err, truthy (get err k_isOperational) = false ->
     errorHandler err = internal_error)
  /\ (forall m, errorHandler (error_object (Error m)) = internal_error)
  /\ (forall m sc c,
        sc <> VUndefined -> ordinary_code c = true ->
        errorHandler (error_object (AppError m sc c)) =
          {| reply_status := sc;
             reply_body :=
               VObj (with_props ∅
                 [ (k_error, VStr m);
                   (k_code, or_else c (str "OPERATIONAL_ERROR")) ]) |}).
Proof.
  split; [|split].
  - intros err Hop. unfold errorHandler. rewrite Hop. reflexivity.
  - intros m. unfold errorHandler, error_object. read_object. reflexivity.
  - intros m sc c Hsc Hc. unfold ordinary_code in Hc.
    repeat (apply andb_true_iff in Hc as [Hc ?]).
    repeat match goal with H : negb _ = true |- _ => apply negb_true_iff in H end.
    unfold errorHandler, error_object. read_object. simpl default.
    rewrite Hc, H, H0, H1. simpl.
    destruct sc; try done.
Qed.


Lemma is_string_eq (v : value) (s : jstr) : is_string v s = true -> v = VStr s.
Proof.
  destruct v; simpl; try discriminate. intros H. apply bool_decide_eq_true in H. by subst.
Qed.

Lemma lift_done {A} (m : outcome A) (a : A) : lift m = Done a -> m = Ok a.
Proof. destruct m; simpl; congruence. Qed.

Ltac step_attempts H :=
  repeat match type of H with
         | and_then ?m _ = Done _ =>
           let E := fresh "E" in
           destruct m eqn:E; cbn [and_then] in H; [|discriminate H]
         end.

Lemma geocode_village_done
    (ToString : value -> jstr) (fetch : jstr -> attempt http_response)
    (api_key : bool) (villageName district state result : value) :
  geocodeVillage ToString fetch api_key villageName district state = Done result ->
  api_key = true
  /\ exists cleaned response data,
       Geocoding.cleanVillageNameForGeocoding villageName = Ok (VStr cleaned)
       /\ fetch (search_query ToString cleaned (Firebase.or_default district VNull)
                   (Firebase.or_default state (str "Gujarat, India"))) = Done response
       /\ resp_ok response = true
       /\ resp_json response = Done data
       /\ prop result k_search_query =
            Ok (VStr (search_query ToString cleaned (Firebase.or_default district VNull)
                        (Firebase.or_default state (str "Gujarat, India"))))
       /\ ((prop data k_status = Ok (str "ZERO_RESULTS")
            /\ prop result k_success = Ok (VBool false)
            /\ prop result k_status = Ok (str "not_found"))
           \/ (prop data k_status = Ok (str "OK")
               /\ prop result k_success = Ok (VBool true)
               /\ prop result k_status = Ok (str "success")
               /\ exists first location,
                    bind (prop data k_results) first_element = Ok first
                    /\ bind (prop first k_geometry) (fun g => prop g k_location) = Ok location
                    /\ prop location k_lat = prop result k_latitude
                    /\ prop location k_lng = prop result k_longitude
                    /\ prop first k_formatted_address = prop result k_formatted_address)).
Proof.
  unfold geocodeVillage.
  destruct (geocode_body _ _ _ _ _ _) as [r|e] eqn:Hbody;
    [|destruct (is_app_error e); discriminate].
  intros [= <-]. unfold geocode_body in Hbody.
  destruct api_key; [|discriminate Hbody]. split; [reflexivity|].
  simpl negb in Hbody. cbv iota in Hbody.
  destruct (Geocoding.cleanVillageNameForGeocoding villageName) as [cleaned|] eqn:Hclean;
    [|discriminate Hbody].
  assert (Hstr : exists s, cleaned = VStr s).
  { unfold Geocoding.cleanVillageNameForGeocoding in Hclean.
    destruct (negb (truthy villageName)); [injection Hclean as <-; eauto|].
    destruct villageName; try discriminate Hclean. injection Hclean as <-. eauto. }
  destruct Hstr as [s ->]. cbn [lift and_then] in Hbody.
  set (q := search_query ToString s (Firebase.or_default district VNull)
              (Firebase.or_default state (str "Gujarat, India"))) in *.
  destruct (fetch q) as [response|] eqn:Hfetch; [|discriminate Hbody].
  cbn [and_then] in Hbody.
  destruct (resp_ok response) eqn:Hok; [|discriminate Hbody].
  simpl negb in Hbody. cbv iota in Hbody.
  destruct (resp_json response) as [data|] eqn:Hjson; [|discriminate Hbody].
  cbn [and_then] in Hbody.
  destruct (prop data k_status) as [data_status|] eqn:Hstatus; [|discriminate Hbody].
  cbn [lift and_then] in Hbody.
  exists s, response, data. do 4 (split; [done|]).
  destruct (is_string data_status (js "ZERO_RESULTS")) eqn:Hzero.
  - injection Hbody as <-. apply is_string_eq in Hzero as ->.
    split; [simpl; read_object; reflexivity|]. left.
    split; [exact Hstatus|]. split; simpl; read_object; reflexivity.
  - destruct (is_string data_status (js "OK")) eqn:Hgood.
    + simpl negb in Hbody. cbv iota in Hbody. apply is_string_eq in Hgood as ->.
      step_attempts Hbody. injection Hbody as <-.
      split; [simpl; read_object; reflexivity|]. right.
      split; [exact Hstatus|].
      split; [simpl; read_object; reflexivity|].
      split; [simpl; read_object; reflexivity|].
      apply lift_done in E, E0, E3, E4, E5.
      eexists _, _. split; [exact E|]. split; [exact E0|].
      rewrite E3, E4, E5. simpl. read_object. done.
    + simpl negb in Hbody. cbv iota in Hbody.
      destruct (prop data k_error_message); discriminate Hbody.
Qed.

(** X11.  Whatever [geocodeVillage] returns comes from an answer of the
    service: the API key is set, the cleaner accepted the name, the request
    for the search query (the cleaned name, the district, the state) resolved
    with an ok response whose body was read, and the result records that
    query.  Either the status of the body is ZERO_RESULTS and the result has
    [success] false and the status not_found, or it is OK and the result has
    [success] true, the status success, and the latitude, longitude and
    formatted address of the first result of the body. *)
Theorem geocoder_returns_only_what_google_answered
    (ToString : value -> jstr) (fetch : jstr -> attempt http_response)
    (api_key : bool) (villageName district state result : value) :
  geocodeVillage ToString fetch api_key villageName district state = Done result ->
  api_key = true
  /\ exists cleaned response data,
       Geocoding.cleanVillageNameForGeocoding villageName = Ok (VStr cleaned)
       /\ fetch (search_query ToString cleaned (Firebase.or_default district VNull)
                   (Firebase.or_default state (str "Gujarat, India"))) = Done response
       /\ resp_ok response = true
       /\ resp_json response = Done data
       /\ prop result k_search_query =
            Ok (VStr (search_query ToString cleaned (Firebase.or_default district VNull)
                        (Firebase.or_default state (str "Gujarat, India"))))
       /\ ((prop data k_status = Ok (str "ZERO_RESULTS")
            /\ prop result k_success = Ok (VBool false)
            /\ prop result k_status = Ok (str "not_found"))
           \/ (prop data k_status = Ok (str "OK")
               /\ prop result k_success = Ok (VBool true)
               /\ prop result k_status = Ok (str "success")
               /\ exists first location,
                    bind (prop data k_results) first_element = Ok first
                    /\ bind (prop first k_geometry) (fun g => prop g k_location) = Ok location
                    /\ prop location k_lat = prop result k_latitude
                    /\ prop location k_lng = prop result k_longitude
                    /\ prop first k_formatted_address = prop result k_formatted_address)).
Proof. apply geocode_village_done. Qed.

(** A run of X11: Ribda in the district of Rajkot, with the sample answer
    behind the request. *)
Lemma geocoder_returns_only_what_google_answered_witness :
  exists cleaned response,
    Geocoding.cleanVillageNameForGeocoding (str "રીબડા") = Ok (VStr cleaned)
    /\ sample_fetch (search_query MathStandIn.to_string cleaned (str "Rajkot")
                       (str "Gujarat, India")) = Done response
    /\ resp_json response = Done sample_answer
    /\ prop sample_geocoding k_search_query =
         Ok (VStr (search_query MathStandIn.to_string cleaned (str "Rajkot")
                     (str "Gujarat, India"))).
Proof.
  destruct (geocoder_returns_only_what_google_answered MathStandIn.to_string sample_fetch
              true (str "રીબડા") (str "Rajkot") VUndefined sample_geocoding)
    as (_ & cleaned & response & data & Hclean & Hfetch & _ & Hjson & Hquery & _).
  - vm_compute. reflexivity.
  - exists cleaned, response. split; [exact Hclean|]. split; [exact Hfetch|].
    split; [|exact Hquery]. rewrite Hjson. f_equal.
    unfold sample_fetch in Hfetch. injection Hfetch as <-. simpl in Hjson.
    by injection Hjson as <-.
Defined.

Lemma geocode_village_status
    (ToString : value -> jstr) (fetch : jstr -> attempt http_response)
    (api_key : bool) (villageName district state result : value) :
  geocodeVillage ToString fetch api_key villageName district state = Done result ->
  exists o, result = VObj o
    /\ (get o k_status = str "success" \/ get o k_status = str "not_found").
Proof.
  intros H. apply geocode_village_done in H as (_ & c & r & dt & _ & _ & _ & _ & _ & Hcase).
  destruct Hcase as [(_ & _ & Hs)|(_ & _ & Hs & _)];
    destruct result; simpl in Hs; try discriminate Hs; injection Hs as Hs; eauto.
Qed.


(** X12.  Every error raised by [geocodeVillage] is an [AppError].  Without an
    API key it has the status 500 and the code GOOGLE_MAPS_API_KEY_MISSING; a
    request that fails is wrapped with the message prefixed by [Geocoding
    failed: ], the status 500 and the code GEOCODING_ERROR; a response that is
    not ok gives the code GOOGLE_MAPS_API_ERROR with the status of the
    response. *)
Theorem geocoder_failures_are_app_errors
    (ToString : value -> jstr) (fetch : jstr -> attempt http_response)
    (villageName district state : value) :
  let d := Firebase.or_default district VNull in
  let s := Firebase.or_default state (str "Gujarat, India") in
  (forall api_key e,
     geocodeVillage ToString fetch api_key villageName district state = Raised e ->
     is_app_error e = true)
  /\ (exists m,
        geocodeVillage ToString fetch false villageName district state =
          Raised (AppError m (VNum 500) (str "GOOGLE_MAPS_API_KEY_MISSING")))
  /\ (forall cleaned m,
        Geocoding.cleanVillageNameForGeocoding villageName = Ok (VStr cleaned) ->
        fetch (search_query ToString cleaned d s) = Raised (Error m) ->
        geocodeVillage ToString fetch true villageName district state =
          Raised (AppError (js "Geocoding failed: " ++ m) (VNum 500) (str "GEOCODING_ERROR")))
  /\ (forall cleaned response,
        Geocoding.cleanVillageNameForGeocoding villageName = Ok (VStr cleaned) ->
        fetch (search_query ToString cleaned d s) = Done response ->
        resp_ok response = false ->
        exists m,
          geocodeVillage ToString fetch true villageName district state =
            Raised (AppError m (resp_status response) (str "GOOGLE_MAPS_API_ERROR"))).
Proof.
  intros d s. split; [|split; [|split]].
  - intros api_key e. unfold geocodeVillage.
    destruct (geocode_body _ _ _ _ _ _) as [r|e'] eqn:Hbody; [discriminate|].
    destruct (is_app_error e') eqn:Happ; intros [= <-]; done.
  - eexists. reflexivity.
  - intros cleaned m Hclean Hfetch. unfold geocodeVillage, geocode_body.
    fold d s. simpl negb. cbv iota. rewrite Hclean. cbn [lift and_then].
    rewrite Hfetch. reflexivity.
  - intros cleaned response Hclean Hfetch Hok. unfold geocodeVillage, geocode_body.
    fold d s. simpl negb. cbv iota. rewrite Hclean. cbn [lift and_then].
    rewrite Hfetch. cbn [and_then]. rewrite Hok. eexists. reflexivity.
Qed.

Lemma batch_entry_done (geocode : value -> value -> attempt value) (village : value) :
  nullish village = false ->
  exists g,
    batch_entry geocode village = Done (VObj (<[k_geocoding := g]> (spread village)))
    /\ (geocode (default VUndefined (from_ok (prop village GeocodingService.k_name)))
                (default VUndefined (from_ok (prop village k_district))) = Done g
        \/ exists e,
             geocode (default VUndefined (from_ok (prop village GeocodingService.k_name)))
                     (default VUndefined (from_ok (prop village k_district))) = Raised e
             /\ g = VObj (with_props ∅
                      [ (k_success, VBool false);
                        (k_error, VStr (message_of e));
                        (k_status, str "error") ])).
Proof.
  intros Hv. unfold batch_entry.
  assert (Hp : forall k, exists x, prop village k = Ok x).
  { intros k. destruct village; simpl; eauto; discriminate. }
  destruct (Hp GeocodingService.k_name) as [n Hn]. destruct (Hp k_district) as [dd Hd].
  rewrite Hn, Hd. cbn [lift and_then from_ok default from_option Datatypes.id].
  destruct (geocode n dd) as [g|e]; cbn [and_then].
  - exists g. split; [reflexivity|]. by left.
  - eexists. split; [reflexivity|]. right. by exists e.
Qed.

Lemma batch_entry_nullish (geocode : value -> value -> attempt value) (village : value) :
  nullish village = true -> exists e, batch_entry geocode village = Raised e.
Proof.
  intros Hv. unfold batch_entry.
  destruct village; try discriminate Hv; simpl; eauto.
Qed.

(** X13.  On a list of villages none of which is [null] or [undefined], the
    batch geocoder returns one entry for each village, in order: the
    properties of the village and, under [geocoding], the result of the
    geocoder for its name and district or, when the geocoder raised, an object
    with [success] false, the message of the error and the status error. *)
Theorem batch_geocoding_keeps_every_village
    (geocode : value -> value -> attempt value) (villages : list value) :
  forallb (fun v => negb (nullish v)) villages = true ->
  exists entries,
    geocodeVillagesBatch geocode villages = Done entries
    /\ Forall2
         (fun village entry =>
            exists g,
              entry = VObj (<[k_geocoding := g]> (spread village))
              /\ (geocode (default VUndefined (from_ok (prop village GeocodingService.k_name)))
                          (default VUndefined (from_ok (prop village k_district))) = Done g
                  \/ exists e,
                       geocode (default VUndefined (from_ok (prop village GeocodingService.k_name)))
                               (default VUndefined (from_ok (prop village k_district)))
                         = Raised e
                       /\ prop g k_success = Ok (VBool false)
                       /\ prop g k_error = Ok (VStr (message_of e))
                       /\ prop g GeocodingService.k_status = Ok (str "error")))
         villages entries.
Proof.
  induction villages as [|village rest IH]; intros Hall.
  - exists []. split; [reflexivity|constructor].
  - simpl in Hall. apply andb_true_iff in Hall as [Hv Hrest].
    apply negb_true_iff in Hv.
    destruct (IH Hrest) as (entries & Hrun & Hrel).
    destruct (batch_entry_done geocode village Hv) as (g & Hentry & Hg).
    eexists. simpl. rewrite Hentry. cbn [and_then]. rewrite Hrun. cbn [and_then].
    split; [reflexivity|]. constructor; [|exact Hrel].
    exists g. split; [reflexivity|].
    destruct Hg as [Hg|(e & He & ->)]; [by left|].
    right. exists e. split; [exact He|]. simpl. read_object. done.
Qed.

(** A run of X13: two villages, one entry each. *)
Lemma batch_geocoding_keeps_every_village_witness :
  exists entries,
    geocodeVillagesBatch sample_geocoder sample_villages = Done entries
    /\ length entries = 2%nat.
Proof.
  destruct (batch_geocoding_keeps_every_village sample_geocoder sample_villages)
    as (entries & Hrun & Hentries).
  - reflexivity.
  - exists entries. split; [exact Hrun|].
    apply Forall2_length in Hentries. rewrite <- Hentries. reflexivity.
Defined.

(** X14.  A [null] or [undefined] element makes the batch geocoder raise,
    whatever the villages before it gave: the handler of a failed entry reads
    the name of the village again. *)
Theorem batch_geocoding_stops_at_a_missing_village
    (geocode : value -> value -> attempt value) (before after : list value)
    (village : value) :
  forallb (fun v => negb (nullish v)) before = true ->
  nullish village = true ->
  exists e, geocodeVillagesBatch geocode (before ++ village :: after) = Raised e.
Proof.
  intros Hbefore Hv. induction before as [|b before IH]; simpl.
  - destruct (batch_entry_nullish geocode village Hv) as [e He]. rewrite He. eauto.
  - simpl in Hbefore. apply andb_true_iff in Hbefore as [Hb Hbefore].
    apply negb_true_iff in Hb.
    destruct (batch_entry_done geocode b Hb) as (g & Hentry & _). rewrite Hentry.
    cbn [and_then]. destruct (IH Hbefore) as [e He]. rewrite He. eauto.
Qed.

(** A run of X14: a [null] after the two villages. *)
Lemma batch_geocoding_stops_at_a_missing_village_witness :
  exists e, geocodeVillagesBatch sample_geocoder (sample_villages ++ [VNull]) = Raised e.
Proof.
  apply (batch_geocoding_stops_at_a_missing_village sample_geocoder sample_villages []
           VNull).
  - reflexivity.
  - reflexivity.
Defined.

(* ===================================================================== *)
(** * The coordinate lookup and the refinement                            *)
(* ===================================================================== *)


(** X15.  The coordinate lookup always returns an object whose [success] is a
    boolean, and it is true exactly when the API key is set, the AI call
    returned, and its response, stripped of fences, parses to an object with a
    truthy latitude and a truthy longitude.  What the geocoder does has no
    part in it. *)
Theorem coordinate_lookup_succeeds_iff_the_ai_gave_coordinates
    (Math_sin Math_cos : float -> float) (Math_atan2 : float -> float -> float)
    (ToString : value -> jstr) (api_key : bool)
    (generate : outcome jstr) (geocode : outcome value)
    (processingTime : float) (villageName : jstr) (district : value) :
  exists r : obj,
    getPerfectCoordinatesWithGemini Math_sin Math_cos Math_atan2 ToString api_key
      generate geocode processingTime villageName district = VObj r
    /\ (exists b, r !! k_success = Some (VBool b))
    /\ (r !! k_success = Some (VBool true) <->
        api_key = true
        /\ exists text o,
             generate = Ok text
             /\ JSON_parse (strip_fences text) = Ok (VObj o)
             /\ truthy (get o k_latitude) = true
             /\ truthy (get o k_longitude) = true).
Proof.
  unfold getPerfectCoordinatesWithGemini.
  destruct api_key; simpl negb; cbv iota.
  2:{ eexists. split; [reflexivity|]. split; [eexists; read_props|].
      split; [rewrite lookup_with_props; discriminate|]. intros [? _]. discriminate. }
  destruct generate as [text|e].
  2:{ eexists. split; [reflexivity|]. split; [eexists; read_props|].
      split; [rewrite lookup_with_props; discriminate|]. intros (_ & ? & ? & ? & _). discriminate. }
  destruct (JSON_parse (strip_fences text)) as [cd|e] eqn:Hparse.
  2:{ eexists. split; [reflexivity|]. split; [eexists; read_props|].
      split; [rewrite lookup_with_props; discriminate|].
      intros (_ & ? & ? & [= <-] & ? & _). congruence. }
  assert (Hfail : forall message,
    exists r : obj, no_coordinates message processingTime = VObj r
      /\ (exists b, r !! k_success = Some (VBool b))
      /\ ~ r !! k_success = Some (VBool true)).
  { intros message. eexists. split; [reflexivity|]. split; [eexists; read_props|].
    rewrite lookup_with_props. discriminate. }
  destruct cd as [| | | | | |o];
    try (destruct (Hfail "Gemini could not provide reliable coordinates"%string) as (r & Hr & Hb & Hn);
         exists r; split; [exact Hr|]; split; [exact Hb|]; split; [done|];
         intros (_ & ? & ? & [= <-] & ? & _); congruence).
  destruct (truthy (get o k_latitude) && truthy (get o k_longitude)) eqn:Hcoords.
  2:{ destruct (Hfail "Gemini could not provide reliable coordinates"%string) as (r & Hr & Hb & Hn).
      exists r. split; [exact Hr|]. split; [exact Hb|]. split; [done|].
      intros (_ & t & o' & [= <-] & Ho & Hlat & Hlon).
      rewrite Hparse in Ho. injection Ho as <-. by rewrite Hlat, Hlon in Hcoords. }
  apply andb_true_iff in Hcoords as [Hlat Hlon].
  assert (Hcond : true = true
     /\ exists text0 o0, @Ok jstr text = Ok text0
          /\ JSON_parse (strip_fences text0) = Ok (VObj o0)
          /\ truthy (get o0 k_latitude) = true /\ truthy (get o0 k_longitude) = true).
  { split; [done|]. by exists text, o. }
  assert (Hgo : exists r : obj,
            gemini_only ToString o district processingTime = VObj r
            /\ r !! k_success = Some (VBool true)).
  { eexists. split; [reflexivity|]. read_props. }
  assert (Hcmp : forall g, exists r : obj,
            compare_sources Math_sin Math_cos Math_atan2 ToString o g villageName district
              processingTime = VObj r
            /\ r !! k_success = Some (VBool true)).
  { intros g. unfold compare_sources.
    destruct (PrimFloat.leb _ 10); eexists; (split; [reflexivity|read_props]). }
  destruct geocode as [[| | | | | |g]|e];
    try (destruct Hgo as (r & Hr & Hs); exists r; split; [exact Hr|];
         split; [by eexists|]; split; done).
  destruct (truthy (get g k_success)).
  - destruct (Hcmp g) as (r & Hr & Hs). exists r. split; [exact Hr|].
    split; [by eexists|]. split; done.
  - destruct Hgo as (r & Hr & Hs). exists r. split; [exact Hr|].
    split; [by eexists|]. split; done.
Qed.

Import CoordinateStatements.


(** X16.  When the AI estimate has truthy coordinates and the geocoder raises,
    or returns something without a truthy [success], the lookup returns the
    coordinates of the AI, the district of the AI or else the given one, the
    source gemini_only, the confidence of the AI or else 0.6, and no
    alternative coordinates. *)
Theorem unconfirmed_lookup_returns_the_ai_estimate
    (Math_sin Math_cos : float -> float) (Math_atan2 : float -> float -> float)
    (ToString : value -> jstr) (text : jstr) (geocode : outcome value)
    (processingTime : float) (villageName : jstr) (district : value) (o : obj) :
  JSON_parse (strip_fences text) = Ok (VObj o) ->
  truthy (get o k_latitude) = true ->
  truthy (get o k_longitude) = true ->
  unconfirmed geocode = true ->
  exists r : obj,
    getPerfectCoordinatesWithGemini Math_sin Math_cos Math_atan2 ToString true
      (Ok text) geocode processingTime villageName district = VObj r
    /\ r !! k_success = Some (VBool true)
    /\ r !! k_latitude = Some (get o k_latitude)
    /\ r !! k_longitude = Some (get o k_longitude)
    /\ r !! k_district = Some (or_else (get o k_district) district)
    /\ r !! k_coordinate_source = Some (str "gemini_only")
    /\ r !! k_confidence_score = Some (or_else (get o k_confidence_score) (VNum 0.6))
    /\ r !! k_alternative_coordinates = None.
Proof.
  intros Hparse Hlat Hlon Hgeo.
  unfold getPerfectCoordinatesWithGemini. simpl negb. cbv iota.
  rewrite Hparse, Hlat, Hlon. simpl andb. cbv iota.
  assert (Hgo : exists r : obj,
      gemini_only ToString o district processingTime = VObj r
      /\ r !! k_success = Some (VBool true)
      /\ r !! k_latitude = Some (get o k_latitude)
      /\ r !! k_longitude = Some (get o k_longitude)
      /\ r !! k_district = Some (or_else (get o k_district) district)
      /\ r !! k_coordinate_source = Some (str "gemini_only")
      /\ r !! k_confidence_score = Some (or_else (get o k_confidence_score) (VNum 0.6))
      /\ r !! k_alternative_coordinates = None).
  { eexists. split; [reflexivity|]. repeat split; read_props. }
  destruct geocode as [[| | | | | |g]|e]; try exact Hgo.
  simpl in Hgo, Hgeo. apply negb_true_iff in Hgeo. rewrite Hgeo. exact Hgo.
Qed.

(** A run of X16: the sample estimate while the geocoder finds nothing. *)
Lemma unconfirmed_lookup_returns_the_ai_estimate_witness :
  exists r : obj,
    getPerfectCoordinatesWithGemini MathStandIn.sin MathStandIn.cos MathStandIn.atan2
      MathStandIn.to_string true (Ok sample_ai_coordinates)
      (geocoder_finds_nothing (js "Ribda") (str "Rajkot")) 120 (js "Ribda") (str "Rajkot")
      = VObj r
    /\ r !! k_latitude = Some (VNum 22.30)
    /\ r !! k_longitude = Some (VNum 70.80)
    /\ r !! k_coordinate_source = Some (str "gemini_only").
Proof.
  destruct (unconfirmed_lookup_returns_the_ai_estimate
              MathStandIn.sin MathStandIn.cos MathStandIn.atan2 MathStandIn.to_string
              sample_ai_coordinates (geocoder_finds_nothing (js "Ribda") (str "Rajkot"))
              120 (js "Ribda") (str "Rajkot") sample_estimate)
    as (r & Hr & _ & Hlat & Hlon & _ & Hsource & _).
  - vm_compute. reflexivity.
  - vm_compute. reflexivity.
  - vm_compute. reflexivity.
  - vm_compute. reflexivity.
  - exists r. split; [exact Hr|].
    split; [rewrite Hlat; vm_compute; reflexivity|].
    split; [rewrite Hlon; vm_compute; reflexivity|exact Hsource].
Defined.

(** X17.  Without an API key the refinement returns the extracted fields as
    they are, with no [refinement_applied] mark.  When the AI call raises, it
    returns them with [refinement_applied] false, the message of the error and
    the elapsed time, every other property unchanged. *)
Theorem refinement_without_an_answer_keeps_the_original (elapsed : float) (o : obj) :
  (forall generate, refineExtractedDataWithGemini false generate elapsed (VObj o) = VObj o)
  /\ (forall message,
        exists r : obj,
          refineExtractedDataWithGemini true (Throw message) elapsed (VObj o) = VObj r
          /\ r !! k_refinement_applied = Some (VBool false)
          /\ r !! k_refinement_error = Some (VStr (js message))
          /\ r !! k_refinement_time_ms = Some (VNum elapsed)
          /\ forall k, k ∉ failure_keys -> r !! k = o !! k).
Proof.
  split; [reflexivity|].
  intros message.
  destruct (refinement_failed_spec o message elapsed) as (r & Hr & H1 & H2 & H3).
  exists r. split; [exact Hr|]. split; [exact H1|]. split; [exact H2|]. split; [|exact H3].
  unfold refinement_failed in Hr. injection Hr as <-. apply lookup_insert_eq.
Qed.

(* ===================================================================== *)
(** * The extraction call and the text route                              *)
(* ===================================================================== *)

Import GeminiPipeline.

Lemma post_process_truthy (pd cd : value) :
  truthy pd = true -> postProcessVillageNames pd = Ok cd -> truthy cd = true.
Proof.
  intros Hpd. unfold postProcessVillageNames.
  destruct (prop pd k_village_name) as [vn|]; [|discriminate]. simpl.
  destruct (negb (truthy vn)); [by intros [= <-]|].
  destruct vn; try discriminate. by intros [= <-].
Qed.

Lemma parser_total (response : jstr) :
  exists p, parseGeminiResponse response = Ok p /\ truthy (data p) = true.
Proof.
  unfold parseGeminiResponse.
  destruct (parse_main response) as [p|e] eqn:Hmain; simpl.
  - exists p. split; [reflexivity|].
    unfold parse_main in Hmain.
    destruct (JSON_parse _) as [parsed|]; simpl in Hmain; [|discriminate].
    destruct (prop parsed k_data) as [pd|]; simpl in Hmain; [|discriminate].
    destruct (truthy pd) eqn:Hpd; simpl in Hmain; [|discriminate].
    destruct (negb (typeof_object pd)); [discriminate|].
    destruct (postProcessVillageNames pd) as [cd|] eqn:Hpost; simpl in Hmain; [|discriminate].
    destruct (prop parsed k_confidence) as [pc|]; simpl in Hmain; [|discriminate].
    destruct (prop parsed k_notes) as [pn|]; simpl in Hmain; [|discriminate].
    injection Hmain as <-. simpl. by apply (post_process_truthy pd).
  - destruct (parse_fallback response) as [p|] eqn:Hfb.
    + exists p. split; [reflexivity|].
      unfold parse_fallback in Hfb.
      destruct (match_first re_braces response) as [block|]; [|discriminate].
      destruct (JSON_parse block) as [fp|]; simpl in Hfb; [|discriminate].
      destruct (prop fp k_data) as [fd|]; simpl in Hfb; [|discriminate].
      destruct (truthy fd) eqn:Hfd; [|discriminate].
      destruct (prop fp k_confidence) as [fc|]; simpl in Hfb; [|discriminate].
      injection Hfb as <-. exact Hfd.
    + exists empty_structure. split; reflexivity.
Qed.

(** X18.  The extraction parser returns on every response text, and the data
    of its result is truthy: reading a property of it never raises. *)
Theorem extraction_parser_always_returns (response : jstr) :
  exists p,
    parseGeminiResponse response = Ok p
    /\ truthy (data p) = true
    /\ (forall k, exists v, prop (data p) k = Ok v).
Proof.
  destruct (parser_total response) as (p & Hp & Hdata).
  exists p. split; [exact Hp|]. split; [exact Hdata|].
  intros k. destruct (data p); try discriminate Hdata; simpl; eauto.
Qed.

(** X19.  With the API key set, when the AI call returns a text, the
    extraction call returns an object that carries the data and the confidence
    the parser gives for that text, the raw text, the text of the AI and the
    status completed_gemini; the data is truthy. *)
Theorem extraction_call_returns_when_the_ai_answers
    (processingTime : float) (rawText text : jstr) :
  exists p r,
    parseGeminiResponse text = Ok p
    /\ processWithGemini true (Done text) processingTime rawText = Done (VObj r)
    /\ r !! k_extracted_data = Some (data p)
    /\ truthy (data p) = true
    /\ r !! k_confidence_score = Some (confidence p)
    /\ r !! k_raw_text = Some (VStr rawText)
    /\ r !! k_gemini_response = Some (VStr text)
    /\ r !! k_processing_status = Some (str "completed_gemini").
Proof.
  destruct (parser_total text) as (p & Hp & Hdata).
  exists p. eexists. split; [exact Hp|].
  unfold processWithGemini, extraction_body. simpl negb. cbv iota.
  cbn [and_then]. rewrite Hp. cbn [lift and_then].
  split; [reflexivity|]. repeat split; try done; read_object; reflexivity.
Qed.

Lemma classify_failure_app (e : thrown) : is_app_error (classify_failure e) = true.
Proof.
  unfold classify_failure.
  repeat match goal with |- context [if ?c then _ else _] => destruct c eqn:? end; done.
Qed.

(** X20.  Every error raised by the extraction call is an [AppError].  Without
    an API key it has the status 500 and the code GEMINI_API_KEY_MISSING.
    When the AI call raises, the message decides first: API_KEY_INVALID gives
    403, QUOTA_EXCEEDED 429, SAFETY 400, in this order; otherwise an
    [AppError] passes unchanged and any other error is wrapped with the status
    500 and the code GEMINI_PROCESSING_ERROR. *)
Theorem extraction_call_failures (generate : attempt jstr) (processingTime : float)
    (rawText : jstr) :
  (forall api_key e,
     processWithGemini api_key generate processingTime rawText = Raised e ->
     is_app_error e = true)
  /\ (exists m,
        processWithGemini false generate processingTime rawText =
          Raised (AppError m (VNum 500) (str "GEMINI_API_KEY_MISSING")))
  /\ (forall e0, generate = Raised e0 ->
        exists m sc c,
          processWithGemini true generate processingTime rawText = Raised (AppError m sc c)
          /\ (if includes (message_of e0) (js "API_KEY_INVALID")
              then sc = VNum 403 /\ c = str "GEMINI_API_KEY_INVALID"
              else if includes (message_of e0) (js "QUOTA_EXCEEDED")
              then sc = VNum 429 /\ c = str "GEMINI_QUOTA_EXCEEDED"
              else if includes (message_of e0) (js "SAFETY")
              then sc = VNum 400 /\ c = str "GEMINI_SAFETY_BLOCK"
              else match e0 with
                   | AppError m0 sc0 c0 => m = m0 /\ sc = sc0 /\ c = c0
                   | Error m0 =>
                     m = js "Gemini AI processing failed: " ++ m0
                     /\ sc = VNum 500 /\ c = str "GEMINI_PROCESSING_ERROR"
                   end)).
Proof.
  split; [|split].
  - intros api_key e. unfold processWithGemini.
    destruct (extraction_body _ _ _ _); [discriminate|].
    intros [= <-]. apply classify_failure_app.
  - eexists. reflexivity.
  - intros e0 ->. unfold processWithGemini, extraction_body. simpl negb. cbv iota.
    cbn [and_then]. unfold classify_failure.
    destruct (includes (message_of e0) (js "API_KEY_INVALID")); [by eexists _, _, _|].
    destruct (includes (message_of e0) (js "QUOTA_EXCEEDED")); [by eexists _, _, _|].
    destruct (includes (message_of e0) (js "SAFETY")); [by eexists _, _, _|].
    destruct e0 as [m0|m0 sc0 c0]; simpl; by eexists _, _, _.
Qed.

Import GeminiPipeline TextRoute.

(** X21.  The text route.  A body whose [text] is missing, not a string or
    empty is answered 400 and the store is untouched.  When the extraction
    call raises, the answer is 500 with the message of the error and the store
    is untouched.  When it returns, the answer is 200 and its data are the
    results of the call and, besides, either [saved_to_database] true and the
    new identifier as [database_id], the record being readable under it, or
    [saved_to_database] false and a [database_error], the store untouched. *)
Theorem text_route_answers (tz : Z) (new_id new_log_id : jstr) (now : Z)
    (api_key : bool) (generate : attempt jstr) (processingTime : float)
    (req_body : obj) (d : db) :
  let run := process_text_with_gemini tz new_id new_log_id now api_key generate
               processingTime req_body d in
  ((forall text, get req_body k_text <> VStr text \/ text = []) ->
     http_status run.1 = 400%Z /\ run.2 = d)
  /\ (forall text e,
        get req_body k_text = VStr text -> text <> [] ->
        processWithGemini api_key generate processingTime text = Raised e ->
        http_status run.1 = 500%Z /\ run.2 = d
        /\ prop (body run.1) k_error = Ok (VStr (message_of e)))
  /\ (forall text results,
        get req_body k_text = VStr text -> text <> [] ->
        processWithGemini api_key generate processingTime text = Done results ->
        http_status run.1 = 200%Z
        /\ exists data : obj,
             prop (body run.1) k_data = Ok (VObj data)
             /\ (forall k, k ∉ [k_database_id; k_saved_to_database; k_database_error] ->
                   data !! k = spread results !! k)
             /\ ((data !! k_saved_to_database = Some (VBool true)
                  /\ data !! k_database_id = Some (VStr new_id)
                  /\ is_Some (getPropertyNoticeById new_id run.2))
                 \/ (data !! k_saved_to_database = Some (VBool false)
                     /\ (exists message, data !! k_database_error = Some (VStr message))
                     /\ run.2 = d))).
Proof.
  intros run. subst run. unfold process_text_with_gemini.
  split; [|split].
  - intros Hno. destruct (get req_body k_text) as [| | | |[|c t]| |] eqn:Ht; try done.
    destruct (Hno (c :: t)); done.
  - intros text e Ht Hne Hrun. rewrite Ht. destruct text as [|c t]; [done|].
    rewrite Hrun. cbn [fst snd json_response http_status body prop].
    split; [done|]. split; [done|]. unfold get. rewrite lookup_with_props. reflexivity.
  - intros text results Ht Hne Hrun. rewrite Ht. destruct text as [|c t]; [done|].
    rewrite Hrun.
    destruct (savePropertyNotice tz new_id new_log_id now _ d) as [[d1 saved]|message] eqn:Hsave.
    + cbn [fst snd json_response http_status body prop].
      split; [done|]. eexists. split; [unfold get; rewrite lookup_with_props; reflexivity|].
      pose proof (save_stores_the_record tz new_id new_log_id now _ d d1 saved Hsave)
        as (Hget & _ & Hid & _).
      split.
      * intros k Hk. rewrite lookup_with_props, last_binding_None; [reflexivity|].
        cbn [fmap list_fmap fst]. intros Hin. apply Hk.
        repeat (apply elem_of_cons in Hin as [->|Hin];
                [repeat (apply elem_of_cons; (by left) || right)|]).
        by apply elem_of_nil in Hin.
      * left. rewrite !lookup_with_props. rewrite Hid.
        split; [reflexivity|]. split; [reflexivity|]. by rewrite Hget.
    + cbn [fst snd json_response http_status body prop].
      split; [done|]. eexists. split; [unfold get; rewrite lookup_with_props; reflexivity|].
      split.
      * intros k Hk. rewrite lookup_with_props, last_binding_None; [reflexivity|].
        cbn [fmap list_fmap fst]. intros Hin. apply Hk.
        repeat (apply elem_of_cons in Hin as [->|Hin];
                [repeat (apply elem_of_cons; (by left) || right)|]).
        by apply elem_of_nil in Hin.
      * right. rewrite !lookup_with_props.
        split; [reflexivity|]. split; [eexists; reflexivity|reflexivity].
Qed.

(* ===================================================================== *)
(** * The geocoding queue                                                 *)
(* ===================================================================== *)

Import ErrorHandler Queue.
Import QueueStatements.

Lemma update_shape (now : Z) (o : obj) :
  exists f : notice -> notice,
    forall i d n,
      property_notices d !! i = Some n ->
      updatePropertyNoticeLocation now i o d =
        Ok {| property_notices := <[i := f n]> (property_notices d);
              processing_logs := processing_logs d |}.
Proof.
  eexists. intros i d n Hn. unfold updatePropertyNoticeLocation. rewrite Hn.
  reflexivity.
Qed.

Lemma after_geocoding_store (clock : jstr -> Z) (geocode : value -> value -> attempt value)
    (d d0 : db) (i : jstr) (n : notice) :
  property_notices d !! i = Some n -> property_notices d0 !! i = Some n ->
  after_geocoding clock geocode d i n = after_geocoding clock geocode d0 i n.
Proof.
  intros Hd Hd0. unfold after_geocoding.
  destruct (geocode _ _) as [r|]; [|reflexivity].
  destruct (location_data r) as [o|]; [|reflexivity]. simpl.
  destruct (update_shape (clock i) o) as [f Hf].
  rewrite (Hf i d n Hd), (Hf i d0 n Hd0). simpl. by rewrite !lookup_insert_eq.
Qed.

Lemma geocode_one_spec (clock : jstr -> Z) (geocode : value -> value -> attempt value)
    (i : jstr) (n : notice) (d : db) :
  property_notices d !! i = Some n ->
  let v := {| v_id := i; v_village_name := village_name n;
              v_district := Firebase.district n |} in
  let d1 := (geocode_one clock geocode v d).1 in
  processing_logs d1 = processing_logs d
  /\ (forall j, j <> i -> property_notices d1 !! j = property_notices d !! j)
  /\ property_notices d1 !! i = after_geocoding clock geocode d i n.
Proof.
  intros Hn v d1. subst v d1. unfold geocode_one, after_geocoding. simpl.
  destruct (geocode _ _) as [r|]; [|done].
  destruct (location_data r) as [o|]; [|done]. simpl.
  destruct (update_shape (clock i) o) as [f Hf]. rewrite (Hf i d n Hn). simpl.
  split; [done|]. split; [|done]. intros j Hj. by rewrite lookup_insert_ne.
Qed.

Lemma geocode_all_spec (clock : jstr -> Z) (geocode : value -> value -> attempt value)
    (d0 : db) : forall (l : list (jstr * notice)) (d : db),
  NoDup l.*1 ->
  (forall i n, (i, n) ∈ l ->
     property_notices d !! i = Some n /\ property_notices d0 !! i = Some n) ->
  let villages :=
    (fun kv : jstr * notice =>
       {| v_id := kv.1; v_village_name := village_name kv.2;
          v_district := Firebase.district kv.2 |}) <$> l in
  let run := geocode_all clock geocode villages d in
  processing_logs run.1 = processing_logs d
  /\ length run.2 = length l
  /\ forall i,
       property_notices run.1 !! i =
         if decide (i ∈ l.*1) then
           match property_notices d0 !! i with
           | Some n => after_geocoding clock geocode d0 i n
           | None => None
           end
         else property_notices d !! i.
Proof.
  induction l as [|[k n] l IH]; intros d Hnodup Hl; simpl.
  - split; [done|]. split; [done|]. intros i.
    destruct (decide (i ∈ [])) as [H|]; [by apply elem_of_nil in H|done].
  - simpl in Hnodup. apply NoDup_cons in Hnodup as [Hk Hnodup].
    destruct (Hl k n ltac:(apply elem_of_cons; by left)) as [Hdk Hd0k].
    destruct (geocode_one_spec clock geocode k n d Hdk) as (Hlogs & Hother & Hthis).
    simpl in Hlogs, Hother, Hthis.
    destruct (geocode_one clock geocode _ d) as [d1 entry] eqn:Hone. simpl in *.
    assert (Hl1 : forall i m, (i, m) ∈ l ->
              property_notices d1 !! i = Some m /\ property_notices d0 !! i = Some m).
    { intros i m Him. destruct (Hl i m ltac:(apply elem_of_cons; by right)) as [H1 H2]. split; [|done].
      rewrite Hother; [done|]. intros ->. apply Hk.
      apply list_elem_of_fmap. by exists (k, m). }
    specialize (IH d1 Hnodup Hl1). simpl in IH.
    destruct (geocode_all clock geocode _ d1) as [d2 entries] eqn:Hall. simpl in *.
    destruct IH as (IHlogs & IHlen & IHnot).
    split; [congruence|]. split; [by rewrite IHlen|].
    intros i. rewrite IHnot.
    assert (Hmem : i ∈ k :: l.*1 <-> i = k \/ i ∈ l.*1) by apply elem_of_cons.
    repeat case_decide.
    + done.
    + exfalso. tauto.
    + destruct (decide (i = k)) as [->|Hne]; [|exfalso; tauto].
      rewrite Hd0k, Hthis. by apply after_geocoding_store.
    + apply Hother. intros ->. tauto.
Qed.


Lemma queue_run_spec (clock : jstr -> Z) (geocode : value -> value -> attempt value)
    (d : db) :
  let run := geocode_existing clock geocode d in
  http_status run.1 = 200%Z
  /\ processing_logs run.2 = processing_logs d
  /\ forall i,
       property_notices run.2 !! i =
         match property_notices d !! i with
         | Some n =>
           if queued n && lacks_location n then after_geocoding clock geocode d i n
           else Some n
         | None => None
         end.
Proof.
  unfold geocode_existing, getVillagesNeedingGeocoding.
  set (P := fun kv : jstr * notice => queued kv.2 && lacks_location kv.2).
  set (l := map_to_list (filter P (property_notices d))).
  assert (Hl : forall i n, (i, n) ∈ l <-> property_notices d !! i = Some n /\ P (i, n) = true).
  { intros i n. subst l. rewrite elem_of_map_to_list, map_lookup_filter_Some.
    split; intros [H1 H2]; split; try done.
    - by apply Is_true_true.
    - by apply Is_true_true. }
  pose proof (geocode_all_spec clock geocode d l d
                (NoDup_fst_map_to_list _)
                (fun i n H => let H' := proj1 (proj1 (Hl i n) H) in conj H' H'))
    as (Hlogs & _ & Hnot).
  simpl in Hlogs, Hnot.
  destruct (geocode_all clock geocode _ d) as [d' results]. simpl in *.
  split; [reflexivity|]. split; [exact Hlogs|].
  intros i. rewrite Hnot.
  destruct (property_notices d !! i) as [n|] eqn:Hn.
  - destruct (queued n && lacks_location n) eqn:HP.
    + rewrite decide_True; [done|].
      apply list_elem_of_fmap. exists (i, n). split; [done|]. by apply Hl.
    + rewrite decide_False; [done|].
      intros Hin. apply list_elem_of_fmap in Hin as ([j m] & -> & Hjm).
      apply Hl in Hjm as [Hj HPm]. simpl in *. rewrite Hn in Hj. injection Hj as ->.
      unfold P in HPm. simpl in HPm. congruence.
  - by case_decide.
Qed.

(** X22.  A run of the route that geocodes the existing notices answers 200,
    leaves the log entries alone and changes only the records that the queue
    selects (a status pending or failed, a truthy name, no latitude or no
    longitude).  What it leaves under each of them depends on that record
    alone: the record written by the location update when the geocoder
    returned, the record itself when the geocoder raised. *)
Theorem geocoding_queue_run (clock : jstr -> Z)
    (geocode : value -> value -> attempt value) (d : db) :
  let run := geocode_existing clock geocode d in
  http_status run.1 = 200%Z
  /\ processing_logs run.2 = processing_logs d
  /\ forall i,
       property_notices run.2 !! i =
         match property_notices d !! i with
         | Some n =>
           if queued n && lacks_location n then after_geocoding clock geocode d i n
           else Some n
         | None => None
         end.
Proof. apply queue_run_spec. Qed.


Lemma update_sets_status (now : Z) (i : jstr) (o : obj) (d d1 : db) :
  updatePropertyNoticeLocation now i o d = Ok d1 ->
  exists n1, property_notices d1 !! i = Some n1
    /\ geocoding_status n1 = or_else (get o (js "status")) (str "completed").
Proof.
  unfold updatePropertyNoticeLocation.
  destruct (property_notices d !! i) as [n|]; [|discriminate].
  intros [= <-]. simpl. rewrite lookup_insert_eq. eauto.
Qed.

(** X23.  After a run of the route with [geocodeVillage] as geocoder, a record
    is in the queue only if it was there before the run, unchanged, and the
    geocoder raised on it.  A village for which the service finds nothing gets
    the status not_found and leaves the queue for good. *)
Theorem queue_keeps_only_failed_lookups
    (ToString : value -> jstr) (fetch : jstr -> attempt http_response)
    (api_key : bool) (clock : jstr -> Z) (d : db) :
  let geocode := fun name district =>
    geocodeVillage ToString fetch api_key name district VUndefined in
  let d' := (geocode_existing clock geocode d).2 in
  forall i n',
    property_notices d' !! i = Some n' ->
    queued n' && lacks_location n' = true ->
    property_notices d !! i = Some n'
    /\ exists e, geocode (village_name n') (Firebase.district n') = Raised e.
Proof.
  intros geocode d' i n' Hi Hq. subst d'.
  destruct (queue_run_spec clock geocode d) as (_ & _ & Hrun).
  rewrite Hrun in Hi.
  destruct (property_notices d !! i) as [n|] eqn:Hn; [|discriminate Hi].
  destruct (queued n && lacks_location n) eqn:HP.
  - unfold after_geocoding in Hi.
    destruct (geocode (village_name n) (Firebase.district n)) as [r|e] eqn:Hg.
    + exfalso. subst geocode. simpl in Hg.
      apply geocode_village_status in Hg as (o & -> & Hs). simpl in Hi.
      destruct (updatePropertyNoticeLocation (clock i) i o d) as [d1|] eqn:Hup.
      * destruct (update_sets_status _ _ _ _ _ Hup) as (n1 & Hn1 & Hstatus).
        rewrite Hn1 in Hi. injection Hi as ->.
        apply andb_true_iff in Hq as [Hq _]. unfold queued in Hq.
        apply andb_true_iff in Hq as [_ Hq]. rewrite Hstatus in Hq.
        change (js "status") with k_status in Hq.
        destruct Hs as [Hs|Hs]; rewrite Hs in Hq; vm_compute in Hq; discriminate Hq.
      * unfold updatePropertyNoticeLocation in Hup. rewrite Hn in Hup. discriminate Hup.
    + injection Hi as <-. split; [reflexivity|]. eauto.
  - injection Hi as <-. congruence.
Qed.

(** A run of X23: the sample record, pending, on a server without a key
    for the geocoder. *)
Lemma queue_keeps_only_failed_lookups_witness :
  property_notices sample_store !! sample_id = Some sample_doc
  /\ exists e, keyless_geocoder (village_name sample_doc) (Firebase.district sample_doc)
               = Raised e.
Proof.
  pose proof (queue_keeps_only_failed_lookups MathStandIn.to_string sample_fetch false
                (fun _ => (sample_now + 800)%Z) sample_store) as H.
  cbv zeta in H. apply (H sample_id sample_doc).
  - vm_compute. reflexivity.
  - vm_compute. reflexivity.
Defined.

Lemma elem_of_queue (d : db) (v : village) :
  v ∈ getVillagesNeedingGeocoding d <->
  exists n, property_notices d !! v_id v = Some n
    /\ queued n && lacks_location n = true
    /\ v_village_name v = village_name n
    /\ v_district v = Firebase.district n.
Proof.
  unfold getVillagesNeedingGeocoding. rewrite list_elem_of_fmap. split.
  - intros ([i n] & -> & H).
    apply elem_of_map_to_list, map_lookup_filter_Some in H as [H1 H2].
    exists n. simpl in *. split; [done|]. split; [by apply Is_true_true|done].
  - intros (n & Hn & Hq & Hv & Hd). exists (v_id v, n).
    split; [destruct v; simpl in *; by subst|].
    apply elem_of_map_to_list, map_lookup_filter_Some. split; [done|].
    simpl. by apply Is_true_true.
Qed.

Lemma save_queue_fields (tz : Z) (new_id new_log_id : jstr) (now : Z)
    (rq : save_request) (d d' : db) (v : notice_view) (o : obj) :
  rq_extracted_data rq = VObj o ->
  savePropertyNotice tz new_id new_log_id now rq d = Ok (d', v) ->
  village_name (doc v) = null_if_falsy (get o k_village_name)
  /\ latitude (doc v) = null_if_falsy (get o k_latitude)
  /\ longitude (doc v) = null_if_falsy (get o k_longitude)
  /\ Firebase.district (doc v) = null_if_falsy (get o k_district)
  /\ geocoding_status (doc v) = or_else (get o (js "geocoding_status")) (str "pending").
Proof.
  intros Ho. unfold savePropertyNotice, try_catch. rewrite Ho.
  match goal with |- context [match ?b with Ok _ => _ | Throw _ => _ end] =>
    destruct b as [[d1 v1]|] eqn:Hbody; [|discriminate] end.
  intros [= <- <-].
  step_binds Hbody.
  injection Hbody as <- <-. simpl in *.
  repeat match goal with H : Ok _ = Ok _ |- _ => injection H as <- end.
  repeat split.
Qed.

Lemma truthy_null_if_falsy (x : value) : truthy (null_if_falsy x) = truthy x.
Proof. unfold null_if_falsy, or_else. by destruct (truthy x) eqn:E. Qed.

(** X24.  When the save route stores a record with a truthy village name,
    without a latitude or without a longitude, and without a geocoding status
    of its own, and automatic geocoding fails in any way, the answer is 200
    and the record is in the list returned by [getVillagesNeedingGeocoding],
    with its identifier, its name and its district. *)
Theorem failed_auto_geocoding_is_queued (tz : Z) (new_id new_log_id : jstr)
    (now now' : Z) (geocode : jstr -> value -> outcome value) (req_body : obj)
    (d d1 : db) (saved : notice_view) (o : obj) :
  get req_body (js "extractedData") = VObj o ->
  truthy (get o k_village_name) = true ->
  truthy (get o k_latitude) && truthy (get o k_longitude) = false ->
  truthy (get o (js "geocoding_status")) = false ->
  savePropertyNotice tz new_id new_log_id now (data_to_save req_body) d = Ok (d1, saved) ->
  (forall name district l,
     geocode name district = Ok (VObj l) -> truthy (get l k_success) = false) ->
  let result := save_notice tz new_id new_log_id now now' geocode req_body d in
  http_status result.1 = 200%Z
  /\ {| v_id := new_id;
        v_village_name := get o k_village_name;
        v_district := null_if_falsy (get o k_district) |}
     ∈ getVillagesNeedingGeocoding result.2.
Proof.
  intros Ho Hname Hcoords Hstatus Hsave Hfail result.
  assert (Hdata : truthy (get req_body (js "extractedData")) = true) by (by rewrite Ho).
  destruct (save_survives_geocoding_failure tz new_id new_log_id now now' geocode req_body
              d d1 saved Hdata Hsave Hfail) as (H200 & Hstore & Hget & _).
  fold result in H200, Hstore, Hget. split; [exact H200|].
  rewrite Hstore.
  destruct (save_queue_fields tz new_id new_log_id now (data_to_save req_body) d d1 saved o
              Ho Hsave)
    as (Hv & Hlat & Hlon & Hdist & Hgs).
  rewrite Hstore in Hget. unfold getPropertyNoticeById in Hget.
  destruct (property_notices d1 !! new_id) as [n|] eqn:Hn; [|discriminate Hget].
  simpl in Hget. injection Hget as Hview.
  assert (Hdoc : doc saved = n) by (by rewrite <- Hview).
  rewrite Hdoc in *.
  assert (Hnf : null_if_falsy (get o k_village_name) = get o k_village_name).
  { unfold null_if_falsy, or_else. by rewrite Hname. }
  apply elem_of_queue. exists n. simpl.
  split; [exact Hn|]. split; [|by rewrite Hv, Hdist, Hnf].
  unfold queued, lacks_location. rewrite Hv, Hlat, Hlon, Hgs, Hnf.
  rewrite !truthy_null_if_falsy, Hname. unfold or_else. rewrite Hstatus.
  apply andb_false_iff in Hcoords.
  assert (Hnn : match get o k_village_name with VNull => true | _ => false end = false).
  { destruct (get o k_village_name); try reflexivity. discriminate Hname. }
  rewrite Hnn. simpl.
  destruct Hcoords as [-> | ->]; simpl; [reflexivity|apply orb_true_r].
Qed.

(** A run of X24: the sample body posted while the geocoder is unreachable. *)
Lemma failed_auto_geocoding_is_queued_witness :
  let result := save_notice 330 sample_id sample_log_id sample_now (sample_now + 800)%Z
                  geocoder_unreachable sample_body empty_db in
  http_status result.1 = 200%Z
  /\ {| v_id := sample_id; v_village_name := str "રીબડા"; v_district := VNull |}
     ∈ getVillagesNeedingGeocoding result.2.
Proof.
  apply (failed_auto_geocoding_is_queued 330 sample_id sample_log_id sample_now
           (sample_now + 800)%Z geocoder_unreachable sample_body empty_db sample_store
           (view sample_doc) sample_fields).
  - vm_compute. reflexivity.
  - vm_compute. reflexivity.
  - vm_compute. reflexivity.
  - vm_compute. reflexivity.
  - vm_compute. reflexivity.
  - intros name district l H. discriminate H.
Defined.
